(** * Marching Cubes: isosurface extraction, flat normals and PLY export

    A shallow embedding of [src/MarchingCube/marching.cpp] together with the
    properties of its specification.

    - C++ [float] is IEEE-754 binary32.  It is modelled by [spec_float] with
      the operations of [SpecFloat] at precision 24 and maximal exponent 128,
      rounding to nearest, ties to even.
    - [glm::vec3] is a record of three floats; the few GLM operations the
      program uses are written out component by component.
    - [std::vector<float>] is a [list float]; [operator[]] outside the bounds
      is undefined behaviour and is modelled by the result [Fault].
    - Loops whose trip count depends on floating-point accumulation take a
      fuel argument and answer [OutOfFuel] when it is exhausted. *)

From Stdlib Require Import String Ascii.
From Stdlib Require Import ZArith List Bool Lia Arith PeanoNat.
From Stdlib Require Import SpecFloat.
From Stdlib Require Import DecimalString DecimalNat.
Import ListNotations.

(* ===================================================================== *)
(** ** Binary32 arithmetic *)
(* ===================================================================== *)

Module F32.

Definition prec : Z := 24.
Definition emax : Z := 128.

Definition float : Type := spec_float.

(** A [spec_float] denotes a binary32 value when its mantissa and exponent
    are in canonical form. *)
Definition is_float (x : float) : Prop := valid_binary prec emax x = true.

Definition add (x y : float) : float := SFadd prec emax x y.
Definition sub (x y : float) : float := SFsub prec emax x y.
Definition mul (x y : float) : float := SFmul prec emax x y.
Definition div (x y : float) : float := SFdiv prec emax x y.
Definition sqrt (x : float) : float := SFsqrt prec emax x.
Definition ltb (x y : float) : bool := SFltb x y.
Definition leb (x y : float) : bool := SFleb x y.
Definition eqb (x y : float) : bool := SFeqb x y.

(** Conversion of an integer literal, as in [glm::vec3 v = {0, 1, 0}]. *)
Definition of_Z (z : Z) : float := binary_normalize prec emax z 0 false.

(** [m * 2^e], rounded; used to write constants such as [0.5f]. *)
Definition of_scaled (m e : Z) : float := binary_normalize prec emax m e false.

Definition zero : float := S754_zero false.
Definition one : float := Eval cbv in of_Z 1.
Definition nan : float := S754_nan.

Definition is_nan (x : float) : bool :=
  match x with S754_nan => true | _ => false end.

(** The position of a float on the binary32 number line, counted in
    units that separate any two distinct floats.  It serves as a measure
    for loops whose variable grows. *)
Definition ord (x : float) : Z :=
  match x with
  | S754_zero _ => 0
  | S754_nan => 0
  | S754_infinity s => cond_Zopp s 4294967296
  | S754_finite s m e => cond_Zopp s ((e + 150) * 16777216 + Zpos m)
  end.

(** Finite in the sense of [std::isfinite]: neither infinite nor NaN. *)
Definition is_finite (x : float) : bool :=
  match x with
  | S754_zero _ | S754_finite _ _ _ => true
  | S754_infinity _ | S754_nan => false
  end.

End F32.

Declare Scope f32_scope.
Delimit Scope f32_scope with f32.
Bind Scope f32_scope with F32.float.
Abbreviation float := F32.float.
Infix "+" := F32.add : f32_scope.
Infix "-" := F32.sub : f32_scope.
Infix "*" := F32.mul : f32_scope.
Infix "/" := F32.div : f32_scope.
Infix "<?" := F32.ltb : f32_scope.
Infix "<=?" := F32.leb : f32_scope.
Infix "=?" := F32.eqb : f32_scope.

(* ===================================================================== *)
(** ** The part of GLM the program uses *)
(* ===================================================================== *)

Module Glm.

Record vec3 : Type := mkvec3 { x : float; y : float; z : float }.

Definition vadd (a b : vec3) : vec3 :=
  mkvec3 (x a + x b) (y a + y b) (z a + z b)%f32.

Definition vsub (a b : vec3) : vec3 :=
  mkvec3 (x a - x b) (y a - y b) (z a - z b)%f32.

(** [vec3 * float] *)
Definition vscale (a : vec3) (s : float) : vec3 :=
  mkvec3 (x a * s) (y a * s) (z a * s)%f32.

(** [float * vec3] *)
Definition scalev (s : float) (a : vec3) : vec3 :=
  mkvec3 (s * x a) (s * y a) (s * z a)%f32.

(** [operator==] on vectors: all three components compare equal. *)
Definition veqb (a b : vec3) : bool :=
  ((x a =? x b) && (y a =? y b) && (z a =? z b))%f32.

Definition dot (a b : vec3) : float :=
  (x a * x b + y a * y b + z a * z b)%f32.

Definition cross (a b : vec3) : vec3 :=
  mkvec3 (y a * z b - y b * z a)
         (z a * x b - z b * x a)
         (x a * y b - x b * y a)%f32.

Definition inversesqrt (s : float) : float := (F32.one / F32.sqrt s)%f32.

Definition normalize (a : vec3) : vec3 := vscale a (inversesqrt (dot a a)).

Definition of_Z3 (a b c : Z) : vec3 :=
  mkvec3 (F32.of_Z a) (F32.of_Z b) (F32.of_Z c).

End Glm.

Abbreviation vec3 := Glm.vec3.

(* ===================================================================== *)
(** ** Outcomes of a call *)
(* ===================================================================== *)

Inductive result (A : Type) : Type :=
| Done (a : A)          (* the call returned [a] *)
| Fault                 (* an access outside an array: undefined behaviour *)
| OutOfFuel.            (* the loop was still running when the fuel ran out *)

Arguments Done {A} a.
Arguments Fault {A}.
Arguments OutOfFuel {A}.

Definition bind {A B : Type} (r : result A) (k : A -> result B) : result B :=
  match r with
  | Done a => k a
  | Fault => Fault
  | OutOfFuel => OutOfFuel
  end.

Notation "x <- c ;; k" := (bind c (fun x => k))
  (at level 61, c at next level, right associativity).

(** [v[i]] on a vector or a fixed-size array. *)
Definition read {A : Type} (v : list A) (i : nat) : result A :=
  match nth_error v i with
  | Some a => Done a
  | None => Fault
  end.

(** [v[i]] where [i] is a signed [int]. *)
Definition readZ {A : Type} (v : list A) (i : Z) : result A :=
  if (i <? 0)%Z then Fault else read v (Z.to_nat i).

(* ===================================================================== *)
(** ** The configuration lookup table *)
(* ===================================================================== *)

Module TriTable.

(** A row of the table: the listed edges followed by the sentinel [-1] up to
    sixteen entries. *)
Definition row (l : list Z) : list Z := l ++ repeat (-1)%Z (16 - length l).

(** Modelled from the spec: [TriTable.hpp], which declares
    [marching_cubes_lut], is not among the sources.  The specification
    describes it as the fixed 256-entry table that maps a corner
    configuration to at most five triangles, each row a sequence of edge
    numbers in [0, 11] closed by the sentinel [-1].  The table below is the
    classic one for the edge numbering of [edgeConnections]; the theorems
    take the table as a parameter and use this one only for concrete
    runs. *)
Definition classic : list (list Z) :=
  [
   row []; row [0; 8; 3]; row [0; 1; 9]; row [1; 8; 3; 9; 8; 1];
   row [1; 2; 10]; row [0; 8; 3; 1; 2; 10]; row [9; 2; 10; 0; 2; 9];
   row [2; 8; 3; 2; 10; 8; 10; 9; 8]; row [3; 11; 2];
   row [0; 11; 2; 8; 11; 0]; row [1; 9; 0; 2; 3; 11];
   row [1; 11; 2; 1; 9; 11; 9; 8; 11]; row [3; 10; 1; 11; 10; 3];
   row [0; 10; 1; 0; 8; 10; 8; 11; 10]; row [3; 9; 0; 3; 11; 9; 11; 10; 9];
   row [9; 8; 10; 10; 8; 11]; row [4; 7; 8]; row [4; 3; 0; 7; 3; 4];
   row [0; 1; 9; 8; 4; 7]; row [4; 1; 9; 4; 7; 1; 7; 3; 1];
   row [1; 2; 10; 8; 4; 7]; row [3; 4; 7; 3; 0; 4; 1; 2; 10];
   row [9; 2; 10; 9; 0; 2; 8; 4; 7];
   row [2; 10; 9; 2; 9; 7; 2; 7; 3; 7; 9; 4]; row [8; 4; 7; 3; 11; 2];
   row [11; 4; 7; 11; 2; 4; 2; 0; 4]; row [9; 0; 1; 8; 4; 7; 2; 3; 11];
   row [4; 7; 11; 9; 4; 11; 9; 11; 2; 9; 2; 1];
   row [3; 10; 1; 3; 11; 10; 7; 8; 4];
   row [1; 11; 10; 1; 4; 11; 1; 0; 4; 7; 11; 4];
   row [4; 7; 8; 9; 0; 11; 9; 11; 10; 11; 0; 3];
   row [4; 7; 11; 4; 11; 9; 9; 11; 10]; row [9; 5; 4]; row [9; 5; 4; 0; 8; 3];
   row [0; 5; 4; 1; 5; 0]; row [8; 5; 4; 8; 3; 5; 3; 1; 5];
   row [1; 2; 10; 9; 5; 4]; row [3; 0; 8; 1; 2; 10; 4; 9; 5];
   row [5; 2; 10; 5; 4; 2; 4; 0; 2];
   row [2; 10; 5; 3; 2; 5; 3; 5; 4; 3; 4; 8]; row [9; 5; 4; 2; 3; 11];
   row [0; 11; 2; 0; 8; 11; 4; 9; 5]; row [0; 5; 4; 0; 1; 5; 2; 3; 11];
   row [2; 1; 5; 2; 5; 8; 2; 8; 11; 4; 8; 5];
   row [10; 3; 11; 10; 1; 3; 9; 5; 4];
   row [4; 9; 5; 0; 8; 1; 8; 10; 1; 8; 11; 10];
   row [5; 4; 0; 5; 0; 11; 5; 11; 10; 11; 0; 3];
   row [5; 4; 8; 5; 8; 10; 10; 8; 11]; row [9; 7; 8; 5; 7; 9];
   row [9; 3; 0; 9; 5; 3; 5; 7; 3]; row [0; 7; 8; 0; 1; 7; 1; 5; 7];
   row [1; 5; 3; 3; 5; 7]; row [9; 7; 8; 9; 5; 7; 10; 1; 2];
   row [10; 1; 2; 9; 5; 0; 5; 3; 0; 5; 7; 3];
   row [8; 0; 2; 8; 2; 5; 8; 5; 7; 10; 5; 2];
   row [2; 10; 5; 2; 5; 3; 3; 5; 7]; row [7; 9; 5; 7; 8; 9; 3; 11; 2];
   row [9; 5; 7; 9; 7; 2; 9; 2; 0; 2; 7; 11];
   row [2; 3; 11; 0; 1; 8; 1; 7; 8; 1; 5; 7];
   row [11; 2; 1; 11; 1; 7; 7; 1; 5];
   row [9; 5; 8; 8; 5; 7; 10; 1; 3; 10; 3; 11];
   row [5; 7; 0; 5; 0; 9; 7; 11; 0; 1; 0; 10; 11; 10; 0];
   row [11; 10; 0; 11; 0; 3; 10; 5; 0; 8; 0; 7; 5; 7; 0];
   row [11; 10; 5; 7; 11; 5]; row [10; 6; 5]; row [0; 8; 3; 5; 10; 6];
   row [9; 0; 1; 5; 10; 6]; row [1; 8; 3; 1; 9; 8; 5; 10; 6];
   row [1; 6; 5; 2; 6; 1]; row [1; 6; 5; 1; 2; 6; 3; 0; 8];
   row [9; 6; 5; 9; 0; 6; 0; 2; 6]; row [5; 9; 8; 5; 8; 2; 5; 2; 6; 3; 2; 8];
   row [2; 3; 11; 10; 6; 5]; row [11; 0; 8; 11; 2; 0; 10; 6; 5];
   row [0; 1; 9; 2; 3; 11; 5; 10; 6];
   row [5; 10; 6; 1; 9; 2; 9; 11; 2; 9; 8; 11];
   row [6; 3; 11; 6; 5; 3; 5; 1; 3];
   row [0; 8; 11; 0; 11; 5; 0; 5; 1; 5; 11; 6];
   row [3; 11; 6; 0; 3; 6; 0; 6; 5; 0; 5; 9];
   row [6; 5; 9; 6; 9; 11; 11; 9; 8]; row [5; 10; 6; 4; 7; 8];
   row [4; 3; 0; 4; 7; 3; 6; 5; 10]; row [1; 9; 0; 5; 10; 6; 8; 4; 7];
   row [10; 6; 5; 1; 9; 7; 1; 7; 3; 7; 9; 4]; row [6; 1; 2; 6; 5; 1; 4; 7; 8];
   row [1; 2; 5; 5; 2; 6; 3; 0; 4; 3; 4; 7];
   row [8; 4; 7; 9; 0; 5; 0; 6; 5; 0; 2; 6];
   row [7; 3; 9; 7; 9; 4; 3; 2; 9; 5; 9; 6; 2; 6; 9];
   row [3; 11; 2; 7; 8; 4; 10; 6; 5];
   row [5; 10; 6; 4; 7; 2; 4; 2; 0; 2; 7; 11];
   row [0; 1; 9; 4; 7; 8; 2; 3; 11; 5; 10; 6];
   row [9; 2; 1; 9; 11; 2; 9; 4; 11; 7; 11; 4; 5; 10; 6];
   row [8; 4; 7; 3; 11; 5; 3; 5; 1; 5; 11; 6];
   row [5; 1; 11; 5; 11; 6; 1; 0; 11; 7; 11; 4; 0; 4; 11];
   row [0; 5; 9; 0; 6; 5; 0; 3; 6; 11; 6; 3; 8; 4; 7];
   row [6; 5; 9; 6; 9; 11; 4; 7; 9; 7; 11; 9]; row [10; 4; 9; 6; 4; 10];
   row [4; 10; 6; 4; 9; 10; 0; 8; 3]; row [10; 0; 1; 10; 6; 0; 6; 4; 0];
   row [8; 3; 1; 8; 1; 6; 8; 6; 4; 6; 1; 10]; row [1; 4; 9; 1; 2; 4; 2; 6; 4];
   row [3; 0; 8; 1; 2; 9; 2; 4; 9; 2; 6; 4]; row [0; 2; 4; 4; 2; 6];
   row [8; 3; 2; 8; 2; 4; 4; 2; 6]; row [10; 4; 9; 10; 6; 4; 11; 2; 3];
   row [0; 8; 2; 2; 8; 11; 4; 9; 10; 4; 10; 6];
   row [3; 11; 2; 0; 1; 6; 0; 6; 4; 6; 1; 10];
   row [6; 4; 1; 6; 1; 10; 4; 8; 1; 2; 1; 11; 8; 11; 1];
   row [9; 6; 4; 9; 3; 6; 9; 1; 3; 11; 6; 3];
   row [8; 11; 1; 8; 1; 0; 11; 6; 1; 9; 1; 4; 6; 4; 1];
   row [3; 11; 6; 3; 6; 0; 0; 6; 4]; row [6; 4; 8; 11; 6; 8];
   row [7; 10; 6; 7; 8; 10; 8; 9; 10];
   row [0; 7; 3; 0; 10; 7; 0; 9; 10; 6; 7; 10];
   row [10; 6; 7; 1; 10; 7; 1; 7; 8; 1; 8; 0];
   row [10; 6; 7; 10; 7; 1; 1; 7; 3];
   row [1; 2; 6; 1; 6; 8; 1; 8; 9; 8; 6; 7];
   row [2; 6; 9; 2; 9; 1; 6; 7; 9; 0; 9; 3; 7; 3; 9];
   row [7; 8; 0; 7; 0; 6; 6; 0; 2]; row [7; 3; 2; 6; 7; 2];
   row [2; 3; 11; 10; 6; 8; 10; 8; 9; 8; 6; 7];
   row [2; 0; 7; 2; 7; 11; 0; 9; 7; 6; 7; 10; 9; 10; 7];
   row [1; 8; 0; 1; 7; 8; 1; 10; 7; 6; 7; 10; 2; 3; 11];
   row [11; 2; 1; 11; 1; 7; 10; 6; 1; 6; 7; 1];
   row [8; 9; 6; 8; 6; 7; 9; 1; 6; 11; 6; 3; 1; 3; 6];
   row [0; 9; 1; 11; 6; 7]; row [7; 8; 0; 7; 0; 6; 3; 11; 0; 11; 6; 0];
   row [7; 11; 6]; row [7; 6; 11]; row [3; 0; 8; 11; 7; 6];
   row [0; 1; 9; 11; 7; 6]; row [8; 1; 9; 8; 3; 1; 11; 7; 6];
   row [10; 1; 2; 6; 11; 7]; row [1; 2; 10; 3; 0; 8; 6; 11; 7];
   row [2; 9; 0; 2; 10; 9; 6; 11; 7];
   row [6; 11; 7; 2; 10; 3; 10; 8; 3; 10; 9; 8]; row [7; 2; 3; 6; 2; 7];
   row [7; 0; 8; 7; 6; 0; 6; 2; 0]; row [2; 7; 6; 2; 3; 7; 0; 1; 9];
   row [1; 6; 2; 1; 8; 6; 1; 9; 8; 8; 7; 6];
   row [10; 7; 6; 10; 1; 7; 1; 3; 7];
   row [10; 7; 6; 1; 7; 10; 1; 8; 7; 1; 0; 8];
   row [0; 3; 7; 0; 7; 10; 0; 10; 9; 6; 10; 7];
   row [7; 6; 10; 7; 10; 8; 8; 10; 9]; row [6; 8; 4; 11; 8; 6];
   row [3; 6; 11; 3; 0; 6; 0; 4; 6]; row [8; 6; 11; 8; 4; 6; 9; 0; 1];
   row [9; 4; 6; 9; 6; 3; 9; 3; 1; 11; 3; 6];
   row [6; 8; 4; 6; 11; 8; 2; 10; 1];
   row [1; 2; 10; 3; 0; 11; 0; 6; 11; 0; 4; 6];
   row [4; 11; 8; 4; 6; 11; 0; 2; 9; 2; 10; 9];
   row [10; 9; 3; 10; 3; 2; 9; 4; 3; 11; 3; 6; 4; 6; 3];
   row [8; 2; 3; 8; 4; 2; 4; 6; 2]; row [0; 4; 2; 4; 6; 2];
   row [1; 9; 0; 2; 3; 4; 2; 4; 6; 4; 3; 8]; row [1; 9; 4; 1; 4; 2; 2; 4; 6];
   row [8; 1; 3; 8; 6; 1; 8; 4; 6; 6; 10; 1];
   row [10; 1; 0; 10; 0; 6; 6; 0; 4];
   row [4; 6; 3; 4; 3; 8; 6; 10; 3; 0; 3; 9; 10; 9; 3];
   row [10; 9; 4; 6; 10; 4]; row [4; 9; 5; 7; 6; 11];
   row [0; 8; 3; 4; 9; 5; 11; 7; 6]; row [5; 0; 1; 5; 4; 0; 7; 6; 11];
   row [11; 7; 6; 8; 3; 4; 3; 5; 4; 3; 1; 5];
   row [9; 5; 4; 10; 1; 2; 7; 6; 11];
   row [6; 11; 7; 1; 2; 10; 0; 8; 3; 4; 9; 5];
   row [7; 6; 11; 5; 4; 10; 4; 2; 10; 4; 0; 2];
   row [3; 4; 8; 3; 5; 4; 3; 2; 5; 10; 5; 2; 11; 7; 6];
   row [7; 2; 3; 7; 6; 2; 5; 4; 9]; row [9; 5; 4; 0; 8; 6; 0; 6; 2; 6; 8; 7];
   row [3; 6; 2; 3; 7; 6; 1; 5; 0; 5; 4; 0];
   row [6; 2; 8; 6; 8; 7; 2; 1; 8; 4; 8; 5; 1; 5; 8];
   row [9; 5; 4; 10; 1; 6; 1; 7; 6; 1; 3; 7];
   row [1; 6; 10; 1; 7; 6; 1; 0; 7; 8; 7; 0; 9; 5; 4];
   row [4; 0; 10; 4; 10; 5; 0; 3; 10; 6; 10; 7; 3; 7; 10];
   row [7; 6; 10; 7; 10; 8; 5; 4; 10; 4; 8; 10];
   row [6; 9; 5; 6; 11; 9; 11; 8; 9];
   row [3; 6; 11; 0; 6; 3; 0; 5; 6; 0; 9; 5];
   row [0; 11; 8; 0; 5; 11; 0; 1; 5; 5; 6; 11];
   row [6; 11; 3; 6; 3; 5; 5; 3; 1];
   row [1; 2; 10; 9; 5; 11; 9; 11; 8; 11; 5; 6];
   row [0; 11; 3; 0; 6; 11; 0; 9; 6; 5; 6; 9; 1; 2; 10];
   row [11; 8; 5; 11; 5; 6; 8; 0; 5; 10; 5; 2; 0; 2; 5];
   row [6; 11; 3; 6; 3; 5; 2; 10; 3; 10; 5; 3];
   row [5; 8; 9; 5; 2; 8; 5; 6; 2; 3; 8; 2]; row [9; 5; 6; 9; 6; 0; 0; 6; 2];
   row [1; 5; 8; 1; 8; 0; 5; 6; 8; 3; 8; 2; 6; 2; 8]; row [1; 5; 6; 2; 1; 6];
   row [1; 3; 6; 1; 6; 10; 3; 8; 6; 5; 6; 9; 8; 9; 6];
   row [10; 1; 0; 10; 0; 6; 9; 5; 0; 5; 6; 0]; row [0; 3; 8; 5; 6; 10];
   row [10; 5; 6]; row [11; 5; 10; 7; 5; 11];
   row [11; 5; 10; 11; 7; 5; 8; 3; 0]; row [5; 11; 7; 5; 10; 11; 1; 9; 0];
   row [10; 7; 5; 10; 11; 7; 9; 8; 1; 8; 3; 1];
   row [11; 1; 2; 11; 7; 1; 7; 5; 1];
   row [0; 8; 3; 1; 2; 7; 1; 7; 5; 7; 2; 11];
   row [9; 7; 5; 9; 2; 7; 9; 0; 2; 2; 11; 7];
   row [7; 5; 2; 7; 2; 11; 5; 9; 2; 3; 2; 8; 9; 8; 2];
   row [2; 5; 10; 2; 3; 5; 3; 7; 5];
   row [8; 2; 0; 8; 5; 2; 8; 7; 5; 10; 2; 5];
   row [9; 0; 1; 5; 10; 3; 5; 3; 7; 3; 10; 2];
   row [9; 8; 2; 9; 2; 1; 8; 7; 2; 10; 2; 5; 7; 5; 2]; row [1; 3; 5; 3; 7; 5];
   row [0; 8; 7; 0; 7; 1; 1; 7; 5]; row [9; 0; 3; 9; 3; 5; 5; 3; 7];
   row [9; 8; 7; 5; 9; 7]; row [5; 8; 4; 5; 10; 8; 10; 11; 8];
   row [5; 0; 4; 5; 11; 0; 5; 10; 11; 11; 3; 0];
   row [0; 1; 9; 8; 4; 10; 8; 10; 11; 10; 4; 5];
   row [10; 11; 4; 10; 4; 5; 11; 3; 4; 9; 4; 1; 3; 1; 4];
   row [2; 5; 1; 2; 8; 5; 2; 11; 8; 4; 5; 8];
   row [0; 4; 11; 0; 11; 3; 4; 5; 11; 2; 11; 1; 5; 1; 11];
   row [0; 2; 5; 0; 5; 9; 2; 11; 5; 4; 5; 8; 11; 8; 5];
   row [9; 4; 5; 2; 11; 3]; row [2; 5; 10; 3; 5; 2; 3; 4; 5; 3; 8; 4];
   row [5; 10; 2; 5; 2; 4; 4; 2; 0];
   row [3; 10; 2; 3; 5; 10; 3; 8; 5; 4; 5; 8; 0; 1; 9];
   row [5; 10; 2; 5; 2; 4; 1; 9; 2; 9; 4; 2]; row [8; 4; 5; 8; 5; 3; 3; 5; 1];
   row [0; 4; 5; 1; 0; 5]; row [8; 4; 5; 8; 5; 3; 9; 0; 5; 0; 3; 5];
   row [9; 4; 5]; row [4; 11; 7; 4; 9; 11; 9; 10; 11];
   row [0; 8; 3; 4; 9; 7; 9; 11; 7; 9; 10; 11];
   row [1; 10; 11; 1; 11; 4; 1; 4; 0; 7; 4; 11];
   row [3; 1; 4; 3; 4; 8; 1; 10; 4; 7; 4; 11; 10; 11; 4];
   row [4; 11; 7; 9; 11; 4; 9; 2; 11; 9; 1; 2];
   row [9; 7; 4; 9; 11; 7; 9; 1; 11; 2; 11; 1; 0; 8; 3];
   row [11; 7; 4; 11; 4; 2; 2; 4; 0];
   row [11; 7; 4; 11; 4; 2; 8; 3; 4; 3; 2; 4];
   row [2; 9; 10; 2; 7; 9; 2; 3; 7; 7; 4; 9];
   row [9; 10; 7; 9; 7; 4; 10; 2; 7; 8; 7; 0; 2; 0; 7];
   row [3; 7; 10; 3; 10; 2; 7; 4; 10; 1; 10; 0; 4; 0; 10];
   row [1; 10; 2; 8; 7; 4]; row [4; 9; 1; 4; 1; 7; 7; 1; 3];
   row [4; 9; 1; 4; 1; 7; 0; 8; 1; 8; 7; 1]; row [4; 0; 3; 7; 4; 3];
   row [4; 8; 7]; row [9; 10; 8; 10; 11; 8];
   row [3; 0; 9; 3; 9; 11; 11; 9; 10]; row [0; 1; 10; 0; 10; 8; 8; 10; 11];
   row [3; 1; 10; 11; 3; 10]; row [1; 2; 11; 1; 11; 9; 9; 11; 8];
   row [3; 0; 9; 3; 9; 11; 1; 2; 9; 2; 11; 9]; row [0; 2; 11; 8; 0; 11];
   row [3; 2; 11]; row [2; 3; 8; 2; 8; 10; 10; 8; 9]; row [9; 10; 2; 0; 9; 2];
   row [2; 3; 8; 2; 8; 10; 0; 1; 8; 1; 10; 8]; row [1; 10; 2];
   row [1; 3; 8; 9; 1; 8]; row [0; 9; 1]; row [0; 3; 8]; row []
  ]%Z.

(** Row [i] is well formed: it is read in groups of three edge numbers, all
    below twelve, until a sentinel is met inside the row. *)
Fixpoint row_ok (r : list Z) : bool :=
  match r with
  | [] => false
  | e0 :: r' =>
      if (e0 =? -1)%Z then true
      else
        match r' with
        | e1 :: e2 :: r'' =>
            (0 <=? e0)%Z && (e0 <? 12)%Z && (0 <=? e1)%Z && (e1 <? 12)%Z
            && (0 <=? e2)%Z && (e2 <? 12)%Z && row_ok r''
        | _ => false
        end
  end.

(** What the specification asks of a table: 256 well-formed rows. *)
Definition well_formed (lut : list (list Z)) : bool :=
  (length lut =? 256)%nat && forallb row_ok lut.

(** A row that starts with the sentinel holds no triangle. *)
Definition row_empty (lut : list (list Z)) (i : nat) : bool :=
  match nth_error lut i with
  | Some (e0 :: _) => (e0 =? -1)%Z
  | _ => false
  end.

End TriTable.

(* ===================================================================== *)
(** ** Mesh generation *)
(* ===================================================================== *)

(** [interpolateVertex]: the point of the edge [p1 -> p2] where the field,
    taken linear along the edge, meets the isovalue. *)
Definition interpolateVertex (p1 p2 : vec3) (valp1 valp2 isovalue : float)
  : vec3 :=
  let t := ((isovalue - valp1) / (valp2 - valp1))%f32 in
  Glm.vadd p1 (Glm.scalev t (Glm.vsub p2 p1)).

(** Cube corner offsets. *)
Definition cubeVerts : list vec3 :=
  [ Glm.of_Z3 0 0 0; Glm.of_Z3 1 0 0; Glm.of_Z3 1 0 1; Glm.of_Z3 0 0 1;
    Glm.of_Z3 0 1 0; Glm.of_Z3 1 1 0; Glm.of_Z3 1 1 1; Glm.of_Z3 0 1 1 ].

(** Edge vertex pairs. *)
Definition edgeConnections : list (nat * nat) :=
  [ (0, 1); (1, 2); (2, 3); (3, 0);
    (4, 5); (5, 6); (6, 7); (7, 4);
    (0, 4); (1, 5); (2, 6); (3, 7) ]%nat.

(** The scalar field handed to [marching_cubes]. *)
Definition field : Type := float -> float -> float -> float.

(** Reading the local arrays [pos], [val]: their eight slots are all written
    before they are read, and the indices are the constants of the tables
    above. *)
Definition at_pos (pos : list vec3) (i : nat) : vec3 :=
  nth i pos (Glm.mkvec3 F32.nan F32.nan F32.nan).
Definition at_val (val : list float) (i : nat) : float := nth i val F32.nan.

(** [pos[i] = cubePos + cubeVerts[i] * stepsize] for the eight corners. *)
Definition corner_positions (cubePos : vec3) (stepsize : float) : list vec3 :=
  map (fun c => Glm.vadd cubePos (Glm.vscale c stepsize)) cubeVerts.

(** [val[i] = f(pos[i].x, pos[i].y, pos[i].z)]. *)
Definition corner_values (f : field) (pos : list vec3) : list float :=
  map (fun p => f (Glm.x p) (Glm.y p) (Glm.z p)) pos.

(** [if (val[i] < isovalue) cubeIndex |= (1 << i)]. *)
Definition set_corner_bit (val : list float) (isovalue : float)
  (cubeIndex : Z) (i : nat) : Z :=
  if (at_val val i <? isovalue)%f32
  then Z.lor cubeIndex (Z.shiftl 1 (Z.of_nat i))
  else cubeIndex.

(** The loop [for (int i = 0; i < 8; ++i)] over the corners, from
    [cubeIndex = 0]. *)
Definition cube_index (val : list float) (isovalue : float) : Z :=
  fold_left (set_corner_bit val isovalue) (seq 0 8) 0%Z.

(** [edgeVertex[i]] for the twelve edges. *)
Definition edge_vertices (pos : list vec3) (val : list float)
  (isovalue : float) : list vec3 :=
  map (fun e : nat * nat =>
         let (v0, v1) := e in
         interpolateVertex (at_pos pos v0) (at_pos pos v1)
                           (at_val val v0) (at_val val v1) isovalue)
      edgeConnections.

(** [push_back] of the three components of a vertex. *)
Definition push_vec3 (vertices : list float) (v : vec3) : list float :=
  vertices ++ [Glm.x v; Glm.y v; Glm.z v].

(** The body of the triangle loop: the three vertices
    [edgeVertex[triEdges[i + j]]], [j < 3]. *)
Definition push_triangle (triEdges : list Z) (edgeVertex : list vec3)
  (i : nat) (vertices : list float) : result (list float) :=
  e0 <- read triEdges i ;;
  v0 <- readZ edgeVertex e0 ;;
  e1 <- read triEdges (i + 1) ;;
  v1 <- readZ edgeVertex e1 ;;
  e2 <- read triEdges (i + 2) ;;
  v2 <- readZ edgeVertex e2 ;;
  Done (push_vec3 (push_vec3 (push_vec3 vertices v0) v1) v2).

(** [for (int i = 0; triEdges[i] != -1; i += 3)]. *)
Fixpoint build_triangles (fuel : nat) (triEdges : list Z)
  (edgeVertex : list vec3) (i : nat) (vertices : list float)
  : result (list float) :=
  match fuel with
  | O => OutOfFuel
  | S fuel' =>
      e <- read triEdges i ;;
      if (e =? -1)%Z then Done vertices
      else
        vertices' <- push_triangle triEdges edgeVertex i vertices ;;
        build_triangles fuel' triEdges edgeVertex (i + 3) vertices'
  end.

(** [for (float v = start; v < max; v += stepsize) body], threading the
    vertex vector through the iterations. *)
Fixpoint for_float (fuel : nat) (max stepsize : float)
  (body : float -> list float -> result (list float))
  (v : float) (vertices : list float) : result (list float) :=
  match fuel with
  | O => OutOfFuel
  | S fuel' =>
      if (v <? max)%f32 then
        vertices' <- body v vertices ;;
        for_float fuel' max stepsize body (v + stepsize)%f32 vertices'
      else Done vertices
  end.

Section MarchingCubes.

(** [TriTable.hpp] is not among the sources: the table is a parameter. *)
Variable marching_cubes_lut : list (list Z).

(** The body of the innermost loop: one cube cell at origin [(x, y, z)]. *)
Definition process_cell (f : field) (isovalue stepsize x y z : float)
  (vertices : list float) : result (list float) :=
  let cubePos := Glm.mkvec3 x y z in
  let pos := corner_positions cubePos stepsize in
  let val := corner_values f pos in
  let cubeIndex := cube_index val isovalue in
  triEdges <- readZ marching_cubes_lut cubeIndex ;;
  e <- read triEdges 0 ;;
  if (e =? -1)%Z then Done vertices
  else
    let edgeVertex := edge_vertices pos val isovalue in
    build_triangles (S (length triEdges)) triEdges edgeVertex 0 vertices.

Definition marching_cubes (fuel : nat) (f : field)
  (isovalue min max stepsize : float) : result (list float) :=
  for_float fuel max stepsize
    (fun x vertices =>
       for_float fuel max stepsize
         (fun y vertices =>
            for_float fuel max stepsize
              (fun z vertices =>
                 process_cell f isovalue stepsize x y z vertices)
              min vertices)
         min vertices)
    min [].

End MarchingCubes.

(* ===================================================================== *)
(** ** Flat normals *)
(* ===================================================================== *)

(** Nine consecutive reads [vertices[i] .. vertices[i+8]]. *)
Definition read_triangle (vertices : list float) (i : nat)
  : result (vec3 * vec3 * vec3) :=
  a0 <- read vertices i ;;
  a1 <- read vertices (i + 1) ;;
  a2 <- read vertices (i + 2) ;;
  b0 <- read vertices (i + 3) ;;
  b1 <- read vertices (i + 4) ;;
  b2 <- read vertices (i + 5) ;;
  c0 <- read vertices (i + 6) ;;
  c1 <- read vertices (i + 7) ;;
  c2 <- read vertices (i + 8) ;;
  Done (Glm.mkvec3 a0 a1 a2, Glm.mkvec3 b0 b1 b2, Glm.mkvec3 c0 c1 c2).

Definition triangle_normal (v0 v1 v2 : vec3) : vec3 :=
  Glm.normalize (Glm.cross (Glm.vsub v1 v0) (Glm.vsub v2 v0)).

(** [for (size_t i = 0; i < vertices.size(); i += 9)]. *)
Fixpoint normals_loop (fuel : nat) (vertices : list float) (i : nat)
  (normals : list float) : result (list float) :=
  match fuel with
  | O => OutOfFuel
  | S fuel' =>
      if (i <? length vertices)%nat then
        t <- read_triangle vertices i ;;
        let '(v0, v1, v2) := t in
        let normal := triangle_normal v0 v1 v2 in
        normals_loop fuel' vertices (i + 9)
          (push_vec3 (push_vec3 (push_vec3 normals normal) normal) normal)
      else Done normals
  end.

(** The index grows by nine on each turn, so [length vertices + 1] turns are
    more than the loop can take. *)
Definition compute_normals (vertices : list float) : result (list float) :=
  normals_loop (S (length vertices)) vertices 0 [].

(* ===================================================================== *)
(** ** PLY export *)
(* ===================================================================== *)

Module Ply.

Local Open Scope string_scope.

Definition newline : ascii := ascii_of_nat 10.
Definition nl : string := String newline EmptyString.

(** How a [size_t] is printed by [operator<<]: decimal, no padding. *)
Definition show_size_t (n : nat) : string :=
  NilEmpty.string_of_uint (Nat.to_uint n).

(** An element access of [write_ply]. *)
Inductive access : Type :=
| ReadVertices (i : nat)
| ReadNormals (i : nat).

(** What [write_ply] can observe and change: which paths can be opened for
    writing, the contents of the files, the two standard streams, and (for
    the safety claims) the element accesses made so far.  [disk] is keyed
    by the path a file is opened under: the model does not say which
    paths name the same file, and is used for the one file [write_ply]
    opens. *)
Record World : Type := mkWorld {
  openable : string -> bool;
  disk : string -> option string;
  cerr : string;
  cout : string;
  reads : list access
}.

Definition IO (A : Type) : Type := World -> result A * World.

Definition ret {A : Type} (a : A) : IO A := fun w => (Done a, w).

Definition iobind {A B : Type} (c : IO A) (k : A -> IO B) : IO B :=
  fun w =>
    match c w with
    | (Done a, w') => k a w'
    | (Fault, w') => (Fault, w')
    | (OutOfFuel, w') => (OutOfFuel, w')
    end.

Notation "x <~ c ;; k" := (iobind c (fun x => k))
  (at level 61, c at next level, right associativity).
Notation "c ;;; k" := (iobind c (fun _ => k))
  (at level 61, right associativity).

Definition set_file (w : World) (name : string) (content : string) : World :=
  mkWorld (openable w)
          (fun n => if (n =? name)%string then Some content else disk w n)
          (cerr w) (cout w) (reads w).

(** [std::ofstream file(filename); file.is_open()]: when the path can be
    opened the file is created or truncated. *)
Definition ofstream_open (name : string) : IO bool :=
  fun w =>
    if openable w name then (Done true, set_file w name "")
    else (Done false, w).

Definition file_content (w : World) (name : string) : string :=
  match disk w name with Some c => c | None => "" end.

(** [file << s] on an open stream.  The stream's buffer is not modelled:
    the text is put in the file at once, which is the content [close]
    leaves there on a run that returns.  Where a run stops at an access
    out of bounds the language defines nothing about the file, and the
    disk of such a run carries no information. *)
Definition file_put (name : string) (s : string) : IO unit :=
  fun w => (Done tt, set_file w name (file_content w name ++ s)).

(** [file.close()]: what was written stays. *)
Definition ofstream_close (name : string) : IO unit := ret tt.

Definition cerr_put (s : string) : IO unit :=
  fun w => (Done tt,
            mkWorld (openable w) (disk w) (cerr w ++ s) (cout w) (reads w)).

Definition cout_put (s : string) : IO unit :=
  fun w => (Done tt,
            mkWorld (openable w) (disk w) (cerr w) (cout w ++ s) (reads w)).

Definition log (a : access) (w : World) : World :=
  mkWorld (openable w) (disk w) (cerr w) (cout w) (reads w ++ [a]).

(** [vertices[i]] and [normals[i]], recorded in the world. *)
Definition read_vertices (vertices : list float) (i : nat) : IO float :=
  fun w => (read vertices i, log (ReadVertices i) w).

Definition read_normals (normals : list float) (i : nat) : IO float :=
  fun w => (read normals i, log (ReadNormals i) w).

(** [for (size_t i = 0; i < n; ++i) body(i)]. *)
Fixpoint for_count (n : nat) (i : nat) (body : nat -> IO unit) : IO unit :=
  match n with
  | O => ret tt
  | S n' => body i ;;; for_count n' (S i) body
  end.

Section WritePly.

(** The text [operator<<] prints for a [float] belongs to the C++
    library, not to this program. *)
Variable show_float : float -> string.

Definition header (numVertices : nat) : string :=
  "ply" ++ nl ++
  "format ascii 1.0" ++ nl ++
  "element vertex " ++ show_size_t numVertices ++ nl ++
  "property float x" ++ nl ++
  "property float y" ++ nl ++
  "property float z" ++ nl ++
  "property float nx" ++ nl ++
  "property float ny" ++ nl ++
  "property float nz" ++ nl ++
  "end_header" ++ nl.

(** One turn of the data loop. *)
Definition write_vertex (vertices normals : list float)
  (filename : string) (i : nat) : IO unit :=
  x <~ read_vertices vertices (i * 3) ;;
  file_put filename (show_float x) ;;; file_put filename " " ;;;
  y <~ read_vertices vertices (i * 3 + 1) ;;
  file_put filename (show_float y) ;;; file_put filename " " ;;;
  z <~ read_vertices vertices (i * 3 + 2) ;;
  file_put filename (show_float z) ;;; file_put filename " " ;;;
  nx <~ read_normals normals (i * 3) ;;
  file_put filename (show_float nx) ;;; file_put filename " " ;;;
  ny <~ read_normals normals (i * 3 + 1) ;;
  file_put filename (show_float ny) ;;; file_put filename " " ;;;
  nz <~ read_normals normals (i * 3 + 2) ;;
  file_put filename (show_float nz) ;;; file_put filename nl.

Definition write_ply (vertices normals : list float) (filename : string)
  : IO unit :=
  is_open <~ ofstream_open filename ;;
  if negb is_open then
    cerr_put ("Failed to open file: " ++ filename ++ nl)
  else
    let numVertices := (length vertices / 3)%nat in
    file_put filename ("ply" ++ nl) ;;;
    file_put filename ("format ascii 1.0" ++ nl) ;;;
    file_put filename "element vertex " ;;;
    file_put filename (show_size_t numVertices) ;;;
    file_put filename nl ;;;
    file_put filename ("property float x" ++ nl) ;;;
    file_put filename ("property float y" ++ nl) ;;;
    file_put filename ("property float z" ++ nl) ;;;
    file_put filename ("property float nx" ++ nl) ;;;
    file_put filename ("property float ny" ++ nl) ;;;
    file_put filename ("property float nz" ++ nl) ;;;
    file_put filename ("end_header" ++ nl) ;;;
    for_count numVertices 0 (write_vertex vertices normals filename) ;;;
    ofstream_close filename ;;;
    cout_put ("Wrote " ++ filename ++ " with "
              ++ show_size_t numVertices ++ " vertices." ++ nl).

End WritePly.

(** *** Reading a header back *)

Fixpoint split_lines (s : string) : list string :=
  match s with
  | EmptyString => [EmptyString]
  | String c s' =>
      if Ascii.eqb c newline then EmptyString :: split_lines s'
      else
        match split_lines s' with
        | l :: ls => String c l :: ls
        | [] => [String c EmptyString]
        end
  end.

Fixpoint strip_prefix (p s : string) : option string :=
  match p with
  | EmptyString => Some s
  | String a p' =>
      match s with
      | String b s' => if Ascii.eqb a b then strip_prefix p' s' else None
      | EmptyString => None
      end
  end.

Fixpoint no_newline (s : string) : bool :=
  match s with
  | EmptyString => true
  | String c s' => negb (Ascii.eqb c newline) && no_newline s'
  end.

(** The count of the first [element vertex] line before [end_header]. *)
Fixpoint header_vertex_count (ls : list string) : option nat :=
  match ls with
  | [] => None
  | l :: ls' =>
      if (l =? "end_header")%string then None
      else
        match strip_prefix "element vertex " l with
        | Some d => option_map Nat.of_uint (NilEmpty.uint_of_string d)
        | None => header_vertex_count ls'
        end
  end.

(** A reader of PLY headers, as a consumer of the exported file would
    apply it: the magic line, then the element declaration. *)
Definition parse_vertex_count (content : string) : option nat :=
  match split_lines content with
  | l :: ls => if (l =? "ply")%string then header_vertex_count ls else None
  | [] => None
  end.

End Ply.

(* ===================================================================== *)
(** ** The orbiting camera ([MarchingCube/Camera.cpp]) *)
(* ===================================================================== *)

(** C++ [double] is binary64; the input callbacks receive cursor positions
    and scroll offsets as doubles and narrow them to [float]. *)
Module F64.

Definition prec : Z := 53.
Definition emax : Z := 1024.

Definition double : Type := spec_float.

Definition is_double (x : double) : Prop := valid_binary prec emax x = true.

Definition sub (x y : double) : double := SFsub prec emax x y.
Definition ltb (x y : double) : bool := SFltb x y.

Definition of_Z (z : Z) : double := binary_normalize prec emax z 0 false.

Definition is_finite (x : double) : bool :=
  match x with
  | S754_zero _ | S754_finite _ _ _ => true
  | S754_infinity _ | S754_nan => false
  end.

(** The conversion [(float)x]: rounding to the nearest binary32 value (a
    double beyond the range of [float] becomes an infinity, as IEC 60559
    arithmetic has it). *)
Definition to_float (x : double) : float :=
  match x with
  | S754_finite s m e =>
      binary_normalize F32.prec F32.emax (cond_Zopp s (Zpos m)) e s
  | _ => x
  end.

End F64.

Abbreviation double := F64.double.

Module Camera.

(** The literal [0.1f] (bits [3DCCCCCD]). *)
Definition tenth : float := Eval cbv in F32.of_scaled 13421773 (-27).

(** [glm::pi<float>()] (bits [40490FDB]). *)
Definition pi : float := Eval cbv in F32.of_scaled 13176795 (-22).

(** The factor of [glm::radians]: pi / 180 as a float (bits [3C8EFA35]). *)
Definition deg_to_rad : float := Eval cbv in F32.of_scaled 9370165 (-29).

(** [glm::radians(degrees)]. *)
Definition radians (degrees : float) : float := (degrees * deg_to_rad)%f32.

Record t : Type := mk {
  r : float;                 (* distance from the origin *)
  theta : float;             (* azimuth, radians *)
  phi : float;               (* elevation, radians *)
  mouseSensitivity : float;
  scrollSensitivity : float
}.

(** The constructor. *)
Definition make (initR initTheta initPhi : float) : t :=
  mk initR initTheta initPhi tenth tenth.

(** The constructor with its default arguments: [5.0f] and twice
    [glm::radians(45.0f)]. *)
Definition default : t :=
  make (F32.of_Z 5) (radians (F32.of_Z 45)) (radians (F32.of_Z 45)).

(** The bounds of the pitch: [minPhi] and [maxPhi]. *)
Definition minPhi : float := tenth.
Definition maxPhi : float := (pi - tenth)%f32.

Definition processMouseMovement (c : t) (xoffset yoffset : float)
  (constrainPitch : bool) : t :=
  let theta' := (theta c + radians (xoffset * mouseSensitivity c))%f32 in
  let phi' := (phi c + radians (yoffset * mouseSensitivity c))%f32 in
  let phi'' :=
    if constrainPitch then
      let phi1 := if (phi' <? minPhi)%f32 then minPhi else phi' in
      (* [phi > maxPhi] *)
      if (maxPhi <? phi1)%f32 then maxPhi else phi1
    else phi' in
  mk (r c) theta' phi'' (mouseSensitivity c) (scrollSensitivity c).

Definition processMouseScroll (c : t) (yoffset : float) : t :=
  let r' := (r c - yoffset * scrollSensitivity c)%f32 in
  let r'' := if (r' <? F32.one)%f32 then F32.one else r' in
  mk r'' (theta c) (phi c) (mouseSensitivity c) (scrollSensitivity c).

End Camera.

(** The input handling of [MarchingCube/main.cpp]: the global camera and
    mouse state, and the three GLFW callbacks that change them. *)
Module Input.

(** [GLFW_MOUSE_BUTTON_LEFT] and [GLFW_PRESS], as [glfw3.h] defines them. *)
Definition GLFW_MOUSE_BUTTON_LEFT : Z := 0.
Definition GLFW_PRESS : Z := 1.

Record state : Type := mk {
  camera : Camera.t;
  mousePressed : bool;
  lastX : double;
  lastY : double;
  firstMouse : bool
}.

(** The globals as they are initialised. *)
Definition initial : state :=
  mk Camera.default false (F64.of_Z 0) (F64.of_Z 0) true.

Definition mouse_button_callback (s : state) (button action mods : Z)
  : state :=
  if (button =? GLFW_MOUSE_BUTTON_LEFT)%Z then
    let pressed := (action =? GLFW_PRESS)%Z in
    mk (camera s) pressed (lastX s) (lastY s)
       (if pressed then true else firstMouse s)
  else s.

Definition cursor_position_callback (s : state) (xpos ypos : double)
  : state :=
  if negb (mousePressed s) then s
  else
    let lastX1 := if firstMouse s then xpos else lastX s in
    let lastY1 := if firstMouse s then ypos else lastY s in
    let xoffset := F64.to_float (F64.sub xpos lastX1) in
    let yoffset := F64.to_float (F64.sub ypos lastY1) in
    mk (Camera.processMouseMovement (camera s) xoffset yoffset true)
       (mousePressed s) xpos ypos false.

Definition scroll_callback (s : state) (xoffset yoffset : double) : state :=
  mk (Camera.processMouseScroll (camera s) (F64.to_float yoffset))
     (mousePressed s) (lastX s) (lastY s) (firstMouse s).

(** What GLFW may deliver. *)
Inductive event : Type :=
| MouseButton (button action mods : Z)
| CursorPosition (xpos ypos : double)
| Scroll (xoffset yoffset : double).

Definition handle (s : state) (e : event) : state :=
  match e with
  | MouseButton button action mods => mouse_button_callback s button action mods
  | CursorPosition xpos ypos => cursor_position_callback s xpos ypos
  | Scroll xoffset yoffset => scroll_callback s xoffset yoffset
  end.

(** The state after a sequence of events. *)
Definition run (s : state) (events : list event) : state :=
  fold_left handle events s.

(** The camera is within its limits: the radius is not below one, the pitch
    is not outside [minPhi .. maxPhi] and the sensitivities are those of
    the constructor. *)
Definition within_limits (c : Camera.t) : Prop :=
  (Camera.r c <? F32.one)%f32 = false
  /\ (Camera.phi c <? Camera.minPhi)%f32 = false
  /\ (Camera.maxPhi <? Camera.phi c)%f32 = false
  /\ Camera.mouseSensitivity c = Camera.tenth
  /\ Camera.scrollSensitivity c = Camera.tenth.

End Input.

(* ===================================================================== *)
(** ** The globe camera ([Water/camera.cpp]) *)
(* ===================================================================== *)

Module Globe.

(** [GLFW_RELEASE], as [glfw3.h] defines it. *)
Definition GLFW_RELEASE : Z := 0.

(** The literals [0.005f] (bits [3BA3D70A]) and [179.9f] (bits [4333E666]). *)
Definition sensitivity0 : float := Eval cbv in F32.of_scaled 10737418 (-31).
Definition deg179_9 : float := Eval cbv in F32.of_scaled 11789926 (-16).

(** [std::clamp(v, lo, hi)]. *)
Definition clamp (v lo hi : float) : float :=
  if (v <? lo)%f32 then lo else if (hi <? v)%f32 then hi else v.

(** The bounds the pitch is clamped to. *)
Definition minPhi : float := Camera.tenth.
Definition maxPhi : float := Camera.radians deg179_9.

(** The file's static variables. *)
Record state : Type := mk {
  theta : float;
  phi : float;
  sensitivity : float;
  lastX : double;
  lastY : double;
  rotating : bool
}.

Definition initial : state :=
  mk (Camera.radians (F32.of_Z 90)) (Camera.radians (F32.of_Z 45))
     sensitivity0 (F64.of_Z (-1)) (F64.of_Z (-1)) false.

Definition mouse_callback (s : state) (xpos ypos : double) : state :=
  if negb (rotating s) then s
  else if F64.ltb (lastX s) (F64.of_Z 0) || F64.ltb (lastY s) (F64.of_Z 0)
  then mk (theta s) (phi s) (sensitivity s) xpos ypos (rotating s)
  else
    let dx := F64.to_float (F64.sub xpos (lastX s)) in
    let dy := F64.to_float (F64.sub ypos (lastY s)) in
    let theta' := (theta s - dx * sensitivity s)%f32 in
    let phi' := (phi s - dy * sensitivity s)%f32 in
    mk theta' (clamp phi' minPhi maxPhi) (sensitivity s) xpos ypos
       (rotating s).

(** [cursor] is the position [glfwGetCursorPos] reports. *)
Definition mouse_button_callback (s : state) (button action mods : Z)
  (cursor : double * double) : state :=
  if (button =? Input.GLFW_MOUSE_BUTTON_LEFT)%Z then
    if (action =? Input.GLFW_PRESS)%Z then
      mk (theta s) (phi s) (sensitivity s) (fst cursor) (snd cursor) true
    else if (action =? GLFW_RELEASE)%Z then
      mk (theta s) (phi s) (sensitivity s) (F64.of_Z (-1)) (F64.of_Z (-1))
         false
    else s
  else s.

End Globe.

(* ===================================================================== *)
(** ** The tessellated plane ([Water/PlaneMesh.hpp]) *)
(* ===================================================================== *)

Module PlaneMesh.

(** *** C++ [int]: 32 bits, overflow is undefined behaviour *)

Definition INT_MIN : Z := -2147483648.
Definition INT_MAX : Z := 2147483647.

(** The result of an [int] operation whose exact value is [z]: [Fault]
    stands for the undefined behaviour of an overflow. *)
Definition int (z : Z) : result Z :=
  if ((INT_MIN <=? z) && (z <=? INT_MAX))%Z then Done z else Fault.

Definition int_add (a b : Z) : result Z := int (a + b).
Definition int_sub (a b : Z) : result Z := int (a - b).
Definition int_mul (a b : Z) : result Z := int (a * b).

(** The integral part of a finite float. *)
Definition truncate (s : bool) (m : positive) (e : Z) : Z :=
  cond_Zopp s (if (0 <=? e)%Z then Zpos m * 2 ^ e else Zpos m / 2 ^ (- e)).

(** The conversion of a [float] to [int]: the fractional part is dropped;
    the behaviour is undefined when the result does not fit (and for NaN
    and the infinities). *)
Definition int_of_float (x : float) : result Z :=
  match x with
  | S754_zero _ => Done 0%Z
  | S754_finite s m e => int (truncate s m e)
  | S754_infinity _ | S754_nan => Fault
  end.

(** *** The loops *)

(** [for (float v = start; v <= max; v += stepsize) body]. *)
Fixpoint for_float_le {S : Type} (fuel : nat) (max stepsize : float)
  (body : float -> S -> result S) (v : float) (s : S) : result S :=
  match fuel with
  | O => OutOfFuel
  | Datatypes.S fuel' =>
      if (v <=? max)%f32 then
        s' <- body v s ;;
        for_float_le fuel' max stepsize body (v + stepsize)%f32 s'
      else Done s
  end.

(** [for (int i = first; i < first + count; ++i) body]. *)
Fixpoint for_int {S : Type} (count : nat) (i : Z)
  (body : Z -> S -> result S) (s : S) : result S :=
  match count with
  | O => Done s
  | Datatypes.S count' =>
      s' <- body i s ;;
      for_int count' (i + 1)%Z body s'
  end.

(** *** The mesh *)

(** The three vectors of the class. *)
Record mesh : Type := mkmesh {
  verts : list float;
  normals : list float;
  indices : list Z
}.

Definition empty : mesh := mkmesh [] [] [].

(** The body of the inner vertex loop. *)
Definition push_vertex (x y z : float) (m : mesh) : mesh :=
  mkmesh (verts m ++ [x; y; z])
         (normals m ++ [F32.of_Z 0; F32.of_Z 1; F32.of_Z 0])
         (indices m).

(** The body of the inner index loop: the four corners of a quad. *)
Definition push_quad (nCols i j : Z) (m : mesh) : result mesh :=
  a <- (t <- int_mul i nCols ;; int_add t j) ;;
  b <- (t <- int_mul i nCols ;; u <- int_add t j ;; int_add u 1) ;;
  c <- (i1 <- int_add i 1 ;; t <- int_mul i1 nCols ;;
        u <- int_add t j ;; int_add u 1) ;;
  d <- (i1 <- int_add i 1 ;; t <- int_mul i1 nCols ;; int_add t j) ;;
  Done (mkmesh (verts m) (normals m) (indices m ++ [a; b; c; d])).

Definition planeMeshQuads (fuel : nat) (min max stepsize : float) (m : mesh)
  : result mesh :=
  let y := F32.of_Z 0 in
  m1 <- for_float_le fuel max stepsize
          (fun x m =>
             for_float_le fuel max stepsize
               (fun z m => Done (push_vertex x y z m)) min m)
          min m ;;
  nCols <- int_of_float ((max - min) / stepsize + F32.of_Z 1)%f32 ;;
  bound <- int_sub nCols 1 ;;
  for_int (Z.to_nat bound) 0
    (fun i m =>
       for_int (Z.to_nat bound) 0 (fun j m => push_quad nCols i j m) m)
    m1.

End PlaneMesh.

(* ===================================================================== *)
(** ** Notions used by the statements *)
(* ===================================================================== *)

(** The value of a loop variable after [k] additions of [stepsize]. *)
Fixpoint stride (start stepsize : float) (k : nat) : float :=
  match k with
  | O => start
  | S k' => (stride start stepsize k' + stepsize)%f32
  end.

(** The loop [for (v = start; v < max; v += stepsize)] is still running at
    its turn number [k]: the guard held at every turn up to [k]. *)
Definition running (start max stepsize : float) (k : nat) : Prop :=
  forall j, (j <= k)%nat -> (stride start stepsize j <? max)%f32 = true.

(** The flat normals the specification describes: each group of three
    vertices contributes its triangle normal three times. *)
Fixpoint flat_normals (vertices : list float) : list float :=
  match vertices with
  | a0 :: a1 :: a2 :: b0 :: b1 :: b2 :: c0 :: c1 :: c2 :: rest =>
      let n := Glm.normalize
                 (Glm.cross
                    (Glm.vsub (Glm.mkvec3 b0 b1 b2) (Glm.mkvec3 a0 a1 a2))
                    (Glm.vsub (Glm.mkvec3 c0 c1 c2) (Glm.mkvec3 a0 a1 a2))) in
      [Glm.x n; Glm.y n; Glm.z n;
       Glm.x n; Glm.y n; Glm.z n;
       Glm.x n; Glm.y n; Glm.z n] ++ flat_normals rest
  | _ => []
  end.

(** The interpolation formula of the specification. *)
Definition interpolation_formula (p1 p2 : vec3) (valp1 valp2 isovalue : float)
  : vec3 :=
  let t := ((isovalue - valp1) / (valp2 - valp1))%f32 in
  Glm.mkvec3 (Glm.x p1 + t * (Glm.x p2 - Glm.x p1))
             (Glm.y p1 + t * (Glm.y p2 - Glm.y p1))
             (Glm.z p1 + t * (Glm.z p2 - Glm.z p1))%f32.

Definition vec3_is_float (p : vec3) : Prop :=
  F32.is_float (Glm.x p) /\ F32.is_float (Glm.y p) /\ F32.is_float (Glm.z p).

(** An access of [write_ply] stays inside the vector it reads. *)
Definition in_bounds (vertices normals : list float) (a : Ply.access) : Prop :=
  match a with
  | Ply.ReadVertices i => (i < length vertices)%nat
  | Ply.ReadNormals i => (i < length normals)%nat
  end.

Definition in_boundsb (vertices normals : list float) (a : Ply.access)
  : bool :=
  match a with
  | Ply.ReadVertices i => (i <? length vertices)%nat
  | Ply.ReadNormals i => (i <? length normals)%nat
  end.

(** The six element accesses of turn [i] of the data loop, in order. *)
Definition vertex_accesses (i : nat) : list Ply.access :=
  [ Ply.ReadVertices (i * 3); Ply.ReadVertices (i * 3 + 1);
    Ply.ReadVertices (i * 3 + 2);
    Ply.ReadNormals (i * 3); Ply.ReadNormals (i * 3 + 1);
    Ply.ReadNormals (i * 3 + 2) ].

(** All the element accesses of the data loop over [numVertices] turns. *)
Definition all_accesses (numVertices : nat) : list Ply.access :=
  flat_map vertex_accesses (seq 0 numVertices).

(** The accesses made out of a planned sequence: all of it when every
    access is in bounds, otherwise up to and including the first one that
    is not. *)
Fixpoint logged (vertices normals : list float) (plan : list Ply.access)
  : list Ply.access :=
  match plan with
  | [] => []
  | a :: plan' =>
      if in_boundsb vertices normals a
      then a :: logged vertices normals plan'
      else [a]
  end.

(** The action [c] makes the accesses of [plan], in order, until one of them
    is out of bounds; it returns when none is. *)
Definition traces (vertices normals : list float) (c : Ply.IO unit)
  (plan : list Ply.access) : Prop :=
  forall w,
    Ply.reads (snd (c w)) = Ply.reads w ++ logged vertices normals plan
    /\ fst (c w) = if forallb (in_boundsb vertices normals) plan
                   then Done tt else Fault.

(** The file [name] exists and starts with [prefix]. *)
Definition has_prefix (name prefix : string) (w : Ply.World) : Prop :=
  exists rest, Ply.disk w name = Some (prefix ++ rest)%string.

(** The action [c] only appends to the file [name]. *)
Definition appends_to (name : string) {A : Type} (c : Ply.IO A) : Prop :=
  forall prefix w, has_prefix name prefix w -> has_prefix name prefix (snd (c w)).

(** The indices at which [normals] was read, in order. *)
Fixpoint normal_reads (tr : list Ply.access) : list nat :=
  match tr with
  | [] => []
  | Ply.ReadNormals i :: tr' => i :: normal_reads tr'
  | Ply.ReadVertices _ :: tr' => normal_reads tr'
  end.

(** The line [write_ply] writes for vertex [i]: three coordinates and
    three normal components, separated by spaces. *)
Definition ply_line (show_float : float -> string)
  (vertices normals : list float) (i : nat) : string :=
  (show_float (nth (i * 3) vertices F32.nan) ++ " "
   ++ show_float (nth (i * 3 + 1) vertices F32.nan) ++ " "
   ++ show_float (nth (i * 3 + 2) vertices F32.nan) ++ " "
   ++ show_float (nth (i * 3) normals F32.nan) ++ " "
   ++ show_float (nth (i * 3 + 1) normals F32.nan) ++ " "
   ++ show_float (nth (i * 3 + 2) normals F32.nan) ++ Ply.nl)%string.

(** The lines of the vertices [i], [i + 1], ..., [count] of them. *)
Fixpoint ply_lines (show_float : float -> string)
  (vertices normals : list float) (i count : nat) : string :=
  match count with
  | O => EmptyString
  | S count' =>
      (ply_line show_float vertices normals i
       ++ ply_lines show_float vertices normals (S i) count')%string
  end.

(** The action [c] returns, having appended [s] to the file [name] and [o]
    to the output stream, and left the error stream as it was. *)
Definition emits (name : string) (c : Ply.IO unit) (s o : string) : Prop :=
  forall w content,
    Ply.disk w name = Some content ->
    fst (c w) = Done tt
    /\ Ply.disk (snd (c w)) name = Some (content ++ s)%string
    /\ Ply.cerr (snd (c w)) = Ply.cerr w
    /\ Ply.cout (snd (c w)) = (Ply.cout w ++ o)%string.

(** *** Concrete inputs for the examples *)

(** The loop [for (v = start; v <= max; v += stepsize)] makes exactly [n]
    turns: the guard holds at the first [n] values and fails at the next. *)
Definition turns (start max stepsize : float) (n : nat) : Prop :=
  (forall k, (k < n)%nat -> (stride start stepsize k <=? max)%f32 = true)
  /\ (stride start stepsize n <=? max)%f32 = false.

(** The coordinates a loop of [n] turns visits. *)
Definition visited (start stepsize : float) (n : nat) : list float :=
  map (stride start stepsize) (seq 0 n).

(** The vertex vector of a square grid over [coords], row after row, at
    height zero. *)
Definition grid (coords : list float) : list float :=
  flat_map (fun x => flat_map (fun z => [x; F32.zero; z]) coords) coords.

(** [count] normals pointing up. *)
Definition up_normals (count : nat) : list float :=
  concat (repeat [F32.zero; F32.one; F32.zero] count).

(** The corners of the quad of cell [(i, j)] in a grid of [nCols] columns,
    and the index vector of all the cells. *)
Definition quad (nCols i j : Z) : list Z :=
  [i * nCols + j; i * nCols + j + 1;
   (i + 1) * nCols + j + 1; (i + 1) * nCols + j]%Z.

Definition quads (nCols : Z) : list Z :=
  flat_map
    (fun i =>
       flat_map (fun j => quad nCols (Z.of_nat i) (Z.of_nat j))
         (seq 0 (Z.to_nat (nCols - 1))))
    (seq 0 (Z.to_nat (nCols - 1))).

(** The vertex number [k] of a flat vertex vector. *)
Definition vertex_at (verts : list float) (k : nat) : option vec3 :=
  match nth_error verts (3 * k), nth_error verts (3 * k + 1),
        nth_error verts (3 * k + 2) with
  | Some x, Some y, Some z => Some (Glm.mkvec3 x y z)
  | _, _, _ => None
  end.


Module Sample.

(** [0.5f], [0.2f], [5.0f], [2^100] and [2^101]. *)
Definition half : float := Eval cbv in F32.of_scaled 1 (-1).
Definition fifth : float := Eval cbv in F32.of_scaled 13421773 (-26).
Definition five : float := Eval cbv in F32.of_Z 5.
Definition minus_five : float := Eval cbv in F32.of_Z (-5).
Definition huge : float := Eval cbv in F32.of_scaled 1 100.
Definition huger : float := Eval cbv in F32.of_scaled 1 101.

(** The field [f(x, y, z) = x]: a plane crossing the cell along one axis. *)
Definition plane_x : field := fun x _ _ => x.

Definition vec1 (c : float) : vec3 := Glm.mkvec3 c c c.

(** Two edge endpoints. *)
Definition end1 : vec3 := Glm.mkvec3 half minus_five F32.zero.
Definition end2 : vec3 := Glm.mkvec3 five fifth F32.one.

(** The triangle [(0,0,0), (1,0,0), (0,1,0)] as a flat vertex vector. *)
Definition unit_triangle : list float :=
  [ F32.zero; F32.zero; F32.zero;
    F32.one; F32.zero; F32.zero;
    F32.zero; F32.one; F32.zero ].

(** The world before [write_ply] runs: no file, empty streams; every path
    but ["/nowhere/out.ply"] can be opened. *)
Definition world0 : Ply.World :=
  Ply.mkWorld (fun name => negb (name =? "/nowhere/out.ply")%string)
              (fun _ => None) EmptyString EmptyString [].

(** [0.1f] and [0.25f]. *)
Definition tenth : float := Eval cbv in F32.of_scaled 13421773 (-27).
Definition quarter : float := Eval cbv in F32.of_scaled 1 (-2).

(** A stand-in for the float printer of the C++ library. *)
Definition show_any (x : float) : string :=
  match x with
  | S754_zero _ => "0"
  | S754_nan => "nan"
  | S754_infinity _ => "inf"
  | S754_finite _ _ _ => "1"
  end.

End Sample.

(* ===================================================================== *)
(** * Properties *)
(* ===================================================================== *)

(** ** Order facts on binary32 *)

Module F32Order.
Lemma compare_antisym (a b : float) :
  SFcompare b a = option_map CompOpp (SFcompare a b).
Proof.
  destruct a as [[]|[]| |[] ma ea], b as [[]|[]| |[] mb eb]; simpl; try reflexivity;
    rewrite (Z.compare_antisym eb ea);
    change (Pos.compare_cont Eq ma mb) with (ma ?= mb)%positive;
    change (Pos.compare_cont Eq mb ma) with (mb ?= ma)%positive;
    rewrite (Pos.compare_antisym mb ma);
    destruct (eb ?= ea)%Z; simpl; try reflexivity;
    destruct (mb ?= ma)%positive; reflexivity.
Qed.

Lemma eqb_not_ltb (a b : float) : F32.eqb a b = true -> F32.ltb a b = false.
Proof.
  unfold F32.eqb, F32.ltb, SFeqb, SFltb.
  destruct (SFcompare a b) as [[]|]; congruence.
Qed.

Lemma leb_not_ltb (a b : float) : F32.leb a b = true -> F32.ltb b a = false.
Proof.
  unfold F32.leb, F32.ltb, SFleb, SFltb. rewrite (compare_antisym a b).
  destruct (SFcompare a b) as [[]|]; simpl; congruence.
Qed.
End F32Order.

(** ** The configuration index *)

Section CubeIndex.
Variables (val : list float) (isovalue : float).

Lemma cube_index_prefix_bits (k : nat) (j : Z) :
  (0 <= j)%Z ->
  Z.testbit (fold_left (set_corner_bit val isovalue) (seq 0 k) 0%Z) j =
  (j <? Z.of_nat k)%Z && (at_val val (Z.to_nat j) <? isovalue)%f32.
Proof.
  intros Hj. induction k as [|k IH].
  - simpl. rewrite Z.bits_0. destruct (Z.ltb_spec j 0); [lia | reflexivity].
  - rewrite seq_S, fold_left_app. simpl fold_left. unfold set_corner_bit at 1. simpl Nat.add.
    destruct (at_val val k <? isovalue)%f32 eqn:Hk.
    + rewrite Z.lor_spec, IH, Z.shiftl_1_l, Z.pow2_bits_eqb by lia.
      destruct (Z.eqb_spec (Z.of_nat k) j) as [<-|Hne].
      * rewrite Nat2Z.id, Hk, orb_true_r.
        symmetry. apply andb_true_intro. split; [apply Z.ltb_lt; lia | reflexivity].
      * rewrite orb_false_r. f_equal.
        destruct (Z.ltb_spec j (Z.of_nat k)), (Z.ltb_spec j (Z.of_nat (S k))); try reflexivity; lia.
    + rewrite IH.
      destruct (Z.eqb_spec (Z.of_nat k) j) as [<-|Hne].
      * rewrite Nat2Z.id, Hk, !andb_false_r. reflexivity.
      * f_equal.
        destruct (Z.ltb_spec j (Z.of_nat k)), (Z.ltb_spec j (Z.of_nat (S k))); try reflexivity; lia.
Qed.

Lemma cube_index_nonneg_prefix (k : nat) : (0 <= fold_left (set_corner_bit val isovalue) (seq 0 k) 0)%Z.
Proof.
  induction k as [|k IH]; [simpl; lia|].
  rewrite seq_S, fold_left_app. simpl. unfold set_corner_bit at 1.
  destruct (_ <? _)%f32; [|exact IH].
  apply Z.lor_nonneg. split; [exact IH|]. apply Z.shiftl_nonneg. lia.
Qed.
End CubeIndex.

Lemma cube_index_testbit (val : list float) (isovalue : float) (j : Z) :
  (0 <= j)%Z ->
  Z.testbit (cube_index val isovalue) j =
  (j <? 8)%Z && (at_val val (Z.to_nat j) <? isovalue)%f32.
Proof. intros Hj. unfold cube_index. apply (cube_index_prefix_bits val isovalue 8 j Hj). Qed.

Lemma cube_index_range (val : list float) (isovalue : float) :
  (0 <= cube_index val isovalue < 256)%Z.
Proof.
  assert (H0 : (0 <= cube_index val isovalue)%Z) by apply (cube_index_nonneg_prefix val isovalue 8).
  split; [exact H0|].
  destruct (Z.eq_dec (cube_index val isovalue) 0) as [->|Hnz]; [lia|].
  change 256%Z with (2 ^ 8)%Z. apply Z.log2_lt_pow2; [lia|].
  destruct (Z.lt_ge_cases (Z.log2 (cube_index val isovalue)) 8) as [|Hge]; [assumption|exfalso].
  assert (Hb := Z.bit_log2 (cube_index val isovalue) ltac:(lia)).
  rewrite cube_index_testbit in Hb by lia.
  destruct (Z.ltb_spec (Z.log2 (cube_index val isovalue)) 8); [lia | discriminate].
Qed.

(** C1: in every cube cell, bit [i] of the configuration index is set exactly
    when the sample at corner [i] is strictly below the isovalue; a sample
    that compares equal to the isovalue leaves its bit clear. *)
Theorem cube_index_bit_iff_below (f : field) (isovalue stepsize x y z : float)
  (i : nat) :
  let pos := corner_positions (Glm.mkvec3 x y z) stepsize in
  let val := corner_values f pos in
  let cubeIndex := cube_index val isovalue in
  (i < 8)%nat ->
  at_val val i = f (Glm.x (at_pos pos i)) (Glm.y (at_pos pos i))
                   (Glm.z (at_pos pos i))
  /\ (Z.testbit cubeIndex (Z.of_nat i) = true <->
      (at_val val i <? isovalue)%f32 = true)
  /\ ((at_val val i =? isovalue)%f32 = true ->
      Z.testbit cubeIndex (Z.of_nat i) = false).
Proof.
  intros pos val cubeIndex Hi. split; [|split].
  - unfold val, corner_values, at_val, at_pos.
    do 8 (destruct i as [|i]; [reflexivity|]). lia.
  - unfold cubeIndex. rewrite cube_index_testbit, Nat2Z.id by lia.
    destruct (Z.ltb_spec (Z.of_nat i) 8); [reflexivity | lia].
  - intros Heq. unfold cubeIndex. rewrite cube_index_testbit, Nat2Z.id by lia.
    rewrite (F32Order.eqb_not_ltb _ _ Heq). apply andb_false_r.
Qed.

(** In the unit cell at the origin cut by the plane [x = 0.5], corner 3,
    at [(0, 0, 1)], is below the isovalue and corner 1, at [(1, 0, 0)], is
    not. *)
Lemma cube_index_bit_iff_below_witness :
  (3 < 8)%nat
  /\ (Z.testbit
        (cube_index
           (corner_values Sample.plane_x
              (corner_positions (Glm.mkvec3 F32.zero F32.zero F32.zero)
                 F32.one))
           Sample.half) 3 = true
      <-> (at_val
             (corner_values Sample.plane_x
                (corner_positions (Glm.mkvec3 F32.zero F32.zero F32.zero)
                   F32.one)) 3 <? Sample.half)%f32 = true).
Proof.
  assert (H : (3 < 8)%nat) by lia.
  split; [exact H|].
  exact (proj1 (proj2 (cube_index_bit_iff_below Sample.plane_x Sample.half
                         F32.one F32.zero F32.zero F32.zero 3 H))).
Defined.

(** ** Outcomes *)

Lemma bind_Done {A B : Type} (r : result A) (k : A -> result B) (b : B) :
  bind r k = Done b -> exists a, r = Done a /\ k a = Done b.
Proof. destruct r as [a| |]; simpl; intros H; try discriminate. eauto. Qed.

Lemma read_Done {A : Type} (v : list A) (i : nat) :
  (i < length v)%nat -> exists a, read v i = Done a /\ nth_error v i = Some a.
Proof.
  intros Hi. unfold read. destruct (nth_error v i) as [a|] eqn:E; [eauto|].
  apply nth_error_None in E. lia.
Qed.

Lemma read_app_r {A : Type} (pre suf : list A) (i k : nat) :
  i = (length pre + k)%nat -> read (pre ++ suf) i = read suf k.
Proof.
  intros ->. unfold read. rewrite nth_error_app2 by lia.
  replace (length pre + k - length pre)%nat with k by lia. reflexivity.
Qed.

(** ** The triangle loop *)

Lemma push_vec3_length (vertices : list float) (v : vec3) :
  length (push_vec3 vertices v) = (length vertices + 3)%nat.
Proof. unfold push_vec3. rewrite length_app. reflexivity. Qed.

Lemma push_triangle_length triEdges edgeVertex i vertices vertices' :
  push_triangle triEdges edgeVertex i vertices = Done vertices' ->
  length vertices' = (length vertices + 9)%nat.
Proof.
  unfold push_triangle. intros H.
  repeat (apply bind_Done in H; destruct H as [? [_ H]]).
  injection H as <-. rewrite !push_vec3_length. lia.
Qed.

Lemma build_triangles_length fuel triEdges edgeVertex :
  forall i vertices vertices',
    build_triangles fuel triEdges edgeVertex i vertices = Done vertices' ->
    exists t, length vertices' = (length vertices + 9 * t)%nat.
Proof.
  induction fuel as [|fuel IH]; intros i vertices vertices' H; [discriminate|].
  simpl in H. apply bind_Done in H. destruct H as [e [_ H]].
  destruct (e =? -1)%Z.
  - injection H as <-. exists 0%nat. lia.
  - apply bind_Done in H. destruct H as [vs [Hp H]].
    apply push_triangle_length in Hp. apply IH in H. destruct H as [t Ht].
    exists (S t). lia.
Qed.

Lemma push_triangle_fuel triEdges edgeVertex i vertices :
  push_triangle triEdges edgeVertex i vertices <> OutOfFuel.
Proof.
  unfold push_triangle, readZ, read.
  repeat (match goal with
          | |- context [nth_error ?l ?k] => destruct (nth_error l k)
          | |- context [(?a <? 0)%Z] => destruct (a <? 0)%Z
          end; cbn [bind]; try discriminate).
Qed.

(** The fuel [process_cell] hands to the triangle loop, one more than the
    length of the row, is never exhausted: the index leaves the row first. *)
Lemma build_triangles_fuel triEdges edgeVertex :
  forall fuel i vertices,
    (length triEdges - i < fuel)%nat ->
    build_triangles fuel triEdges edgeVertex i vertices <> OutOfFuel.
Proof.
  induction fuel as [|fuel IH]; intros i vertices Hfuel; [lia|].
  cbn [build_triangles]. unfold read at 1.
  destruct (nth_error triEdges i) as [e|] eqn:E; cbn [bind]; [|discriminate].
  destruct (e =? -1)%Z; [discriminate|].
  assert (Hi : (i < length triEdges)%nat)
    by (apply nth_error_Some; congruence).
  destruct (push_triangle triEdges edgeVertex i vertices) as [vs| |] eqn:Ep;
    cbn [bind]; [|discriminate|].
  - apply IH. lia.
  - exfalso. exact (push_triangle_fuel _ _ _ _ Ep).
Qed.

(** A well-formed row, entered at the start of one of its groups, is read
    to its sentinel without leaving the row or the edge array. *)
Lemma build_triangles_total edgeVertex (Hev : length edgeVertex = 12%nat) :
  forall (suf pre : list Z) (fuel : nat) (vertices : list float),
    TriTable.row_ok suf = true ->
    (length suf < fuel)%nat ->
    exists vertices',
      build_triangles fuel (pre ++ suf) edgeVertex (length pre) vertices
      = Done vertices'.
Proof.
  intros suf. remember (length suf) as n eqn:Hn.
  revert suf Hn. induction n as [n IH] using lt_wf_ind.
  intros suf Hn pre fuel vertices Hok Hfuel.
  destruct fuel as [|fuel]; [lia|].
  destruct suf as [|e0 suf]; [discriminate|].
  simpl in Hok. cbn [build_triangles].
  rewrite (read_app_r pre _ _ 0) by lia. cbn [read nth_error bind].
  destruct (e0 =? -1)%Z eqn:He0; [eauto|].
  destruct suf as [|e1 [|e2 suf]]; try discriminate.
  repeat (apply andb_prop in Hok; destruct Hok as [Hok ?]).
  unfold push_triangle.
  rewrite (read_app_r pre _ _ 0), (read_app_r pre _ _ 1),
    (read_app_r pre _ _ 2) by lia.
  cbn [read nth_error bind].
  assert (Hrd : forall e, (0 <=? e)%Z = true -> (e <? 12)%Z = true ->
                          exists v, readZ edgeVertex e = Done v).
  { intros e Hlo Hhi. unfold readZ.
    apply Z.leb_le in Hlo. apply Z.ltb_lt in Hhi.
    destruct (Z.ltb_spec e 0); [lia|].
    destruct (read_Done edgeVertex (Z.to_nat e)) as [v [Hv _]]; [lia | eauto]. }
  destruct (Hrd e0) as [v0 ->]; try assumption.
  destruct (Hrd e1) as [v1 ->]; try assumption.
  destruct (Hrd e2) as [v2 ->]; try assumption.
  cbn [bind].
  replace (pre ++ e0 :: e1 :: e2 :: suf) with ((pre ++ [e0; e1; e2]) ++ suf)
    by (rewrite <- app_assoc; reflexivity).
  replace (length pre + 3)%nat with (length (pre ++ [e0; e1; e2]))
    by (rewrite length_app; reflexivity).
  simpl in Hn, Hfuel.
  apply (IH (length suf)); [lia | reflexivity | assumption | lia].
Qed.

(** ** One cell *)

Section Cell.

Variable marching_cubes_lut : list (list Z).

Lemma process_cell_length f isovalue stepsize x y z vertices vertices' :
  process_cell marching_cubes_lut f isovalue stepsize x y z vertices
  = Done vertices' ->
  exists t, length vertices' = (length vertices + 9 * t)%nat.
Proof.
  unfold process_cell. intros H.
  apply bind_Done in H. destruct H as [triEdges [_ H]].
  apply bind_Done in H. destruct H as [e [_ H]].
  destruct (e =? -1)%Z.
  - injection H as <-. exists 0%nat. lia.
  - apply build_triangles_length in H. exact H.
Qed.

Lemma edge_vertices_length pos val isovalue :
  length (edge_vertices pos val isovalue) = 12%nat.
Proof. unfold edge_vertices. rewrite length_map. reflexivity. Qed.

Lemma lut_row (Hwf : TriTable.well_formed marching_cubes_lut = true) (i : Z) :
  (0 <= i < 256)%Z ->
  exists triEdges,
    readZ marching_cubes_lut i = Done triEdges
    /\ TriTable.row_ok triEdges = true.
Proof.
  intros Hi. unfold TriTable.well_formed in Hwf.
  apply andb_prop in Hwf. destruct Hwf as [Hlen Hrows].
  apply Nat.eqb_eq in Hlen. unfold readZ.
  destruct (Z.ltb_spec i 0); [lia|].
  destruct (read_Done marching_cubes_lut (Z.to_nat i)) as [r [Hr Hn]]; [lia|].
  exists r. split; [exact Hr|].
  rewrite forallb_forall in Hrows. apply Hrows.
  eapply nth_error_In. exact Hn.
Qed.

(** With a well-formed table no cell faults. *)
Lemma process_cell_total (Hwf : TriTable.well_formed marching_cubes_lut = true)
  f isovalue stepsize x y z vertices :
  exists vertices',
    process_cell marching_cubes_lut f isovalue stepsize x y z vertices
    = Done vertices'.
Proof.
  unfold process_cell.
  match goal with
  | |- context [readZ _ ?i] =>
      destruct (lut_row Hwf i (cube_index_range _ _)) as [triEdges [-> Hok]]
  end.
  cbn [bind].
  destruct triEdges as [|e0 triEdges]; [discriminate|].
  cbn [read nth_error bind].
  destruct (e0 =? -1)%Z eqn:He0; [eauto|].
  apply (build_triangles_total _ (edge_vertices_length _ _ _)
           (e0 :: triEdges) [] _ _ Hok).
  simpl. lia.
Qed.

(** A field that is below the isovalue at every point gives configuration
    255 in every cell. *)
Lemma cube_index_all_below f isovalue cubePos stepsize :
  (forall a b c, (f a b c <? isovalue)%f32 = true) ->
  cube_index (corner_values f (corner_positions cubePos stepsize)) isovalue
  = 255%Z.
Proof.
  intros Hbelow.
  unfold cube_index, set_corner_bit, corner_values, corner_positions, cubeVerts.
  cbn [map seq fold_left at_val nth]. rewrite !Hbelow. reflexivity.
Qed.

Lemma process_cell_all_below f isovalue stepsize x y z vertices :
  TriTable.row_empty marching_cubes_lut 255 = true ->
  (forall a b c, (f a b c <? isovalue)%f32 = true) ->
  process_cell marching_cubes_lut f isovalue stepsize x y z vertices
  = Done vertices.
Proof.
  intros Hrow Hbelow. unfold process_cell.
  rewrite (cube_index_all_below _ _ _ _ Hbelow).
  unfold TriTable.row_empty in Hrow. unfold readZ, read.
  change (Z.to_nat 255) with 255%nat. cbn [Z.ltb Z.compare].
  destruct (nth_error marching_cubes_lut 255) as [[|e0 r]|]; try discriminate.
  cbn [bind nth_error]. rewrite Hrow. reflexivity.
Qed.

End Cell.

(** ** Loops over a float range *)

Section ForFloat.

Variables (max stepsize : float).
Variable body : float -> list float -> result (list float).

(** A property of the vertex vector kept by the body is kept by the loop. *)
Lemma for_float_invariant (P : list float -> Prop)
  (Hbody : forall v vs vs', body v vs = Done vs' -> P vs -> P vs') :
  forall fuel v vs vs',
    for_float fuel max stepsize body v vs = Done vs' -> P vs -> P vs'.
Proof.
  induction fuel as [|fuel IH]; intros v vs vs' H HP; [discriminate|].
  simpl in H. destruct (v <? max)%f32.
  - apply bind_Done in H. destruct H as [vs1 [Hb H]].
    eapply IH; [exact H|]. eapply Hbody; eassumption.
  - injection H as <-. exact HP.
Qed.

(** When the guard fails at the start the body never runs. *)
Lemma for_float_skip fuel v vs :
  (v <? max)%f32 = false ->
  for_float (S fuel) max stepsize body v vs = Done vs.
Proof. intros H. simpl. rewrite H. reflexivity. Qed.

(** A loop whose variable no longer moves and stays below the bound never
    returns. *)
Lemma for_float_stuck v :
  (v <? max)%f32 = true ->
  (v + stepsize)%f32 = v ->
  forall fuel vs, forall vs', for_float fuel max stepsize body v vs <> Done vs'.
Proof.
  intros Hlt Hfix. induction fuel as [|fuel IH]; intros vs vs' H; [discriminate|].
  simpl in H. rewrite Hlt, Hfix in H.
  apply bind_Done in H. destruct H as [vs1 [_ H]]. exact (IH _ _ H).
Qed.

End ForFloat.

(** A loop whose body never faults does not fault. *)
Lemma for_float_no_fault (max stepsize : float)
  (body : float -> list float -> result (list float))
  (Hbody : forall v vs, body v vs <> Fault) :
  forall fuel v vs, for_float fuel max stepsize body v vs <> Fault.
Proof.
  induction fuel as [|fuel IH]; intros v vs; [discriminate|].
  simpl. destruct (v <? max)%f32; [|discriminate].
  destruct (body v vs) as [vs1| |] eqn:Eb; cbn [bind];
    [apply IH | exfalso; exact (Hbody _ _ Eb) | discriminate].
Qed.

(** ** Binary32: canonical forms are preserved by rounding *)

Module F32Valid.

Import F32.

(** *** Number of binary digits *)

Lemma digits2_pos_size (m : positive) : digits2_pos m = Pos.size m.
Proof. induction m as [m IH|m IH|]; simpl; congruence. Qed.

Lemma Zdigits2_log2 (m : Z) : (0 < m)%Z -> Zdigits2 m = (Z.log2 m + 1)%Z.
Proof.
  destruct m as [|p|p]; try lia. intros _. simpl.
  destruct p as [p|p|]; simpl; rewrite ?digits2_pos_size; lia.
Qed.

Lemma Zdigits2_le (a b : Z) :
  (0 < a <= b)%Z -> (Zdigits2 a <= Zdigits2 b)%Z.
Proof.
  intros H. rewrite !Zdigits2_log2 by lia.
  assert (Z.log2 a <= Z.log2 b)%Z by (apply Z.log2_le_mono; lia). lia.
Qed.

Lemma Zdigits2_bounds (m : Z) :
  (0 < m)%Z -> (2 ^ (Zdigits2 m - 1) <= m < 2 ^ Zdigits2 m)%Z.
Proof.
  intros H. rewrite Zdigits2_log2 by lia.
  replace (Z.log2 m + 1 - 1)%Z with (Z.log2 m) by lia.
  destruct (Z.log2_spec m H) as [Hlo Hhi].
  split; [exact Hlo|]. replace (Z.log2 m + 1)%Z with (Z.succ (Z.log2 m)) by lia.
  exact Hhi.
Qed.

Lemma Zdigits2_shiftr (m : Z) (p : positive) :
  (0 < m)%Z -> (0 < Z.shiftr m (Zpos p))%Z ->
  Zdigits2 (Z.shiftr m (Zpos p)) = (Zdigits2 m - Zpos p)%Z.
Proof.
  intros Hm Hq. rewrite !Zdigits2_log2 by lia.
  rewrite Z.log2_shiftr by lia.
  assert (Zpos p <= Z.log2 m)%Z.
  { destruct (Z.le_gt_cases (Zpos p) (Z.log2 m)) as [|Hlt]; [assumption|exfalso].
    rewrite Z.shiftr_eq_0 in Hq; lia. }
  lia.
Qed.

Lemma digits2_pos_iter_xO (m d : positive) :
  Zpos (digits2_pos (Pos.iter xO m d)) = (Zpos (digits2_pos m) + Zpos d)%Z.
Proof.
  induction d as [|d IH] using Pos.peano_ind.
  - simpl. lia.
  - rewrite Pos.iter_succ. simpl digits2_pos. lia.
Qed.

(** *** Shifting a mantissa to the right *)

Lemma shr_1_m (mrs : shr_record) :
  (0 <= shr_m mrs)%Z -> shr_m (shr_1 mrs) = Z.div2 (shr_m mrs).
Proof.
  destruct mrs as [m r s]. simpl. intros Hm.
  destruct m as [|[p|p|]|p]; try reflexivity; lia.
Qed.

Lemma iter_pos_nat {A : Type} (f : A -> A) (p : positive) :
  forall a, iter_pos f p a = Nat.iter (Pos.to_nat p) f a.
Proof.
  induction p as [p IH|p IH|]; intros a; simpl iter_pos.
  - rewrite !IH, Pos2Nat.inj_xI.
    replace (S (2 * Pos.to_nat p)) with (Pos.to_nat p + (Pos.to_nat p + 1))%nat by lia.
    rewrite !Nat.iter_add. reflexivity.
  - rewrite !IH, Pos2Nat.inj_xO.
    replace (2 * Pos.to_nat p)%nat with (Pos.to_nat p + Pos.to_nat p)%nat by lia.
    rewrite Nat.iter_add. reflexivity.
  - reflexivity.
Qed.

Lemma shr_iter_m (n : nat) :
  forall mrs, (0 <= shr_m mrs)%Z ->
    shr_m (Nat.iter n shr_1 mrs) = Z.shiftr (shr_m mrs) (Z.of_nat n).
Proof.
  induction n as [|n IH]; intros mrs Hm.
  - simpl. rewrite Z.shiftr_0_r. reflexivity.
  - rewrite Nat.iter_succ_r, IH.
    + rewrite shr_1_m by assumption.
      rewrite Z.div2_spec, Z.shiftr_shiftr by lia. f_equal. lia.
    + rewrite shr_1_m by assumption. rewrite Z.div2_spec.
      apply Z.shiftr_nonneg. assumption.
Qed.

Lemma shr_record_of_loc_m (m : Z) (l : location) :
  shr_m (shr_record_of_loc m l) = m.
Proof. destruct l as [|[]]; reflexivity. Qed.

(** *** One alignment step *)

(** After [shr_fexp] the mantissa is zero or sits at its canonical
    exponent, provided the input exponent was not above it. *)
Lemma shr_fexp_canonical (m e : Z) (l : location) :
  (0 < m)%Z ->
  (e <= fexp prec emax (Zdigits2 m + e))%Z ->
  let (mrs, e') := shr_fexp prec emax m e l in
  (shr_m mrs = 0%Z /\ e' = emin prec emax)
  \/ ((0 < shr_m mrs)%Z
      /\ fexp prec emax (Zdigits2 (shr_m mrs) + e') = e').
Proof.
  intros Hm He. unfold shr_fexp, shr.
  destruct (fexp prec emax (Zdigits2 m + e) - e)%Z as [|p|p] eqn:En; [| |lia].
  - right. rewrite shr_record_of_loc_m. split; [exact Hm | lia].
  - rewrite iter_pos_nat.
    assert (Hq : shr_m (Nat.iter (Pos.to_nat p) shr_1 (shr_record_of_loc m l))
                 = Z.shiftr m (Zpos p)).
    { rewrite shr_iter_m by (rewrite shr_record_of_loc_m; lia).
      rewrite shr_record_of_loc_m, positive_nat_Z. reflexivity. }
    rewrite Hq.
    assert (Hnn : (0 <= Z.shiftr m (Zpos p))%Z) by (apply Z.shiftr_nonneg; lia).
    destruct (Z.eq_dec (Z.shiftr m (Zpos p)) 0) as [Hz|Hnz].
    + left. split; [exact Hz|].
      apply Z.shiftr_eq_0_iff in Hz. destruct Hz as [Hz|[_ Hz]]; [lia|].
      assert (Hd := Zdigits2_log2 m Hm).
      unfold fexp, emin, prec, emax in *. lia.
    + right. split; [lia|].
      rewrite Zdigits2_shiftr by lia.
      replace (Zdigits2 m - Zpos p + (e + Zpos p))%Z with (Zdigits2 m + e)%Z by lia.
      lia.
Qed.

Lemma round_nearest_even_cases (m : Z) (l : location) :
  round_nearest_even m l = m \/ round_nearest_even m l = (m + 1)%Z.
Proof. destruct l as [|[]]; simpl; auto. destruct (Z.even m); auto. Qed.

Lemma fexp_le (a b : Z) :
  (a <= b)%Z -> (fexp prec emax a <= fexp prec emax b)%Z.
Proof. unfold fexp. lia. Qed.

(** *** Rounding *)

Lemma shr_fexp_zero (e : Z) (l : location) :
  shr_m (fst (shr_fexp prec emax 0 e l)) = 0%Z.
Proof.
  unfold shr_fexp, shr.
  destruct (fexp prec emax (Zdigits2 0 + e) - e)%Z as [|p|p]; simpl;
    rewrite ?shr_record_of_loc_m; try reflexivity.
  rewrite iter_pos_nat, shr_iter_m by (rewrite shr_record_of_loc_m; lia).
  rewrite shr_record_of_loc_m. apply Z.shiftr_0_l.
Qed.

Lemma binary_round_aux_valid (s : bool) (m e : Z) (l : location) :
  (0 < m)%Z ->
  (e <= fexp prec emax (Zdigits2 m + e))%Z ->
  is_float (binary_round_aux prec emax s m e l).
Proof.
  intros Hm He. unfold is_float, binary_round_aux.
  assert (H1 := shr_fexp_canonical m e l Hm He).
  destruct (shr_fexp prec emax m e l) as [mrs1 e1].
  set (m1 := round_nearest_even (shr_m mrs1) (loc_of_shr_record mrs1)).
  assert (Hm1 : m1 = 0%Z
                \/ ((0 < m1)%Z
                    /\ (e1 <= fexp prec emax (Zdigits2 m1 + e1))%Z)).
  { destruct (round_nearest_even_cases (shr_m mrs1) (loc_of_shr_record mrs1))
      as [Hc|Hc]; fold m1 in Hc; destruct H1 as [[Hz He1]|[Hpos Hcan]].
    - left. lia.
    - right. split; [lia|]. rewrite Hc, Hcan. lia.
    - right. split; [lia|]. rewrite Hc, Hz, He1.
      unfold fexp, emin, prec, emax. simpl. lia.
    - right. split; [lia|]. rewrite <- Hcan at 1. apply fexp_le.
      assert (Zdigits2 (shr_m mrs1) <= Zdigits2 m1)%Z by (apply Zdigits2_le; lia).
      lia. }
  destruct Hm1 as [Hz|[Hpos Hle]].
  - rewrite Hz. assert (H0 := shr_fexp_zero e1 loc_Exact).
    destruct (shr_fexp prec emax 0 e1 loc_Exact) as [mrs2 e2].
    simpl in H0. rewrite H0. reflexivity.
  - assert (H2 := shr_fexp_canonical m1 e1 loc_Exact Hpos Hle).
    destruct (shr_fexp prec emax m1 e1 loc_Exact) as [mrs2 e2].
    destruct H2 as [[Hz _]|[Hpos2 Hcan]].
    + rewrite Hz. reflexivity.
    + destruct (shr_m mrs2) as [|m2|m2] eqn:Em2; try reflexivity.
      destruct (e2 <=? emax - prec)%Z eqn:Ele; [|reflexivity].
      simpl. unfold bounded, canonical_mantissa.
      simpl Zdigits2 in Hcan. rewrite Hcan, Z.eqb_refl, Ele. reflexivity.
Qed.

Lemma binary_round_valid (s : bool) (m : positive) (e : Z) :
  is_float (binary_round prec emax s m e).
Proof.
  unfold binary_round, shl_align.
  destruct (fexp prec emax (Zpos (digits2_pos m) + e) - e)%Z as [|d|d] eqn:Ed;
    apply binary_round_aux_valid; try lia; simpl Zdigits2.
  - lia.
  - lia.
  - rewrite digits2_pos_iter_xO.
    replace (Zpos (digits2_pos m) + Zpos d
             + fexp prec emax (Zpos (digits2_pos m) + e))%Z
      with (Zpos (digits2_pos m) + e)%Z by lia.
    lia.
Qed.

Lemma binary_normalize_valid (m e : Z) (szero : bool) :
  is_float (binary_normalize prec emax m e szero).
Proof.
  destruct m as [|p|p]; simpl; [reflexivity| |]; apply binary_round_valid.
Qed.

(** *** Sums and differences of floats are floats *)

Lemma add_is_float (a b : float) :
  is_float a -> is_float b -> is_float (a + b)%f32.
Proof.
  intros Ha Hb. unfold add, SFadd.
  destruct a as [[]|[]| |sa ma ea], b as [[]|[]| |sb mb eb];
    try reflexivity; try assumption.
  apply binary_normalize_valid.
Qed.

Lemma sub_is_float (a b : float) :
  is_float a -> is_float b -> is_float (a - b)%f32.
Proof.
  intros Ha Hb. unfold sub, SFsub.
  destruct a as [[]|[]| |sa ma ea], b as [[]|[]| |sb mb eb];
    try reflexivity; try assumption.
  apply binary_normalize_valid.
Qed.

End F32Valid.

(** ** Binary32: the measure [ord] and exact products *)

Module F32Measure.

Import F32.

Lemma float_bounds (s : bool) (m : positive) (e : Z) :
  is_float (S754_finite s m e) ->
  (Zpos m < 16777216 /\ -149 <= e <= 104)%Z.
Proof.
  unfold is_float, valid_binary, bounded, canonical_mantissa. intros H.
  apply andb_prop in H. destruct H as [Hc He].
  apply Z.eqb_eq in Hc. apply Z.leb_le in He.
  assert (Hd := F32Valid.Zdigits2_bounds (Zpos m) ltac:(lia)).
  simpl Zdigits2 in Hd. destruct Hd as [_ Hd].
  unfold fexp, emin, prec, emax in *.
  assert (Hle : (Zpos (digits2_pos m) <= 24)%Z) by lia.
  split; [|lia].
  change 16777216%Z with (2 ^ 24)%Z.
  eapply Z.lt_le_trans; [exact Hd|].
  apply Z.pow_le_mono_r; lia.
Qed.

(** [ord] respects the strict order on floats. *)
Lemma ltb_ord (a b : float) :
  is_float a -> is_float b -> (a <? b)%f32 = true -> (ord a < ord b)%Z.
Proof.
  intros Ha Hb. unfold ltb, SFltb.
  destruct a as [sa|sa| |sa ma ea], b as [sb|sb| |sb mb eb];
    try (simpl; discriminate);
    try (apply float_bounds in Ha); try (apply float_bounds in Hb);
    simpl SFcompare; unfold ord, cond_Zopp;
    destruct sa, sb; try discriminate; try (intros _; lia);
    destruct (Z.compare_spec ea eb) as [Heq|Hlt|Hgt]; try discriminate;
    try (intros _; lia);
    change (Pos.compare_cont Eq ma mb) with (ma ?= mb)%positive;
    destruct (Pos.compare_spec ma mb); try discriminate; intros _; subst; lia.
Qed.

(** Multiplying by [1.0f] changes no float. *)
Lemma mul_one_l (a : float) : is_float a -> (one * a)%f32 = a.
Proof.
  intros Ha. destruct a as [sa|sa| |sa ma ea]; try reflexivity.
  unfold is_float, valid_binary, bounded, canonical_mantissa in Ha.
  apply andb_prop in Ha. destruct Ha as [Hc He]. apply Z.eqb_eq in Hc.
  unfold mul, one, SFmul, binary_round_aux, shr_fexp.
  change (Zpos (8388608 * ma)) with (Zpos (Pos.iter xO ma 23)).
  cbn [xorb Zdigits2]. rewrite F32Valid.digits2_pos_iter_xO.
  assert (E1 : (fexp prec emax (Zpos (digits2_pos ma) + 23 + (-23 + ea))
                - (-23 + ea))%Z = 23%Z).
  { replace (Zpos (digits2_pos ma) + 23 + (-23 + ea))%Z
      with (Zpos (digits2_pos ma) + ea)%Z by lia.
    rewrite Hc. lia. }
  rewrite E1. cbn -[fexp Z.add].
  replace (-23 + ea + 23)%Z with ea by lia.
  rewrite Hc, Z.sub_diag. cbn [shr shr_m]. rewrite He. reflexivity.
Qed.

End F32Measure.

(** ** Termination of the traversal *)

Section Stride.

Variables (start max stepsize : float).

Lemma stride_shift (k : nat) :
  stride (start + stepsize)%f32 stepsize k = stride start stepsize (S k).
Proof. induction k as [|k IH]; simpl; [reflexivity|]. rewrite IH. reflexivity. Qed.

Lemma stride_is_float :
  F32.is_float start -> F32.is_float stepsize ->
  forall k, F32.is_float (stride start stepsize k).
Proof.
  intros Hs Hd. induction k as [|k IH]; simpl; [exact Hs|].
  apply F32Valid.add_is_float; assumption.
Qed.

Lemma running_le (k j : nat) :
  (j <= k)%nat -> running start max stepsize k -> running start max stepsize j.
Proof. intros Hjk Hk i Hi. apply Hk. lia. Qed.

(** Either the loop is still running at turn [n] or its guard has failed
    at some turn up to [n]. *)
Lemma running_or_stopped (n : nat) :
  running start max stepsize n
  \/ exists j, (j <= n)%nat /\ (stride start stepsize j <? max)%f32 = false.
Proof.
  induction n as [|n [IH|[j [Hj Hstop]]]].
  - destruct (stride start stepsize 0 <? max)%f32 eqn:E.
    + left. intros j Hj. replace j with 0%nat by lia. exact E.
    + right. exists 0%nat. split; [lia | exact E].
  - destruct (stride start stepsize (S n) <? max)%f32 eqn:E.
    + left. intros j Hj. destruct (Nat.eq_dec j (S n)) as [->|Hne]; [exact E|].
      apply IH. lia.
    + right. exists (S n). split; [lia | exact E].
  - right. exists j. split; [lia | exact Hstop].
Qed.

(** While the variable grows at every turn, its measure grows with the
    turn number and stays below that of the bound. *)
Lemma running_measure
  (Hstart : F32.is_float start) (Hmax : F32.is_float max)
  (Hstep : F32.is_float stepsize)
  (Hgrow : forall k, running start max stepsize k ->
                     (stride start stepsize k
                      <? stride start stepsize (S k))%f32 = true) :
  forall k, running start max stepsize k ->
            (F32.ord start + Z.of_nat k <= F32.ord (stride start stepsize k)
             < F32.ord max)%Z.
Proof.
  intros k Hk.
  assert (Hlt : (F32.ord (stride start stepsize k) < F32.ord max)%Z).
  { apply F32Measure.ltb_ord;
      [apply stride_is_float; assumption | assumption | apply Hk; lia]. }
  split; [|exact Hlt]. clear Hlt.
  induction k as [|k IH]; [simpl; lia|].
  assert (Hk' : running start max stepsize k) by (apply (running_le (S k)); [lia|exact Hk]).
  specialize (IH Hk').
  assert (Hg := Hgrow k Hk').
  apply F32Measure.ltb_ord in Hg; try (apply stride_is_float; assumption).
  lia.
Qed.

(** Hence the guard fails after finitely many turns. *)
Lemma growing_loop_stops
  (Hstart : F32.is_float start) (Hmax : F32.is_float max)
  (Hstep : F32.is_float stepsize)
  (Hgrow : forall k, running start max stepsize k ->
                     (stride start stepsize k
                      <? stride start stepsize (S k))%f32 = true) :
  exists n, (stride start stepsize n <? max)%f32 = false.
Proof.
  set (n := Z.to_nat (F32.ord max - F32.ord start)).
  destruct (running_or_stopped n) as [Hrun|[j [_ Hj]]]; [exfalso | eauto].
  assert (H := running_measure Hstart Hmax Hstep Hgrow n Hrun).
  unfold n in H. lia.
Qed.

End Stride.

Section ForFloatTermination.

Variables (max stepsize : float).
Variable body : float -> list float -> result (list float).
Hypothesis body_total : forall v vs, exists vs', body v vs = Done vs'.

(** Once the guard fails at turn [n], fuel [n + 1] is enough. *)
Lemma for_float_stops (n : nat) :
  forall v vs,
    (stride v stepsize n <? max)%f32 = false ->
    exists vs', for_float (S n) max stepsize body v vs = Done vs'.
Proof.
  induction n as [|n IH]; intros v vs Hstop.
  - simpl in Hstop. simpl. rewrite Hstop. eauto.
  - cbn [for_float]. destruct (v <? max)%f32 eqn:Hv; [|eauto].
    destruct (body_total v vs) as [vs1 ->]. cbn [bind].
    apply IH. rewrite stride_shift. exact Hstop.
Qed.

End ForFloatTermination.

(** A loop whose body never returns does not return once it is entered. *)
Lemma for_float_body_diverges (max stepsize : float)
  (body : float -> list float -> result (list float)) (v : float) :
  (v <? max)%f32 = true ->
  (forall vs vs', body v vs <> Done vs') ->
  forall fuel vs vs', for_float fuel max stepsize body v vs <> Done vs'.
Proof.
  intros Hv Hbody fuel vs vs' H. destruct fuel as [|fuel]; [discriminate|].
  simpl in H. rewrite Hv in H.
  apply bind_Done in H. destruct H as [vs1 [Hb _]]. exact (Hbody _ _ Hb).
Qed.

Section Traversal.

Variable marching_cubes_lut : list (list Z).
Variables (f : field) (isovalue min max stepsize : float).

(** With cells that always return, the traversal returns as soon as the
    stride carries [min] to a value that is not below [max]. *)
Lemma marching_cubes_stops (n : nat)
  (Hcell : forall x y z vs,
      exists vs', process_cell marching_cubes_lut f isovalue stepsize
                    x y z vs = Done vs') :
  (stride min stepsize n <? max)%f32 = false ->
  exists vertices,
    marching_cubes marching_cubes_lut (S n) f isovalue min max stepsize
    = Done vertices.
Proof.
  intros Hstop. unfold marching_cubes.
  apply for_float_stops; [|exact Hstop]. intros x vs.
  apply for_float_stops; [|exact Hstop]. intros y vs0.
  apply for_float_stops; [|exact Hstop]. intros z vs1.
  apply Hcell.
Qed.

(** When the stride is absorbed at [min], the traversal never returns. *)
Lemma marching_cubes_diverges :
  (min <? max)%f32 = true ->
  (min + stepsize)%f32 = min ->
  forall fuel vertices,
    marching_cubes marching_cubes_lut fuel f isovalue min max stepsize
    <> Done vertices.
Proof.
  intros Hlt Hfix fuel vertices. unfold marching_cubes.
  apply for_float_body_diverges; [exact Hlt|]. intros vs vs'.
  apply for_float_body_diverges; [exact Hlt|]. intros vs0 vs0'.
  apply for_float_stuck; assumption.
Qed.

(** Every returned vertex vector holds whole triangles. *)
Lemma marching_cubes_length (fuel : nat) (vertices : list float) :
  marching_cubes marching_cubes_lut fuel f isovalue min max stepsize
  = Done vertices ->
  exists t, length vertices = (9 * t)%nat.
Proof.
  unfold marching_cubes. intros H.
  pose (P := fun vs : list float => exists t, length vs = (9 * t)%nat).
  refine (for_float_invariant max stepsize _ P _ fuel min [] vertices H _).
  - intros x vs vs' Hx Hvs.
    refine (for_float_invariant max stepsize _ P _ fuel min vs vs' Hx Hvs).
    intros y vs0 vs0' Hy Hvs0.
    refine (for_float_invariant max stepsize _ P _ fuel min vs0 vs0' Hy Hvs0).
    intros z vs1 vs1' Hz [t Ht].
    apply process_cell_length in Hz. destruct Hz as [t' Ht'].
    exists (t + t')%nat. lia.
  - exists 0%nat. reflexivity.
Qed.

End Traversal.

(** ** Claims about the mesh generator *)

(** The bounds and step of [main.cpp]: from [-5] the stride [0.2f] grows the
    loop variable at each of the 51 turns the loop takes. *)
Lemma main_stride_grows :
  forall k, running Sample.minus_five Sample.five Sample.fifth k ->
            (stride Sample.minus_five Sample.fifth k
             <? stride Sample.minus_five Sample.fifth (S k))%f32 = true.
Proof.
  intros k Hrun. destruct (le_lt_dec 51 k) as [Hge|Hlt].
  - assert (Hstop : (stride Sample.minus_five Sample.fifth 51 <? Sample.five)%f32
                    = false) by (vm_compute; reflexivity).
    rewrite (Hrun 51%nat Hge) in Hstop. discriminate.
  - assert (Hall : forallb
                     (fun j => (stride Sample.minus_five Sample.fifth j
                                <? stride Sample.minus_five Sample.fifth (S j))%f32)
                     (seq 0 51) = true) by (vm_compute; reflexivity).
    rewrite forallb_forall in Hall. apply Hall. apply in_seq. lia.
Qed.

(** C3: whatever the field, the isovalue, the bounds and the step size, the
    vertex vector [marching_cubes] returns has a length that is a multiple
    of nine, so that the vertex count [length / 3] is a multiple of three.
    Such a vector is returned whenever the table is well formed and the
    stride carries the loop variable forward at every turn. *)
Theorem marching_cubes_whole_triangles (marching_cubes_lut : list (list Z))
  (f : field) (isovalue min max stepsize : float) :
  (forall fuel vertices,
      marching_cubes marching_cubes_lut fuel f isovalue min max stepsize
      = Done vertices ->
      Nat.divide 9 (length vertices) /\ Nat.divide 3 (length vertices / 3))
  /\ (TriTable.well_formed marching_cubes_lut = true ->
      F32.is_float min -> F32.is_float max -> F32.is_float stepsize ->
      (forall k, running min max stepsize k ->
                 (stride min stepsize k
                  <? stride min stepsize (S k))%f32 = true) ->
      exists fuel vertices,
        marching_cubes marching_cubes_lut fuel f isovalue min max stepsize
        = Done vertices
        /\ Nat.divide 9 (length vertices)
        /\ Nat.divide 3 (length vertices / 3)).
Proof.
  assert (Hlen : forall fuel vertices,
             marching_cubes marching_cubes_lut fuel f isovalue min max stepsize
             = Done vertices ->
             Nat.divide 9 (length vertices)
             /\ Nat.divide 3 (length vertices / 3)).
  { intros fuel vertices H. apply marching_cubes_length in H.
    destruct H as [t Ht]. split.
    - exists t. lia.
    - exists t. rewrite Ht.
      replace (9 * t)%nat with ((3 * t) * 3)%nat by lia.
      rewrite Nat.div_mul by lia. lia. }
  split; [exact Hlen|].
  intros Hwf Hmin Hmax Hstep Hgrow.
  destruct (growing_loop_stops min max stepsize Hmin Hmax Hstep Hgrow) as [n Hn].
  destruct (marching_cubes_stops marching_cubes_lut f isovalue min max
              stepsize n) as [vertices Hv]; [|exact Hn|].
  - intros x y z vs. apply process_cell_total. exact Hwf.
  - exists (S n), vertices. split; [exact Hv | exact (Hlen _ _ Hv)].
Qed.

(** A run on one cell cut by the plane [x = 0.5] returns two triangles; a
    run over the bounds of [main.cpp] returns. *)
Lemma marching_cubes_whole_triangles_witness :
  (exists vertices,
      marching_cubes TriTable.classic 2 Sample.plane_x Sample.half
        F32.zero F32.one F32.one = Done vertices
      /\ length vertices = 18%nat
      /\ Nat.divide 9 (length vertices)
      /\ Nat.divide 3 (length vertices / 3))
  /\ (exists fuel vertices,
        marching_cubes TriTable.classic fuel Sample.plane_x Sample.half
          Sample.minus_five Sample.five Sample.fifth = Done vertices
        /\ Nat.divide 9 (length vertices)
        /\ Nat.divide 3 (length vertices / 3)).
Proof.
  assert (Hwf : TriTable.well_formed TriTable.classic = true)
    by (vm_compute; reflexivity).
  split.
  - eexists. split; [vm_compute; reflexivity|]. split; [reflexivity|].
    apply (proj1 (marching_cubes_whole_triangles TriTable.classic
                    Sample.plane_x Sample.half F32.zero F32.one F32.one) 2%nat).
    vm_compute. reflexivity.
  - exact (proj2 (marching_cubes_whole_triangles TriTable.classic
                    Sample.plane_x Sample.half Sample.minus_five Sample.five
                    Sample.fifth)
             Hwf eq_refl eq_refl eq_refl main_stride_grows).
Defined.

(** C5: when [max <= min] the traversal visits no cell: [marching_cubes]
    returns the empty vertex vector, without fault. *)
Theorem marching_cubes_empty_range (marching_cubes_lut : list (list Z))
  (fuel : nat) (f : field) (isovalue min max stepsize : float) :
  (max <=? min)%f32 = true ->
  marching_cubes marching_cubes_lut (S fuel) f isovalue min max stepsize
  = Done [].
Proof.
  intros Hle. unfold marching_cubes. apply for_float_skip.
  apply F32Order.leb_not_ltb. exact Hle.
Qed.

Lemma marching_cubes_empty_range_witness :
  (Sample.minus_five <=? Sample.five)%f32 = true
  /\ marching_cubes TriTable.classic 1 Sample.plane_x Sample.half
       Sample.five Sample.minus_five Sample.fifth = Done [].
Proof.
  split; [vm_compute; reflexivity|].
  apply (marching_cubes_empty_range TriTable.classic 0 Sample.plane_x
           Sample.half Sample.five Sample.minus_five Sample.fifth).
  vm_compute. reflexivity.
Defined.

(** C8, as it stands, fails: below the isovalue everywhere, yet with bounds
    [2^100 .. 2^101] and step [1] the loop variable never moves and no fuel
    makes the call return. *)
Lemma constant_field_traversal_may_not_return :
  (F32.zero <? F32.one)%f32 = true
  /\ ~ exists fuel,
         marching_cubes TriTable.classic fuel (fun _ _ _ => F32.zero) F32.one
           Sample.huge Sample.huger F32.one = Done [].
Proof.
  split; [reflexivity|]. intros [fuel H]. revert H.
  apply marching_cubes_diverges; vm_compute; reflexivity.
Qed.

(** C8, amended: for a constant field strictly below the isovalue (and a
    table whose row 255 is empty), [marching_cubes] never returns a vertex
    and never faults, whatever the bounds and the step: a call that returns
    returns the empty vector.  It does return whenever every addition of
    [stepsize] made by the traversal yields a strictly greater float. *)
Theorem constant_field_below_gives_empty_mesh
  (marching_cubes_lut : list (list Z)) (c isovalue min max stepsize : float) :
  (c <? isovalue)%f32 = true ->
  TriTable.row_empty marching_cubes_lut 255 = true ->
  (forall fuel vertices,
      marching_cubes marching_cubes_lut fuel (fun _ _ _ => c) isovalue
        min max stepsize = Done vertices -> vertices = [])
  /\ (forall fuel,
         marching_cubes marching_cubes_lut fuel (fun _ _ _ => c) isovalue
           min max stepsize <> Fault)
  /\ (F32.is_float min -> F32.is_float max -> F32.is_float stepsize ->
      (forall k, running min max stepsize k ->
                 (stride min stepsize k <? stride min stepsize (S k))%f32
                 = true) ->
      exists fuel,
        marching_cubes marching_cubes_lut fuel (fun _ _ _ => c) isovalue
          min max stepsize = Done []).
Proof.
  intros Hc Hrow.
  assert (Hcell : forall x y z vs,
             process_cell marching_cubes_lut (fun _ _ _ => c) isovalue
               stepsize x y z vs = Done vs).
  { intros x y z vs. apply process_cell_all_below; [exact Hrow|]. intros; exact Hc. }
  assert (Hempty : forall fuel vertices,
             marching_cubes marching_cubes_lut fuel (fun _ _ _ => c) isovalue
               min max stepsize = Done vertices -> vertices = []).
  { intros fuel vertices H. unfold marching_cubes in H.
    pose (P := fun vs : list float => vs = []).
    refine (for_float_invariant max stepsize _ P _ fuel min [] vertices H eq_refl).
    intros x vs vs' Hx Hvs.
    refine (for_float_invariant max stepsize _ P _ fuel min vs vs' Hx Hvs).
    intros y vs0 vs0' Hy Hvs0.
    refine (for_float_invariant max stepsize _ P _ fuel min vs0 vs0' Hy Hvs0).
    intros z vs1 vs1' Hz Hvs1. rewrite Hcell in Hz. injection Hz as <-. exact Hvs1. }
  split; [exact Hempty|]. split.
  - intros fuel. unfold marching_cubes.
    apply for_float_no_fault. intros x vs.
    apply for_float_no_fault. intros y vs0.
    apply for_float_no_fault. intros z vs1.
    rewrite Hcell. discriminate.
  - intros Hmin Hmax Hstep Hgrow.
    destruct (growing_loop_stops min max stepsize Hmin Hmax Hstep Hgrow)
      as [n Hn].
    destruct (marching_cubes_stops marching_cubes_lut (fun _ _ _ => c) isovalue
                min max stepsize n) as [vertices Hv]; [|exact Hn|].
    + intros x y z vs. exists vs. apply Hcell.
    + exists (S n). rewrite Hv. f_equal. exact (Hempty _ _ Hv).
Qed.

Lemma constant_field_below_gives_empty_mesh_witness :
  (F32.zero <? Sample.half)%f32 = true
  /\ TriTable.row_empty TriTable.classic 255 = true
  /\ (exists fuel,
         marching_cubes TriTable.classic fuel (fun _ _ _ => F32.zero)
           Sample.half Sample.minus_five Sample.five Sample.fifth = Done []).
Proof.
  split; [reflexivity|]. split; [reflexivity|].
  exact (proj2 (proj2 (constant_field_below_gives_empty_mesh TriTable.classic
                         F32.zero Sample.half Sample.minus_five Sample.five
                         Sample.fifth eq_refl eq_refl))
           eq_refl eq_refl eq_refl main_stride_grows).
Defined.

(** C9, as it stands, fails: [stepsize = 1 > 0] and [max = 2^101 > min =
    2^100], yet [2^100 + 1] rounds to [2^100], the loop variable never moves
    and no fuel makes the traversal return. *)
Lemma traversal_may_not_terminate :
  (F32.zero <? F32.one)%f32 = true
  /\ (Sample.huge <? Sample.huger)%f32 = true
  /\ ~ exists fuel vertices,
         marching_cubes TriTable.classic fuel Sample.plane_x Sample.half
           Sample.huge Sample.huger F32.one = Done vertices.
Proof.
  split; [reflexivity|]. split; [reflexivity|]. intros (fuel & vertices & H).
  revert H. apply marching_cubes_diverges; vm_compute; reflexivity.
Qed.

(** C9, amended: with a well-formed table, the grid traversal terminates for
    every field, isovalue and bounds such that each addition of [stepsize]
    made while the loop runs yields a strictly greater float. *)
Theorem traversal_terminates (marching_cubes_lut : list (list Z))
  (f : field) (isovalue min max stepsize : float) :
  TriTable.well_formed marching_cubes_lut = true ->
  F32.is_float min -> F32.is_float max -> F32.is_float stepsize ->
  (forall k, running min max stepsize k ->
             (stride min stepsize k <? stride min stepsize (S k))%f32 = true) ->
  exists fuel vertices,
    marching_cubes marching_cubes_lut fuel f isovalue min max stepsize
    = Done vertices.
Proof.
  intros Hwf Hmin Hmax Hstep Hgrow.
  destruct (growing_loop_stops min max stepsize Hmin Hmax Hstep Hgrow) as [n Hn].
  exists (S n). apply marching_cubes_stops; [|exact Hn].
  intros x y z vs. apply process_cell_total. exact Hwf.
Qed.

Lemma traversal_terminates_witness :
  TriTable.well_formed TriTable.classic = true
  /\ (F32.zero <? Sample.fifth)%f32 = true
  /\ (Sample.minus_five <? Sample.five)%f32 = true
  /\ exists fuel vertices,
       marching_cubes TriTable.classic fuel Sample.plane_x Sample.half
         Sample.minus_five Sample.five Sample.fifth = Done vertices.
Proof.
  assert (Hwf : TriTable.well_formed TriTable.classic = true)
    by (vm_compute; reflexivity).
  split; [exact Hwf|]. split; [reflexivity|]. split; [reflexivity|].
  exact (traversal_terminates TriTable.classic Sample.plane_x Sample.half
           Sample.minus_five Sample.five Sample.fifth
           Hwf eq_refl eq_refl eq_refl main_stride_grows).
Defined.

(** ** Edge interpolation *)

Module Interpolation.

Import F32.

Lemma eqb_refl (a : float) : is_nan a = false -> (a =? a)%f32 = true.
Proof.
  unfold eqb, SFeqb. destruct a as [s|[]| |[] m e]; simpl; try reflexivity;
    try discriminate; intros _;
    rewrite Z.compare_refl;
    change (Pos.compare_cont Eq m m) with (m ?= m)%positive;
    rewrite Pos.compare_refl; reflexivity.
Qed.

(** The factor is [+0] at the isovalue of the first endpoint and [1] at
    that of the second. *)
Lemma factor_at_first : ((zero - zero) / (one - zero))%f32 = zero.
Proof. reflexivity. Qed.

Lemma factor_at_second : ((one - zero) / (one - zero))%f32 = one.
Proof. reflexivity. Qed.

(** Adding a zero multiple of a finite difference gives back a value that
    compares equal. *)
Lemma add_zero_multiple (a d : float) :
  is_nan a = false -> is_finite d = true ->
  (a + zero * d =? a)%f32 = true.
Proof.
  intros Ha Hd.
  assert (Hz : exists s, (zero * d)%f32 = S754_zero s).
  { destruct d as [s|s| |s m e]; try discriminate; simpl; eauto. }
  destruct Hz as [s ->].
  destruct a as [sa|sa| |sa ma ea]; try discriminate.
  - destruct sa, s; reflexivity.
  - apply eqb_refl. reflexivity.
  - apply (eqb_refl (S754_finite sa ma ea)). reflexivity.
Qed.

Lemma finite_difference_not_nan (a b : float) :
  is_finite (b - a)%f32 = true -> is_nan a = false.
Proof.
  destruct a as [sa|sa| |sa ma ea]; try reflexivity.
  destruct b as [sb|sb| |sb mb eb]; simpl; discriminate.
Qed.

Lemma at_first (a b : float) :
  is_finite (b - a)%f32 = true ->
  (a + (zero - zero) / (one - zero) * (b - a) =? a)%f32 = true.
Proof.
  intros Hd. rewrite factor_at_first.
  apply add_zero_multiple; [|exact Hd].
  exact (finite_difference_not_nan a b Hd).
Qed.

Lemma at_second (a b : float) :
  is_float a -> is_float b ->
  (a + (one - zero) / (one - zero) * (b - a))%f32 = (a + (b - a))%f32.
Proof.
  intros Ha Hb. rewrite factor_at_second.
  rewrite F32Measure.mul_one_l; [reflexivity|].
  apply F32Valid.sub_is_float; assumption.
Qed.

End Interpolation.

(** C2, as it stands, fails at its second boundary case: from [p1 = 2^100]
    to [p2 = 1] the difference rounds to [-2^100] and the result is [0],
    not [p2]. *)
Lemma interpolateVertex_misses_second_endpoint :
  (F32.zero =? F32.one)%f32 = false
  /\ Glm.veqb
       (interpolateVertex (Sample.vec1 Sample.huge) (Sample.vec1 F32.one)
          F32.zero F32.one F32.one)
       (Sample.vec1 F32.one) = false.
Proof. split; vm_compute; reflexivity. Qed.

(** C2, amended: [interpolateVertex] returns [p1 + t * (p2 - p1)] with
    [t = (isovalue - valp1) / (valp2 - valp1)], every operation rounded to
    binary32.  With values [0], [1] and isovalue [0] the result compares
    equal to [p1] as soon as the components of [p2 - p1] are finite; with
    isovalue [1] it is [p1 + (p2 - p1)]. *)
Theorem interpolateVertex_formula (p1 p2 : vec3)
  (valp1 valp2 isovalue : float) :
  interpolateVertex p1 p2 valp1 valp2 isovalue
  = interpolation_formula p1 p2 valp1 valp2 isovalue
  /\ (F32.is_finite (Glm.x p2 - Glm.x p1)%f32 = true ->
      F32.is_finite (Glm.y p2 - Glm.y p1)%f32 = true ->
      F32.is_finite (Glm.z p2 - Glm.z p1)%f32 = true ->
      Glm.veqb (interpolateVertex p1 p2 F32.zero F32.one F32.zero) p1 = true)
  /\ (vec3_is_float p1 -> vec3_is_float p2 ->
      interpolateVertex p1 p2 F32.zero F32.one F32.one
      = Glm.vadd p1 (Glm.vsub p2 p1)).
Proof.
  split; [reflexivity|]. split.
  - intros Hx Hy Hz. unfold interpolateVertex, Glm.veqb, Glm.vadd, Glm.scalev,
      Glm.vsub. cbn [Glm.x Glm.y Glm.z].
    rewrite !Interpolation.at_first by assumption. reflexivity.
  - intros (H1x & H1y & H1z) (H2x & H2y & H2z).
    unfold interpolateVertex, Glm.vadd, Glm.scalev, Glm.vsub.
    cbn [Glm.x Glm.y Glm.z].
    rewrite !Interpolation.at_second by assumption. reflexivity.
Qed.

Lemma interpolateVertex_formula_witness :
  F32.is_finite (Glm.x Sample.end2 - Glm.x Sample.end1)%f32 = true
  /\ F32.is_finite (Glm.y Sample.end2 - Glm.y Sample.end1)%f32 = true
  /\ F32.is_finite (Glm.z Sample.end2 - Glm.z Sample.end1)%f32 = true
  /\ vec3_is_float Sample.end1 /\ vec3_is_float Sample.end2
  /\ Glm.veqb (interpolateVertex Sample.end1 Sample.end2
                 F32.zero F32.one F32.zero) Sample.end1 = true
  /\ interpolateVertex Sample.end1 Sample.end2 F32.zero F32.one F32.one
     = Glm.vadd Sample.end1 (Glm.vsub Sample.end2 Sample.end1).
Proof.
  destruct (interpolateVertex_formula Sample.end1 Sample.end2
              F32.zero F32.one F32.zero) as (_ & Hfirst & Hsecond).
  assert (Hp1 : vec3_is_float Sample.end1) by (repeat split; reflexivity).
  assert (Hp2 : vec3_is_float Sample.end2) by (repeat split; reflexivity).
  split; [reflexivity|]. split; [reflexivity|]. split; [reflexivity|].
  split; [exact Hp1|]. split; [exact Hp2|]. split.
  - exact (Hfirst eq_refl eq_refl eq_refl).
  - exact (Hsecond Hp1 Hp2).
Defined.

(** ** Flat normals *)

Section Normals.

Lemma flat_normals_length (k : nat) :
  forall vertices,
    length vertices = (9 * k)%nat ->
    length (flat_normals vertices) = length vertices.
Proof.
  induction k as [|k IH]; intros vertices Hlen.
  - destruct vertices; [reflexivity | discriminate].
  - do 9 (destruct vertices as [|? vertices]; [simpl in Hlen; lia|]).
    cbn [flat_normals]. rewrite length_app. cbn [length].
    rewrite IH; [lia|]. simpl in Hlen. lia.
Qed.

(** The loop, entered at the start of a triangle with whole triangles
    ahead, appends their normals and stops at the end of the vector. *)
Lemma normals_loop_flat (k : nat) :
  forall (suf pre normals : list float) (fuel : nat),
    length suf = (9 * k)%nat ->
    (k < fuel)%nat ->
    normals_loop fuel (pre ++ suf) (length pre) normals
    = Done (normals ++ flat_normals suf).
Proof.
  induction k as [|k IH]; intros suf pre normals fuel Hlen Hfuel;
    (destruct fuel as [|fuel]; [lia|]); cbn [normals_loop].
  - destruct suf; [|discriminate]. rewrite !app_nil_r, Nat.ltb_irrefl.
    reflexivity.
  - do 9 (destruct suf as [|? suf]; [simpl in Hlen; lia|]).
    assert (Hguard : (length pre <? length (pre ++ f :: f0 :: f1 :: f2 :: f3
                                             :: f4 :: f5 :: f6 :: f7 :: suf))%nat
                     = true).
    { apply Nat.ltb_lt. rewrite length_app. simpl. lia. }
    rewrite Hguard. unfold read_triangle.
    rewrite (read_app_r pre _ _ 0), (read_app_r pre _ _ 1),
      (read_app_r pre _ _ 2), (read_app_r pre _ _ 3), (read_app_r pre _ _ 4),
      (read_app_r pre _ _ 5), (read_app_r pre _ _ 6), (read_app_r pre _ _ 7),
      (read_app_r pre _ _ 8) by lia.
    cbn [read nth_error bind].
    replace (pre ++ f :: f0 :: f1 :: f2 :: f3 :: f4 :: f5 :: f6 :: f7 :: suf)
      with ((pre ++ [f; f0; f1; f2; f3; f4; f5; f6; f7]) ++ suf)
      by (rewrite <- app_assoc; reflexivity).
    replace (length pre + 9)%nat
      with (length (pre ++ [f; f0; f1; f2; f3; f4; f5; f6; f7]))
      by (rewrite length_app; reflexivity).
    rewrite IH; [|simpl in Hlen; lia|lia].
    f_equal. unfold push_vec3, triangle_normal. cbn [flat_normals].
    rewrite <- !app_assoc. reflexivity.
Qed.

Lemma read_triangle_fuel (vertices : list float) (i : nat) :
read_triangle vertices i <> OutOfFuel.
Proof.
unfold read_triangle, read.
repeat (match goal with
        | |- context [nth_error ?l ?k] => destruct (nth_error l k)
        end; cbn [bind]; try discriminate).
Qed.

(** The fuel [compute_normals] hands to its loop is never exhausted. *)
Lemma normals_loop_fuel (vertices : list float) :
forall fuel i normals,
  (length vertices - i < fuel)%nat ->
  normals_loop fuel vertices i normals <> OutOfFuel.
Proof.
induction fuel as [|fuel IH]; intros i normals Hfuel; [lia|].
cbn [normals_loop].
destruct (Nat.ltb_spec i (length vertices)) as [Hi|Hi]; [|discriminate].
destruct (read_triangle vertices i) as [[[v0 v1] v2]| |] eqn:Er;
  cbn [bind]; [|discriminate|].
- apply IH. lia.
- exfalso. exact (read_triangle_fuel _ _ Er).
Qed.

Lemma compute_normals_fuel (vertices : list float) :
compute_normals vertices <> OutOfFuel.
Proof. unfold compute_normals. apply normals_loop_fuel. lia. Qed.

End Normals.

(** C4, as it stands, fails: on a vector of three floats the first turn of
    the loop reads [vertices[3]], outside the vector, and no normal vector
    is returned. *)
Lemma compute_normals_needs_whole_triangles :
  compute_normals [F32.zero; F32.zero; F32.zero] = Fault.
Proof. vm_compute. reflexivity. Qed.

(** C4, amended: on every vertex vector whose length is a multiple of nine,
    [compute_normals] returns a vector of the same length in which each
    triangle contributes [normalize(cross(v1 - v0, v2 - v0))] three
    times. *)
Theorem compute_normals_flat (vertices : list float) :
  Nat.divide 9 (length vertices) ->
  compute_normals vertices = Done (flat_normals vertices)
  /\ length (flat_normals vertices) = length vertices.
Proof.
  intros [k Hk]. rewrite Nat.mul_comm in Hk. split.
  - unfold compute_normals.
    apply (normals_loop_flat k vertices [] [] (S (length vertices)) Hk). lia.
  - exact (flat_normals_length k vertices Hk).
Qed.

Lemma compute_normals_flat_witness :
  Nat.divide 9 (length Sample.unit_triangle)
  /\ compute_normals Sample.unit_triangle
     = Done (flat_normals Sample.unit_triangle)
  /\ length (flat_normals Sample.unit_triangle) = length Sample.unit_triangle.
Proof.
  assert (H : Nat.divide 9 (length Sample.unit_triangle))
    by (exists 1%nat; reflexivity).
  split; [exact H|]. exact (compute_normals_flat Sample.unit_triangle H).
Defined.

(** The normal of the triangle [(0,0,0), (1,0,0), (0,1,0)] is [(0,0,1)]. *)
Example unit_triangle_normal :
  compute_normals Sample.unit_triangle
  = Done [ F32.zero; F32.zero; F32.one;
           F32.zero; F32.zero; F32.one;
           F32.zero; F32.zero; F32.one ].
Proof. vm_compute. reflexivity. Qed.

(** ** PLY export *)

Module PlyFacts.

Import Ply.
Local Open Scope string_scope.

(** *** Strings *)

Lemma append_assoc (a b c : string) : (a ++ b) ++ c = a ++ (b ++ c).
Proof. induction a as [|ch a IH]; simpl; [reflexivity|]. rewrite IH. reflexivity. Qed.

Lemma append_nil_r (a : string) : a ++ "" = a.
Proof. induction a as [|ch a IH]; simpl; [reflexivity|]. rewrite IH. reflexivity. Qed.

Lemma split_lines_first (a b : string) :
  no_newline a = true ->
  split_lines (a ++ nl ++ b) = a :: split_lines b.
Proof.
  induction a as [|c a IH]; simpl; intros H.
  - reflexivity.
  - apply andb_prop in H. destruct H as [Hc Ha].
    destruct (Ascii.eqb c newline); [discriminate|].
    change (String newline b) with (nl ++ b). rewrite (IH Ha). reflexivity.
Qed.

Lemma strip_prefix_app (p s : string) : strip_prefix p (p ++ s) = Some s.
Proof.
  induction p as [|c p IH]; simpl; [reflexivity|].
  rewrite Ascii.eqb_refl. exact IH.
Qed.

Lemma string_of_uint_no_newline (d : Decimal.uint) :
  no_newline (NilEmpty.string_of_uint d) = true.
Proof. induction d; simpl; auto. Qed.

Lemma show_size_t_round_trip (n : nat) :
  option_map Nat.of_uint (NilEmpty.uint_of_string (show_size_t n)) = Some n.
Proof.
  unfold show_size_t. rewrite NilEmpty.usu. simpl.
  rewrite DecimalNat.Unsigned.of_to. reflexivity.
Qed.

Lemma no_newline_app (a b : string) :
  no_newline a = true -> no_newline b = true -> no_newline (a ++ b) = true.
Proof.
  induction a as [|c a IH]; simpl; intros Ha Hb; [exact Hb|].
  apply andb_prop in Ha. destruct Ha as [Hc Ha].
  rewrite Hc, (IH Ha Hb). reflexivity.
Qed.

Section Header.

Variable show_float : float -> string.

(** A file that starts with the header of [n] vertices is read back as
    holding [n] vertices. *)
Lemma parse_header (n : nat) (rest : string) :
  parse_vertex_count (header n ++ rest) = Some n.
Proof.
  unfold parse_vertex_count, header.
  rewrite !append_assoc.
  rewrite split_lines_first by reflexivity.
  cbn [String.eqb Ascii.eqb Bool.eqb].
  rewrite split_lines_first by reflexivity.
  rewrite <- (append_assoc "element vertex " (show_size_t n)).
  rewrite split_lines_first
    by (apply no_newline_app;
        [reflexivity | apply string_of_uint_no_newline]).
  cbn [header_vertex_count].
  change ("format ascii 1.0" =? "end_header") with false.
  change (strip_prefix "element vertex " "format ascii 1.0")
    with (@None string).
  cbv iota.
  replace (("element vertex " ++ show_size_t n) =? "end_header") with false.
  - rewrite strip_prefix_app. apply show_size_t_round_trip.
  - symmetry. apply String.eqb_neq. simpl. intros H. discriminate.
Qed.

End Header.

End PlyFacts.

Module PlyRun.

Import Ply PlyFacts.

Lemma disk_set_file (w : World) (name content : string) :
  disk (set_file w name content) name = Some content.
Proof. simpl. rewrite String.eqb_refl. reflexivity. Qed.

Lemma file_content_set_file (w : World) (name content : string) :
  file_content (set_file w name content) name = content.
Proof. unfold file_content. rewrite disk_set_file. reflexivity. Qed.

(** *** Actions that only append to the file *)

Section Appends.

Variable name : string.

Lemma appends_ret {A : Type} (a : A) : appends_to name (ret a).
Proof. intros P w H. exact H. Qed.

Lemma appends_bind {A B : Type} (c : IO A) (k : A -> IO B) :
  appends_to name c -> (forall a, appends_to name (k a)) ->
  appends_to name (iobind c k).
Proof.
  intros Hc Hk P w H. unfold iobind. specialize (Hc P w H).
  destruct (c w) as [[a| |] w1]; simpl in Hc |- *; try exact Hc.
  apply Hk. exact Hc.
Qed.

Lemma appends_file_put (s : string) : appends_to name (file_put name s).
Proof.
  intros P w [rest H]. exists (rest ++ s)%string. simpl.
  rewrite String.eqb_refl. unfold file_content. rewrite H.
  rewrite append_assoc. reflexivity.
Qed.

Lemma appends_cout_put (s : string) : appends_to name (cout_put s).
Proof. intros P w H. exact H. Qed.

Lemma appends_close (n : string) : appends_to name (ofstream_close n).
Proof. intros P w H. exact H. Qed.

Lemma appends_read_vertices (v : list float) (i : nat) :
  appends_to name (read_vertices v i).
Proof. intros P w H. exact H. Qed.

Lemma appends_read_normals (v : list float) (i : nat) :
  appends_to name (read_normals v i).
Proof. intros P w H. exact H. Qed.

Lemma appends_for_count (body : nat -> IO unit)
  (Hbody : forall i, appends_to name (body i)) :
  forall n i, appends_to name (for_count n i body).
Proof.
  induction n as [|n IH]; intros i; simpl.
  - apply appends_ret.
  - apply appends_bind; [apply Hbody | intros _; apply IH].
Qed.

End Appends.

Create HintDb appends.

#[export] Hint Resolve appends_ret appends_file_put appends_cout_put
  appends_close
  appends_read_vertices appends_read_normals : appends.

Ltac appends :=
  repeat
    lazymatch goal with
    | |- appends_to _ (iobind _ _) => apply appends_bind; [|intros ?]
    | |- appends_to _ (for_count _ _ _) => fail
    | |- appends_to _ _ => solve [auto with appends]
    end.

(** *** Actions and the accesses they make *)

Section Traces.

Variables (vertices normals : list float).

Lemma read_in_bounds (v : list float) (i : nat) :
  (i <? length v)%nat = true -> exists a, read v i = Done a.
Proof.
  intros H. apply Nat.ltb_lt in H.
  destruct (read_Done v i H) as [a [Ha _]]. eauto.
Qed.

Lemma read_out_of_bounds (v : list float) (i : nat) :
  (i <? length v)%nat = false -> read v i = Fault.
Proof.
  intros H. apply Nat.ltb_ge in H. unfold read.
  destruct (nth_error v i) eqn:E; [|reflexivity].
  assert (nth_error v i <> None) by congruence.
  apply nth_error_Some in H0. lia.
Qed.

Lemma traces_silent (c : IO unit) :
  (forall w, fst (c w) = Done tt /\ reads (snd (c w)) = reads w) ->
  traces vertices normals c [].
Proof.
  intros H w. destruct (H w) as [Hr Hw]. simpl.
  rewrite Hw, app_nil_r. auto.
Qed.

Lemma traces_file_put (name s : string) :
  traces vertices normals (file_put name s) [].
Proof. apply traces_silent. intros w. split; reflexivity. Qed.

Lemma traces_cout_put (s : string) :
  traces vertices normals (cout_put s) [].
Proof. apply traces_silent. intros w. split; reflexivity. Qed.

Lemma traces_close (name : string) :
  traces vertices normals (ofstream_close name) [].
Proof. apply traces_silent. intros w. split; reflexivity. Qed.

Lemma traces_ret : traces vertices normals (ret tt) [].
Proof. apply traces_silent. intros w. split; reflexivity. Qed.

Lemma logged_app (p q : list access) :
  logged vertices normals (p ++ q)
  = if forallb (in_boundsb vertices normals) p
    then p ++ logged vertices normals q
    else logged vertices normals p.
Proof.
  induction p as [|a p IH]; simpl; [reflexivity|].
  destruct (in_boundsb vertices normals a); simpl; [|reflexivity].
  rewrite IH. destruct (forallb _ p); reflexivity.
Qed.

Lemma logged_all (p : list access) :
  forallb (in_boundsb vertices normals) p = true ->
  logged vertices normals p = p.
Proof.
  intros H. rewrite <- (app_nil_r p) at 1. rewrite logged_app, H.
  simpl. apply app_nil_r.
Qed.

Lemma traces_seq (c : IO unit) (k : IO unit) (p q : list access) :
  traces vertices normals c p -> traces vertices normals k q ->
  traces vertices normals (c ;;; k) (p ++ q).
Proof.
  intros Hc Hk w. unfold iobind.
  destruct (Hc w) as [Hw Hr]. rewrite logged_app, forallb_app.
  destruct (c w) as [r w1]. simpl in Hw, Hr.
  destruct (forallb (in_boundsb vertices normals) p) eqn:Ep.
  - subst r. destruct (Hk w1) as [Hw2 Hr2].
    rewrite Hw2, Hw, (logged_all p Ep), <- app_assoc. split; [reflexivity|].
    exact Hr2.
  - subst r. simpl. auto.
Qed.

Lemma traces_read_vertices (i : nat) (k : float -> IO unit)
  (p : list access) :
  (forall a, traces vertices normals (k a) p) ->
  traces vertices normals (a <~ read_vertices vertices i ;; k a)
    (ReadVertices i :: p).
Proof.
  intros Hk w. unfold iobind, read_vertices. cbn [logged forallb in_boundsb].
  destruct (i <? length vertices)%nat eqn:E.
  - destruct (read_in_bounds _ _ E) as [a ->].
    destruct (Hk a (log (ReadVertices i) w)) as [Hw Hr].
    rewrite Hw, Hr. cbn [reads log andb]. rewrite <- app_assoc. auto.
  - rewrite (read_out_of_bounds _ _ E). cbn [fst snd reads log andb]. auto.
Qed.

Lemma traces_read_normals (i : nat) (k : float -> IO unit)
  (p : list access) :
  (forall a, traces vertices normals (k a) p) ->
  traces vertices normals (a <~ read_normals normals i ;; k a)
    (ReadNormals i :: p).
Proof.
  intros Hk w. unfold iobind, read_normals. cbn [logged forallb in_boundsb].
  destruct (i <? length normals)%nat eqn:E.
  - destruct (read_in_bounds _ _ E) as [a ->].
    destruct (Hk a (log (ReadNormals i) w)) as [Hw Hr].
    rewrite Hw, Hr. cbn [reads log andb]. rewrite <- app_assoc. auto.
  - rewrite (read_out_of_bounds _ _ E). cbn [fst snd reads log andb]. auto.
Qed.

Lemma traces_for_count (body : nat -> IO unit)
  (plan : nat -> list access)
  (Hbody : forall i, traces vertices normals (body i) (plan i)) :
  forall n i,
    traces vertices normals (for_count n i body) (flat_map plan (seq i n)).
Proof.
  induction n as [|n IH]; intros i; simpl.
  - apply traces_ret.
  - apply traces_seq; [apply Hbody | apply IH].
Qed.

End Traces.

End PlyRun.

Module PlyExport.

Import Ply PlyFacts PlyRun.

Section Run.

Variable show_float : float -> string.
Variables (vertices normals : list float) (filename : string).

Ltac traces_step :=
  lazymatch goal with
  | |- traces _ _ (iobind (read_vertices _ _) _) _ =>
      apply traces_read_vertices; intros ?
  | |- traces _ _ (iobind (read_normals _ _) _) _ =>
      apply traces_read_normals; intros ?
  | |- traces _ _ (iobind (file_put _ _) _) _ =>
      refine (traces_seq _ _ _ _ [] _ (traces_file_put _ _ _ _) _)
  | |- traces _ _ (file_put _ _) _ => apply traces_file_put
  end.

Lemma write_vertex_traces (i : nat) :
  traces vertices normals
    (write_vertex show_float vertices normals filename i)
    (vertex_accesses i).
Proof. unfold write_vertex, vertex_accesses. repeat traces_step. Qed.

Lemma write_vertex_appends (i : nat) :
  appends_to filename (write_vertex show_float vertices normals filename i).
Proof. unfold write_vertex. appends. Qed.

(** Writing [s] and going on with [k], from a file that holds [P]. *)
Lemma put_then (s P P' : string) (k : IO unit) (w : World) :
  disk w filename = Some P ->
  (forall w', disk w' filename = Some (P ++ s)%string ->
              has_prefix filename P' (snd (k w'))) ->
  has_prefix filename P' (snd ((file_put filename s ;;; k) w)).
Proof.
  intros Hw Hk. unfold iobind, file_put. apply Hk.
  rewrite disk_set_file. unfold file_content. rewrite Hw. reflexivity.
Qed.

(** The run of [write_ply] on a path that can be opened. *)
Lemma write_ply_opened (w : World) :
  openable w filename = true ->
  reads (snd (write_ply show_float vertices normals filename w))
  = reads w ++ logged vertices normals (all_accesses (length vertices / 3))
  /\ fst (write_ply show_float vertices normals filename w)
     = (if forallb (in_boundsb vertices normals)
             (all_accesses (length vertices / 3))
        then Done tt else Fault)
  /\ has_prefix filename (header (length vertices / 3))
       (snd (write_ply show_float vertices normals filename w)).
Proof.
  intros Hopen.
  assert (Hrun : exists c : IO unit,
             write_ply show_float vertices normals filename w
             = c (set_file w filename EmptyString)
             /\ traces vertices normals c
                  (all_accesses (length vertices / 3) ++ [] ++ [])
             /\ forall w0, disk w0 filename = Some EmptyString ->
                           has_prefix filename
                             (header (length vertices / 3)) (snd (c w0))).
  { eexists. split; [|split].
    - unfold write_ply. unfold iobind at 1. unfold ofstream_open.
      rewrite Hopen. cbn [negb]. reflexivity.
    - repeat traces_step. apply traces_seq;
        [ apply traces_for_count; intros i; apply write_vertex_traces
        | apply traces_seq; [apply traces_close | apply traces_cout_put] ].
    - intros w0 H0.
      repeat (eapply put_then; [eassumption|]; clear H0; intros w1 H0;
              clear w0; rename w1 into w0).
      match goal with
      | |- has_prefix _ _ (snd (?c w0)) =>
          assert (Happ : appends_to filename c)
      end.
      { appends. apply appends_for_count. intros i.
        apply write_vertex_appends. }
      apply Happ. exists EmptyString. rewrite H0. f_equal.
      unfold header. rewrite !append_assoc, append_nil_r. reflexivity. }
  destruct Hrun as (c & -> & Ht & Hp).
  destruct (Ht (set_file w filename EmptyString)) as [Hreads Hres].
  cbn [app] in Hreads, Hres. rewrite app_nil_r in Hreads, Hres.
  split; [exact Hreads|]. split; [exact Hres|].
  apply Hp. apply disk_set_file.
Qed.

End Run.

End PlyExport.

(** *** The accesses of the data loop *)

Section Accesses.

Variables (vertices normals : list float).

Lemma in_boundsb_spec (a : Ply.access) :
  in_boundsb vertices normals a = true <-> in_bounds vertices normals a.
Proof. destruct a; simpl; apply Nat.ltb_lt. Qed.

Lemma normal_reads_app (p q : list Ply.access) :
  normal_reads (p ++ q) = normal_reads p ++ normal_reads q.
Proof.
  induction p as [|[i|i] p IH]; simpl; [reflexivity|exact IH|].
  rewrite IH. reflexivity.
Qed.

Lemma normal_reads_loop (n : nat) :
  forall i, normal_reads (flat_map vertex_accesses (seq i n))
            = seq (i * 3) (n * 3).
Proof.
  induction n as [|n IH]; intros i; [reflexivity|].
  cbn [seq flat_map]. rewrite normal_reads_app, IH.
  cbn [vertex_accesses normal_reads].
  rewrite !Nat.add_1_r.
  replace (i * 3 + 2)%nat with (S (S (i * 3))) by lia.
  reflexivity.
Qed.

Lemma all_accesses_in_bounds :
  (length vertices <= length normals)%nat ->
  forallb (in_boundsb vertices normals) (all_accesses (length vertices / 3))
  = true.
Proof.
  intros Hlen. apply forallb_forall. intros a Ha.
  unfold all_accesses in Ha. apply in_flat_map in Ha.
  destruct Ha as [i [Hi Ha]]. apply in_seq in Hi.
  assert (Hdiv : (3 * (length vertices / 3) <= length vertices)%nat)
    by (apply Nat.Div0.mul_div_le).
  apply in_boundsb_spec.
  unfold vertex_accesses in Ha. simpl in Ha.
  repeat (destruct Ha as [<-|Ha]; [simpl; lia|]). contradiction.
Qed.

(** The loop reads the first [3 * (length vertices / 3)] elements of each
    vector: that many normals are enough. *)
Lemma all_accesses_enough_normals :
  (3 * (length vertices / 3) <= length normals)%nat ->
  forallb (in_boundsb vertices normals) (all_accesses (length vertices / 3))
  = true.
Proof.
  intros Hlen. apply forallb_forall. intros a Ha.
  unfold all_accesses in Ha. apply in_flat_map in Ha.
  destruct Ha as [i [Hi Ha]]. apply in_seq in Hi.
  assert (Hdiv : (3 * (length vertices / 3) <= length vertices)%nat)
    by (apply Nat.Div0.mul_div_le).
  apply in_boundsb_spec.
  unfold vertex_accesses in Ha. simpl in Ha.
  repeat (destruct Ha as [<-|Ha]; [simpl; lia|]). contradiction.
Qed.

(** A plan that is not wholly in bounds is logged up to an access out of
    bounds. *)
Lemma logged_out_of_bounds (plan : list Ply.access) :
  forallb (in_boundsb vertices normals) plan = false ->
  Exists (fun a => ~ in_bounds vertices normals a)
         (logged vertices normals plan).
Proof.
  induction plan as [|a plan IH]; simpl; [discriminate|].
  destruct (in_boundsb vertices normals a) eqn:E; simpl; intros H.
  - apply Exists_cons_tl. apply IH. exact H.
  - apply Exists_cons_hd. rewrite <- in_boundsb_spec. congruence.
Qed.

End Accesses.

(** ** Claims about the export *)

(** C6, as it stands, fails: with three floats of vertex data and no
    normal, the data loop reads [normals[0]] out of bounds; the behaviour
    of the call is undefined and no header is promised in the file. *)
Lemma write_ply_header_needs_normals :
  Ply.openable Sample.world0 "out.ply" = true
  /\ fst (Ply.write_ply Sample.show_any [F32.zero; F32.zero; F32.zero] []
            "out.ply" Sample.world0) = Fault.
Proof. split; reflexivity. Qed.

(** C6, amended: when [normals] holds the [3 * (length vertices / 3)]
    values the data loop reads, [write_ply] on a path that can be opened
    returns, the count [N] in the header it has written is
    [length vertices / 3], and a reader of the exported header gets that
    count back. *)
Theorem write_ply_header_count (show_float : float -> string)
  (vertices normals : list float) (filename : string) (w : Ply.World) :
  Ply.openable w filename = true ->
  (3 * (length vertices / 3) <= length normals)%nat ->
  fst (Ply.write_ply show_float vertices normals filename w) = Done tt
  /\ exists rest,
       Ply.disk (snd (Ply.write_ply show_float vertices normals filename w))
         filename
       = Some (Ply.header (length vertices / 3) ++ rest)%string
       /\ Ply.parse_vertex_count (Ply.header (length vertices / 3) ++ rest)
          = Some (length vertices / 3)%nat.
Proof.
  intros Hopen Hlen.
  destruct (PlyExport.write_ply_opened show_float vertices normals filename
              w Hopen) as (_ & Hres & [rest Hrest]).
  rewrite (all_accesses_enough_normals vertices normals Hlen) in Hres.
  split; [exact Hres|].
  exists rest. split; [exact Hrest | apply PlyFacts.parse_header].
Qed.

Lemma write_ply_header_count_witness :
  Ply.openable Sample.world0 "out.ply" = true
  /\ (3 * (length Sample.unit_triangle / 3)
      <= length Sample.unit_triangle)%nat
  /\ fst (Ply.write_ply Sample.show_any Sample.unit_triangle
            Sample.unit_triangle "out.ply" Sample.world0) = Done tt
  /\ exists rest,
       Ply.disk (snd (Ply.write_ply Sample.show_any Sample.unit_triangle
                        Sample.unit_triangle "out.ply" Sample.world0))
         "out.ply"
       = Some (Ply.header 3 ++ rest)%string
       /\ Ply.parse_vertex_count (Ply.header 3 ++ rest) = Some 3%nat.
Proof.
  assert (Hlen : (3 * (length Sample.unit_triangle / 3)
                  <= length Sample.unit_triangle)%nat) by (simpl; lia).
  split; [reflexivity|]. split; [exact Hlen|].
  exact (write_ply_header_count Sample.show_any Sample.unit_triangle
           Sample.unit_triangle "out.ply" Sample.world0 eq_refl Hlen).
Defined.

(** C7: when the path cannot be opened, [write_ply] prints one diagnostic
    line on the error stream and returns; no file is touched, nothing is
    read from the vectors, nothing is printed on the output stream. *)
Theorem write_ply_unopenable (show_float : float -> string)
  (vertices normals : list float) (filename : string) (w : Ply.World) :
  Ply.openable w filename = false ->
  fst (Ply.write_ply show_float vertices normals filename w) = Done tt
  /\ Ply.cerr (snd (Ply.write_ply show_float vertices normals filename w))
     = (Ply.cerr w ++ "Failed to open file: " ++ filename ++ Ply.nl)%string
  /\ Ply.disk (snd (Ply.write_ply show_float vertices normals filename w))
     = Ply.disk w
  /\ Ply.cout (snd (Ply.write_ply show_float vertices normals filename w))
     = Ply.cout w
  /\ Ply.reads (snd (Ply.write_ply show_float vertices normals filename w))
     = Ply.reads w.
Proof.
  intros Hopen. unfold Ply.write_ply, Ply.iobind, Ply.ofstream_open.
  rewrite Hopen. cbn. repeat split; reflexivity.
Qed.

Lemma write_ply_unopenable_witness :
  Ply.openable Sample.world0 "/nowhere/out.ply" = false
  /\ fst (Ply.write_ply Sample.show_any Sample.unit_triangle
            Sample.unit_triangle "/nowhere/out.ply" Sample.world0) = Done tt
  /\ Ply.cerr (snd (Ply.write_ply Sample.show_any Sample.unit_triangle
                      Sample.unit_triangle "/nowhere/out.ply" Sample.world0))
     = ("Failed to open file: /nowhere/out.ply" ++ Ply.nl)%string
  /\ Ply.disk (snd (Ply.write_ply Sample.show_any Sample.unit_triangle
                      Sample.unit_triangle "/nowhere/out.ply" Sample.world0))
       "/nowhere/out.ply" = None.
Proof.
  destruct (write_ply_unopenable Sample.show_any Sample.unit_triangle
              Sample.unit_triangle "/nowhere/out.ply" Sample.world0 eq_refl)
    as (Hres & Herr & Hdisk & _ & _).
  split; [reflexivity|]. split; [exact Hres|]. split; [exact Herr|].
  rewrite Hdisk. reflexivity.
Defined.

(** C10: on a path that can be opened, [write_ply] either returns, having
    read [normals] at the indices [0 .. 3 * (length vertices / 3) - 1] in
    order and made no access out of bounds, or stops at an access out of
    bounds.  When [normals] is at least as long as [vertices] it returns;
    with three vertices' worth of floats and no normal, the read of
    [normals[0]] is out of bounds. *)
Theorem write_ply_accesses (show_float : float -> string) :
  (forall vertices normals filename w,
      Ply.openable w filename = true -> Ply.reads w = [] ->
      let run := Ply.write_ply show_float vertices normals filename w in
      (fst run = Done tt
       /\ normal_reads (Ply.reads (snd run))
          = seq 0 (3 * (length vertices / 3))
       /\ Forall (in_bounds vertices normals) (Ply.reads (snd run)))
      \/ (fst run = Fault
          /\ Exists (fun a => ~ in_bounds vertices normals a)
                    (Ply.reads (snd run))))
  /\ (forall vertices normals filename w,
         Ply.openable w filename = true -> Ply.reads w = [] ->
         (length vertices <= length normals)%nat ->
         let run := Ply.write_ply show_float vertices normals filename w in
         fst run = Done tt
         /\ normal_reads (Ply.reads (snd run))
            = seq 0 (3 * (length vertices / 3))
         /\ Forall (in_bounds vertices normals) (Ply.reads (snd run)))
  /\ (exists vertices normals,
         (length normals < length vertices)%nat
         /\ forall filename w,
              Ply.openable w filename = true -> Ply.reads w = [] ->
              let run := Ply.write_ply show_float vertices normals filename w in
              fst run = Fault
              /\ Exists (fun a => ~ in_bounds vertices normals a)
                        (Ply.reads (snd run))).
Proof.
  assert (Hdone : forall vertices normals filename w,
             Ply.openable w filename = true -> Ply.reads w = [] ->
             forallb (in_boundsb vertices normals)
               (all_accesses (length vertices / 3)) = true ->
             let run := Ply.write_ply show_float vertices normals filename w in
             fst run = Done tt
             /\ normal_reads (Ply.reads (snd run))
                = seq 0 (3 * (length vertices / 3))
             /\ Forall (in_bounds vertices normals) (Ply.reads (snd run))).
  { intros vertices normals filename w Hopen Hlog Hall run.
    destruct (PlyExport.write_ply_opened show_float vertices normals filename
                w Hopen) as (Hreads & Hres & _).
    fold run in Hreads, Hres. rewrite Hall in Hres.
    rewrite Hlog, (PlyRun.logged_all _ _ _ Hall) in Hreads. simpl in Hreads.
    split; [exact Hres|]. rewrite Hreads. split.
    - unfold all_accesses. rewrite normal_reads_loop.
      f_equal. apply Nat.mul_comm.
    - apply Forall_forall. intros a Ha. apply in_boundsb_spec.
      rewrite forallb_forall in Hall. apply Hall. exact Ha. }
  assert (Hfault : forall vertices normals filename w,
             Ply.openable w filename = true -> Ply.reads w = [] ->
             forallb (in_boundsb vertices normals)
               (all_accesses (length vertices / 3)) = false ->
             let run := Ply.write_ply show_float vertices normals filename w in
             fst run = Fault
             /\ Exists (fun a => ~ in_bounds vertices normals a)
                       (Ply.reads (snd run))).
  { intros vertices normals filename w Hopen Hlog Hall run.
    destruct (PlyExport.write_ply_opened show_float vertices normals filename
                w Hopen) as (Hreads & Hres & _).
    fold run in Hreads, Hres. rewrite Hall in Hres.
    rewrite Hlog in Hreads. simpl in Hreads.
    split; [exact Hres|]. rewrite Hreads.
    apply logged_out_of_bounds. exact Hall. }
  split; [|split].
  - intros vertices normals filename w Hopen Hlog.
    destruct (forallb (in_boundsb vertices normals)
                (all_accesses (length vertices / 3))) eqn:Hall.
    + left. apply Hdone; assumption.
    + right. apply Hfault; assumption.
  - intros vertices normals filename w Hopen Hlog Hlen.
    apply Hdone; try assumption. apply all_accesses_in_bounds. exact Hlen.
  - exists [F32.zero; F32.zero; F32.zero], []. split; [simpl; lia|].
    intros filename w Hopen Hlog. apply Hfault; try assumption. reflexivity.
Qed.

Lemma write_ply_accesses_witness :
  Ply.openable Sample.world0 "out.ply" = true
  /\ Ply.reads Sample.world0 = []
  /\ (length Sample.unit_triangle <= length Sample.unit_triangle)%nat
  /\ fst (Ply.write_ply Sample.show_any Sample.unit_triangle
            Sample.unit_triangle "out.ply" Sample.world0) = Done tt
  /\ normal_reads
       (Ply.reads (snd (Ply.write_ply Sample.show_any Sample.unit_triangle
                          Sample.unit_triangle "out.ply" Sample.world0)))
     = [0; 1; 2; 3; 4; 5; 6; 7; 8]%nat.
Proof.
  destruct (write_ply_accesses Sample.show_any) as (_ & Hdone & _).
  destruct (Hdone Sample.unit_triangle Sample.unit_triangle "out.ply"%string
              Sample.world0 eq_refl eq_refl (le_n _)) as (Hres & Hreads & _).
  split; [reflexivity|]. split; [reflexivity|]. split; [apply le_n|].
  split; [exact Hres | exact Hreads].
Defined.

(** ** Further properties of the mesh generator *)

(** The configuration index is one of the 256 row numbers; it is [0] exactly
    when no corner sample is below the isovalue and [255] exactly when all
    eight are. *)
Theorem cube_index_extremes (val : list float) (isovalue : float) :
  (0 <= cube_index val isovalue <= 255)%Z
  /\ (cube_index val isovalue = 0%Z <->
      forall i, (i < 8)%nat -> (at_val val i <? isovalue)%f32 = false)
  /\ (cube_index val isovalue = 255%Z <->
      forall i, (i < 8)%nat -> (at_val val i <? isovalue)%f32 = true).
Proof.
  split; [pose proof (cube_index_range val isovalue); lia|]. split; split.
  - intros H0 i Hi.
    assert (Hb := cube_index_testbit val isovalue (Z.of_nat i) ltac:(lia)).
    rewrite H0, Z.bits_0, Nat2Z.id in Hb.
    destruct (Z.ltb_spec (Z.of_nat i) 8); [|lia].
    symmetry. exact Hb.
  - intros Hnone. apply Z.bits_inj'. intros j Hj.
    rewrite cube_index_testbit, Z.bits_0 by exact Hj.
    destruct (Z.ltb_spec j 8); [|reflexivity].
    rewrite Hnone by lia. reflexivity.
  - intros H255 i Hi.
    assert (Hb := cube_index_testbit val isovalue (Z.of_nat i) ltac:(lia)).
    rewrite H255, Nat2Z.id in Hb. change 255%Z with (Z.ones 8) in Hb.
    rewrite Z.ones_spec_low in Hb by lia.
    destruct (Z.ltb_spec (Z.of_nat i) 8); [|lia].
    symmetry. exact Hb.
  - intros Hall. apply Z.bits_inj'. intros j Hj.
    rewrite cube_index_testbit by exact Hj. change 255%Z with (Z.ones 8).
    destruct (Z.ltb_spec j 8).
    + rewrite Z.ones_spec_low by lia. rewrite Hall by lia. reflexivity.
    + rewrite Z.ones_spec_high by lia. reflexivity.
Qed.

(** With a table of 256 well-formed rows [marching_cubes] makes no access
    outside the table, a row or the edge array, whatever the field, the
    bounds and the number of turns taken. *)
Theorem marching_cubes_never_faults (marching_cubes_lut : list (list Z))
  (fuel : nat) (f : field) (isovalue min max stepsize : float) :
  TriTable.well_formed marching_cubes_lut = true ->
  marching_cubes marching_cubes_lut fuel f isovalue min max stepsize <> Fault.
Proof.
  intros Hwf. unfold marching_cubes.
  apply for_float_no_fault. intros x vs.
  apply for_float_no_fault. intros y vs0.
  apply for_float_no_fault. intros z vs1.
  destruct (process_cell_total marching_cubes_lut Hwf f isovalue stepsize
              x y z vs1) as [vs' ->].
  discriminate.
Qed.

Lemma marching_cubes_never_faults_witness :
  TriTable.well_formed TriTable.classic = true
  /\ marching_cubes TriTable.classic 3 Sample.plane_x Sample.half
       Sample.minus_five Sample.five Sample.fifth <> Fault.
Proof.
  assert (Hwf : TriTable.well_formed TriTable.classic = true)
    by (vm_compute; reflexivity).
  split; [exact Hwf|].
  exact (marching_cubes_never_faults TriTable.classic 3 Sample.plane_x
           Sample.half Sample.minus_five Sample.five Sample.fifth Hwf).
Defined.

(** *** Division by zero in the interpolation *)

Module Degenerate.

Import F32.

Lemma sub_self (a : float) : is_finite a = true -> (a - a)%f32 = zero.
Proof.
  destruct a as [[]|s| |s m e]; try discriminate; intros _; try reflexivity.
  unfold sub, SFsub. rewrite Z.sub_diag. reflexivity.
Qed.

Lemma div_zero_not_finite (a : float) : is_finite (a / zero)%f32 = false.
Proof. destruct a as [s|s| |s m e]; reflexivity. Qed.

Lemma mul_not_finite (t d : float) :
  is_finite t = false -> is_finite (t * d)%f32 = false.
Proof.
  destruct t as [s|s| |s m e]; try discriminate; intros _;
    destruct d as [s'|s'| |s' m' e']; reflexivity.
Qed.

Lemma add_not_finite (a u : float) :
  is_finite u = false -> is_finite (a + u)%f32 = false.
Proof.
  destruct u as [s|s| |s m e]; try discriminate; intros _;
    destruct a as [[]|[]| |s' m' e']; try reflexivity; destruct s; reflexivity.
Qed.

Lemma interpolate_component (a b v isovalue : float) :
  is_finite v = true ->
  is_finite (a + (isovalue - v) / (v - v) * (b - a))%f32 = false.
Proof.
  intros Hv. rewrite (sub_self v Hv).
  apply add_not_finite, mul_not_finite, div_zero_not_finite.
Qed.

End Degenerate.

(** On an edge whose two endpoint samples are the same finite value the
    interpolation factor is a quotient by zero: no component of the point
    [interpolateVertex] returns is finite (each is an infinity or NaN),
    whatever the endpoints and the isovalue. *)
Theorem interpolateVertex_equal_samples (p1 p2 : vec3) (v isovalue : float) :
  F32.is_finite v = true ->
  F32.is_finite (Glm.x (interpolateVertex p1 p2 v v isovalue)) = false
  /\ F32.is_finite (Glm.y (interpolateVertex p1 p2 v v isovalue)) = false
  /\ F32.is_finite (Glm.z (interpolateVertex p1 p2 v v isovalue)) = false.
Proof.
  intros Hv. unfold interpolateVertex, Glm.vadd, Glm.scalev, Glm.vsub.
  cbn [Glm.x Glm.y Glm.z].
  repeat split; apply Degenerate.interpolate_component; exact Hv.
Qed.

Lemma interpolateVertex_equal_samples_witness :
  F32.is_finite Sample.half = true
  /\ F32.is_finite
       (Glm.x (interpolateVertex Sample.end1 Sample.end2 Sample.half
                 Sample.half F32.one)) = false.
Proof.
  split; [reflexivity|].
  exact (proj1 (interpolateVertex_equal_samples Sample.end1 Sample.end2
                  Sample.half F32.one eq_refl)).
Defined.

(** ** Further properties of the normals *)

Lemma read_triangle_needs_nine (vertices : list float) (i : nat)
  (t : vec3 * vec3 * vec3) :
  read_triangle vertices i = Done t -> (i + 8 < length vertices)%nat.
Proof.
  unfold read_triangle. intros H.
  do 8 (apply bind_Done in H; destruct H as [? [_ H]]).
  apply bind_Done in H. destruct H as [c2 [Hc2 _]].
  unfold read in Hc2. destruct (nth_error vertices (i + 8)) eqn:E; [|discriminate].
  apply nth_error_Some. congruence.
Qed.

(** With whole triangles and then a broken one ahead, the loop faults. *)
Lemma normals_loop_partial (k : nat) :
  forall (suf pre normals : list float) (fuel r : nat),
    length suf = (9 * k + r)%nat -> (0 < r < 9)%nat ->
    (k < fuel)%nat ->
    normals_loop fuel (pre ++ suf) (length pre) normals = Fault.
Proof.
  induction k as [|k IH]; intros suf pre normals fuel r Hlen Hr Hfuel;
    (destruct fuel as [|fuel]; [lia|]); cbn [normals_loop].
  - assert (Hguard : (length pre <? length (pre ++ suf))%nat = true)
      by (apply Nat.ltb_lt; rewrite length_app; lia).
    rewrite Hguard.
    destruct (read_triangle (pre ++ suf) (length pre)) as [t| |] eqn:Er;
      cbn [bind]; [exfalso | reflexivity | exfalso].
    + apply read_triangle_needs_nine in Er. rewrite length_app in Er. lia.
    + exact (read_triangle_fuel _ _ Er).
  - do 9 (destruct suf as [|? suf]; [simpl in Hlen; lia|]).
    assert (Hguard : (length pre <? length (pre ++ f :: f0 :: f1 :: f2 :: f3
                                             :: f4 :: f5 :: f6 :: f7 :: suf))%nat
                     = true)
      by (apply Nat.ltb_lt; rewrite length_app; simpl; lia).
    rewrite Hguard. unfold read_triangle.
    rewrite (read_app_r pre _ _ 0), (read_app_r pre _ _ 1),
      (read_app_r pre _ _ 2), (read_app_r pre _ _ 3), (read_app_r pre _ _ 4),
      (read_app_r pre _ _ 5), (read_app_r pre _ _ 6), (read_app_r pre _ _ 7),
      (read_app_r pre _ _ 8) by lia.
    cbn [read nth_error bind].
    replace (pre ++ f :: f0 :: f1 :: f2 :: f3 :: f4 :: f5 :: f6 :: f7 :: suf)
      with ((pre ++ [f; f0; f1; f2; f3; f4; f5; f6; f7]) ++ suf)
      by (rewrite <- app_assoc; reflexivity).
    replace (length pre + 9)%nat
      with (length (pre ++ [f; f0; f1; f2; f3; f4; f5; f6; f7]))
      by (rewrite length_app; reflexivity).
    apply (IH suf _ _ fuel r); [simpl in Hlen; lia | exact Hr | lia].
Qed.

(** [compute_normals] reads outside its argument exactly when the length of
    the argument is not a multiple of nine. *)
Theorem compute_normals_faults_iff (vertices : list float) :
  compute_normals vertices = Fault <-> ~ Nat.divide 9 (length vertices).
Proof.
  split.
  - intros Hf [k Hk]. rewrite Nat.mul_comm in Hk.
    unfold compute_normals in Hf.
    assert (H := normals_loop_flat k vertices [] [] (S (length vertices)) Hk
                   ltac:(lia)).
    cbn [app length] in H. rewrite H in Hf. discriminate.
  - intros Hnd. unfold compute_normals.
    pose proof (Nat.div_mod_eq (length vertices) 9) as Hdm.
    assert (Hr : (length vertices mod 9 < 9)%nat) by (apply Nat.mod_upper_bound; lia).
    assert (Hpos : (0 < length vertices mod 9)%nat).
    { destruct (length vertices mod 9) eqn:E; [|lia].
      exfalso. apply Hnd. exists (length vertices / 9)%nat. lia. }
    exact (normals_loop_partial (length vertices / 9) vertices [] []
             (S (length vertices)) (length vertices mod 9)
             ltac:(lia) ltac:(lia) ltac:(lia)).
Qed.

(** A triangle whose three vertices are one and the same finite point has
    a zero cross product; normalising it divides by zero and all nine
    normal components come out as NaN, without fault. *)
Theorem compute_normals_collapsed_triangle (a b c : float) :
  F32.is_finite a = true -> F32.is_finite b = true -> F32.is_finite c = true ->
  compute_normals [a; b; c; a; b; c; a; b; c] = Done (repeat F32.nan 9).
Proof.
  intros Ha Hb Hc. unfold compute_normals. cbn [length normals_loop].
  cbn [Nat.ltb Nat.leb read_triangle read nth_error Nat.add bind].
  unfold triangle_normal, Glm.vsub. cbn [Glm.x Glm.y Glm.z].
  rewrite !Degenerate.sub_self by assumption.
  reflexivity.
Qed.

Lemma compute_normals_collapsed_triangle_witness :
  F32.is_finite Sample.half = true /\ F32.is_finite Sample.five = true
  /\ F32.is_finite Sample.fifth = true
  /\ compute_normals [Sample.half; Sample.five; Sample.fifth;
                      Sample.half; Sample.five; Sample.fifth;
                      Sample.half; Sample.five; Sample.fifth]
     = Done (repeat F32.nan 9).
Proof.
  split; [reflexivity|]. split; [reflexivity|]. split; [reflexivity|].
  exact (compute_normals_collapsed_triangle Sample.half Sample.five
           Sample.fifth eq_refl eq_refl eq_refl).
Defined.

(** ** Further properties of the export *)

Module PlyOutput.

Import Ply PlyFacts PlyRun.

Lemma read_nth (v : list float) (i : nat) :
  (i < length v)%nat -> read v i = Done (nth i v F32.nan).
Proof.
  intros Hi. unfold read.
  rewrite (nth_error_nth' v F32.nan Hi). reflexivity.
Qed.

(** *** Actions that append a known text *)

Section Emits.

Variable name : string.

Lemma emits_file_put (s : string) :
  emits name (file_put name s) s EmptyString.
Proof.
  intros w content Hw. unfold file_put. cbn [fst snd].
  rewrite disk_set_file. unfold file_content. rewrite Hw.
  cbn [cout cerr set_file]. rewrite append_nil_r. auto.
Qed.

Lemma emits_cout_put (o : string) : emits name (cout_put o) EmptyString o.
Proof.
  intros w content Hw. unfold cout_put. cbn [fst snd disk cerr cout].
  rewrite append_nil_r. auto.
Qed.

Lemma emits_silent (c : IO unit) :
  (forall w, c w = (Done tt, w)) -> emits name c EmptyString EmptyString.
Proof.
  intros Hc w content Hw. rewrite Hc. cbn [fst snd].
  rewrite !append_nil_r. auto.
Qed.

Lemma emits_seq (c k : IO unit) (s t o p : string) :
  emits name c s o -> emits name k t p ->
  emits name (c ;;; k) (s ++ t)%string (o ++ p)%string.
Proof.
  intros Hc Hk w content Hw. unfold iobind.
  destruct (Hc w content Hw) as (Hr & Hd & He & Ho).
  destruct (c w) as [r w1]. cbn [fst snd] in *. subst r.
  destruct (Hk w1 _ Hd) as (Hr2 & Hd2 & He2 & Ho2).
  rewrite Hr2, Hd2, He2, Ho2, Ho, !append_assoc. auto.
Qed.

(** The same, for an action that prints nothing before [k]. *)
Lemma emits_then (c k : IO unit) (s t p : string) :
  emits name c s EmptyString -> emits name k t p ->
  emits name (c ;;; k) (s ++ t)%string p.
Proof. intros Hc Hk. exact (emits_seq c k s t EmptyString p Hc Hk). Qed.

Lemma emits_read_vertices (v : list float) (i : nat) (k : float -> IO unit)
  (s o : string) :
  (i < length v)%nat ->
  emits name (k (nth i v F32.nan)) s o ->
  emits name (a <~ read_vertices v i ;; k a) s o.
Proof.
  intros Hi Hk w content Hw. unfold iobind, read_vertices.
  rewrite (read_nth v i Hi).
  exact (Hk (log (ReadVertices i) w) content Hw).
Qed.

Lemma emits_read_normals (v : list float) (i : nat) (k : float -> IO unit)
  (s o : string) :
  (i < length v)%nat ->
  emits name (k (nth i v F32.nan)) s o ->
  emits name (a <~ read_normals v i ;; k a) s o.
Proof.
  intros Hi Hk w content Hw. unfold iobind, read_normals.
  rewrite (read_nth v i Hi).
  exact (Hk (log (ReadNormals i) w) content Hw).
Qed.

End Emits.

Section Run.

Variable show_float : float -> string.
Variables (vertices normals : list float) (filename : string).

Ltac emits_step :=
  lazymatch goal with
  | |- emits _ (iobind (read_vertices _ _) _) _ _ =>
      apply emits_read_vertices; [lia|]
  | |- emits _ (iobind (read_normals _ _) _) _ _ =>
      apply emits_read_normals; [lia|]
  | |- emits _ (iobind (file_put _ _) _) _ _ =>
      apply emits_then; [apply emits_file_put|]
  | |- emits _ (file_put _ _) _ _ => apply emits_file_put
  end.

Lemma write_vertex_emits (i : nat) :
  (i * 3 + 2 < length vertices)%nat ->
  (i * 3 + 2 < length normals)%nat ->
  emits filename (write_vertex show_float vertices normals filename i)
    (ply_line show_float vertices normals i) EmptyString.
Proof.
  intros Hv Hn. unfold write_vertex, ply_line. repeat emits_step.
Qed.

Lemma for_count_emits (n : nat) :
  forall i,
    ((i + n) * 3 <= length vertices)%nat ->
    ((i + n) * 3 <= length normals)%nat ->
    emits filename
      (for_count n i (write_vertex show_float vertices normals filename))
      (ply_lines show_float vertices normals i n) EmptyString.
Proof.
  induction n as [|n IH]; intros i Hv Hn; cbn [for_count ply_lines].
  - apply emits_silent. reflexivity.
  - apply emits_then; [apply write_vertex_emits; lia | apply IH; lia].
Qed.

(** The whole run on a path that can be opened, with normals enough for
    the vertices counted. *)
Lemma write_ply_emits (w : World) :
  openable w filename = true ->
  (3 * (length vertices / 3) <= length normals)%nat ->
  fst (write_ply show_float vertices normals filename w) = Done tt
  /\ disk (snd (write_ply show_float vertices normals filename w)) filename
     = Some (header (length vertices / 3)
             ++ ply_lines show_float vertices normals 0
                  (length vertices / 3))%string
  /\ cerr (snd (write_ply show_float vertices normals filename w)) = cerr w
  /\ cout (snd (write_ply show_float vertices normals filename w))
     = (cout w ++ "Wrote " ++ filename ++ " with "
        ++ show_size_t (length vertices / 3) ++ " vertices." ++ nl)%string.
Proof.
  intros Hopen Hlen.
  assert (Hdiv : (3 * (length vertices / 3) <= length vertices)%nat)
    by (apply Nat.Div0.mul_div_le).
  assert (Hrun : exists (c : IO unit) (s : string),
             write_ply show_float vertices normals filename w
             = c (set_file w filename EmptyString)
             /\ emits filename c s
                  ("Wrote " ++ filename ++ " with "
                   ++ show_size_t (length vertices / 3) ++ " vertices." ++ nl)
             /\ s = (header (length vertices / 3)
                     ++ ply_lines show_float vertices normals 0
                          (length vertices / 3))%string).
  { eexists. eexists. split; [|split].
    - unfold write_ply. unfold iobind at 1. unfold ofstream_open.
      rewrite Hopen. cbn [negb]. reflexivity.
    - repeat emits_step.
      apply emits_then; [apply for_count_emits; lia|].
      apply emits_then; [apply emits_silent; reflexivity|].
      apply emits_cout_put.
    - unfold header. rewrite !append_assoc. cbn [append].
      rewrite append_nil_r. reflexivity. }
  destruct Hrun as (c & s & -> & Hc & ->).
  destruct (Hc (set_file w filename EmptyString) EmptyString
              (disk_set_file _ _ _)) as (Hr & Hd & He & Ho).
  split; [exact Hr|]. split; [exact Hd|]. split; [exact He | exact Ho].
Qed.

End Run.

End PlyOutput.

(** On a path that can be opened, and with a normal for every vertex
    counted, [write_ply] returns; the file then holds the header followed
    by one line of six numbers per vertex and nothing else, whatever it
    held before; one line is added to the output stream and none to the
    error stream. *)
Theorem write_ply_output (show_float : float -> string)
  (vertices normals : list float) (filename : string) (w : Ply.World) :
  Ply.openable w filename = true ->
  (3 * (length vertices / 3) <= length normals)%nat ->
  fst (Ply.write_ply show_float vertices normals filename w) = Done tt
  /\ Ply.disk (snd (Ply.write_ply show_float vertices normals filename w))
       filename
     = Some (Ply.header (length vertices / 3)
             ++ ply_lines show_float vertices normals 0
                  (length vertices / 3))%string
  /\ Ply.cerr (snd (Ply.write_ply show_float vertices normals filename w))
     = Ply.cerr w
  /\ Ply.cout (snd (Ply.write_ply show_float vertices normals filename w))
     = (Ply.cout w ++ "Wrote " ++ filename ++ " with "
        ++ Ply.show_size_t (length vertices / 3) ++ " vertices."
        ++ Ply.nl)%string.
Proof. apply PlyOutput.write_ply_emits. Qed.

Lemma write_ply_output_witness :
  Ply.openable Sample.world0 "out.ply" = true
  /\ (3 * (length Sample.unit_triangle / 3)
      <= length Sample.unit_triangle)%nat
  /\ Ply.disk (snd (Ply.write_ply Sample.show_any Sample.unit_triangle
                      Sample.unit_triangle "out.ply" Sample.world0))
       "out.ply"
     = Some (Ply.header 3
             ++ ply_lines Sample.show_any Sample.unit_triangle
                  Sample.unit_triangle 0 3)%string.
Proof.
  assert (Hlen : (3 * (length Sample.unit_triangle / 3)
                  <= length Sample.unit_triangle)%nat) by (simpl; lia).
  split; [reflexivity|]. split; [exact Hlen|].
  exact (proj1 (proj2 (write_ply_output Sample.show_any Sample.unit_triangle
                         Sample.unit_triangle "out.ply" Sample.world0
                         eq_refl Hlen))).
Defined.

(** ** The calls of [main] in sequence *)

(** What [main] does with the mesh: every vertex vector [marching_cubes]
    returns is accepted by [compute_normals], which gives a normal vector of
    the same length, and the two are exported by [write_ply] without an
    access out of bounds, under a header whose count is a multiple of
    three. *)
Theorem generated_mesh_exports (marching_cubes_lut : list (list Z))
  (fuel : nat) (f : field) (isovalue min max stepsize : float)
  (vertices : list float) :
  marching_cubes marching_cubes_lut fuel f isovalue min max stepsize
  = Done vertices ->
  exists normals,
    compute_normals vertices = Done normals
    /\ length normals = length vertices
    /\ Nat.divide 3 (length vertices / 3)
    /\ forall show_float filename w,
         Ply.openable w filename = true -> Ply.reads w = [] ->
         fst (Ply.write_ply show_float vertices normals filename w) = Done tt
         /\ Forall (in_bounds vertices normals)
              (Ply.reads (snd (Ply.write_ply show_float vertices normals
                                 filename w)))
         /\ Ply.disk (snd (Ply.write_ply show_float vertices normals
                             filename w)) filename
            = Some (Ply.header (length vertices / 3)
                    ++ ply_lines show_float vertices normals 0
                         (length vertices / 3))%string.
Proof.
  intros Hrun. apply marching_cubes_length in Hrun. destruct Hrun as [t Ht].
  exists (flat_normals vertices).
  assert (Hflat := normals_loop_flat t vertices [] [] (S (length vertices)) Ht
                     ltac:(lia)).
  cbn [app length] in Hflat.
  assert (Hlen := flat_normals_length t vertices Ht).
  split; [exact Hflat|]. split; [exact Hlen|]. split.
  - exists t. rewrite Ht. replace (9 * t)%nat with ((3 * t) * 3)%nat by lia.
    rewrite Nat.div_mul by lia. lia.
  - intros show_float filename w Hopen Hlog.
    assert (Hall : forallb (in_boundsb vertices (flat_normals vertices))
                     (all_accesses (length vertices / 3)) = true)
      by (apply all_accesses_in_bounds; lia).
    destruct (PlyExport.write_ply_opened show_float vertices
                (flat_normals vertices) filename w Hopen)
      as (Hreads & _ & _).
    rewrite Hlog, (PlyRun.logged_all _ _ _ Hall) in Hreads. simpl in Hreads.
    assert (Hdiv : (3 * (length vertices / 3) <= length vertices)%nat)
      by (apply Nat.Div0.mul_div_le).
    destruct (PlyOutput.write_ply_emits show_float vertices
                (flat_normals vertices) filename w Hopen ltac:(lia))
      as (Hres & Hdisk & _ & _).
    split; [exact Hres|]. split; [|exact Hdisk].
    rewrite Hreads. apply Forall_forall. intros a Ha.
    apply in_boundsb_spec. rewrite forallb_forall in Hall. apply Hall. exact Ha.
Qed.

Lemma generated_mesh_exports_witness :
  exists vertices,
    marching_cubes TriTable.classic 2 Sample.plane_x Sample.half
      F32.zero F32.one F32.one = Done vertices
    /\ exists normals,
         compute_normals vertices = Done normals
         /\ length normals = length vertices.
Proof.
  assert (Hrun : exists vertices,
             marching_cubes TriTable.classic 2 Sample.plane_x Sample.half
               F32.zero F32.one F32.one = Done vertices)
    by (eexists; vm_compute; reflexivity).
  destruct Hrun as [vertices Hrun]. exists vertices. split; [exact Hrun|].
  destruct (generated_mesh_exports TriTable.classic 2 Sample.plane_x
              Sample.half F32.zero F32.one F32.one vertices Hrun)
    as (normals & Hn & Hl & _).
  exists normals. split; [exact Hn | exact Hl].
Defined.

(* ===================================================================== *)
(** ** The camera and the input callbacks *)
(* ===================================================================== *)

Module F32Compare.

Import F32.

Lemma compare_refl (a : float) :
  SFcompare a a = Some Eq \/ SFcompare a a = None.
Proof.
  destruct a as [s|[]| |[] m e]; simpl; auto;
    rewrite Z.compare_refl, Pos.compare_cont_refl; auto.
Qed.

Lemma ltb_irrefl (a : float) : (a <? a)%f32 = false.
Proof.
  unfold ltb, SFltb. destruct (compare_refl a) as [H|H]; rewrite H; reflexivity.
Qed.

Lemma float_eqb_refl (a : float) : is_nan a = false -> (a =? a)%f32 = true.
Proof.
  intros Ha. unfold eqb, SFeqb. destruct (compare_refl a) as [H|H].
  - rewrite H. reflexivity.
  - destruct a as [s|[]| |[] m e]; simpl in *; try discriminate;
      rewrite Z.compare_refl, Pos.compare_cont_refl in H; discriminate.
Qed.

Lemma compare_None (a b : float) :
  SFcompare a b = None -> is_nan a = true \/ is_nan b = true.
Proof.
  destruct a as [s|s| |s m e], b as [s'|s'| |s' m' e']; simpl; auto;
    try discriminate;
    try (destruct s; discriminate);
    try (destruct s'; discriminate);
    try (destruct s, s'; discriminate);
    destruct s, s'; try discriminate;
    destruct (e ?= e')%Z; try discriminate;
    destruct (Pos.compare_cont Eq m m'); discriminate.
Qed.

(** Among numbers, "not below" is "at least". *)
Lemma not_ltb_leb (a b : float) :
  (a <? b)%f32 = false -> is_nan a = false -> is_nan b = false ->
  (b <=? a)%f32 = true.
Proof.
  unfold ltb, leb, SFltb, SFleb. intros H Ha Hb.
  rewrite (F32Order.compare_antisym a b).
  destruct (SFcompare a b) as [[]|] eqn:E; simpl; try reflexivity;
    try discriminate.
  destruct (compare_None a b E); congruence.
Qed.

(** The two comparisons of a clamp, as [processMouseMovement] and
    [processMouseScroll] write them. *)
Lemma raise_not_below (x lo : float) :
  ((if (x <? lo)%f32 then lo else x) <? lo)%f32 = false.
Proof.
  destruct (x <? lo)%f32 eqn:E; [apply ltb_irrefl | exact E].
Qed.

Lemma lower_not_above (x hi : float) :
  (hi <? (if (hi <? x)%f32 then hi else x))%f32 = false.
Proof.
  destruct (hi <? x)%f32 eqn:E; [apply ltb_irrefl | exact E].
Qed.

Lemma lower_not_below (x lo hi : float) :
  (hi <? lo)%f32 = false -> (x <? lo)%f32 = false ->
  ((if (hi <? x)%f32 then hi else x) <? lo)%f32 = false.
Proof.
  intros Hb Hx. destruct (hi <? x)%f32; assumption.
Qed.

(** Adding [+0] leaves a number as it is, up to the sign of zero. *)
Lemma add_zero_r (a : float) :
  is_nan a = false -> ((a + zero)%f32 =? a)%f32 = true.
Proof.
  intros Ha. destruct a as [[]|[]| |s m e]; try discriminate; try reflexivity.
  change (S754_finite s m e + zero)%f32 with (S754_finite s m e).
  apply float_eqb_refl. reflexivity.
Qed.

Lemma add_zero_r_eq (a : float) :
  is_nan a = false -> (a <? Camera.minPhi)%f32 = false ->
  (a + zero)%f32 = a.
Proof.
  intros Ha Hlow. destruct a as [[]|[]| |s m e]; try discriminate; reflexivity.
Qed.

End F32Compare.

Module CameraFacts.

Import F32.

Lemma pitch_limits_ordered : (Camera.maxPhi <? Camera.minPhi)%f32 = false.
Proof. vm_compute. reflexivity. Qed.

Lemma default_within_limits : Input.within_limits Camera.default.
Proof. repeat split; vm_compute; reflexivity. Qed.

Lemma movement_within_limits (c : Camera.t) (xoffset yoffset : float) :
  Input.within_limits c ->
  Input.within_limits (Camera.processMouseMovement c xoffset yoffset true).
Proof.
  intros (Hr & _ & _ & Hm & Hs). unfold Input.within_limits,
    Camera.processMouseMovement. cbn [Camera.r Camera.phi
    Camera.mouseSensitivity Camera.scrollSensitivity].
  repeat split; try assumption.
  - apply F32Compare.lower_not_below;
      [exact pitch_limits_ordered | apply F32Compare.raise_not_below].
  - apply F32Compare.lower_not_above.
Qed.

Lemma scroll_within_limits (c : Camera.t) (yoffset : float) :
  Input.within_limits c ->
  Input.within_limits (Camera.processMouseScroll c yoffset).
Proof.
  intros (_ & Hlo & Hhi & Hm & Hs). unfold Input.within_limits,
    Camera.processMouseScroll. cbn [Camera.r Camera.phi
    Camera.mouseSensitivity Camera.scrollSensitivity].
  repeat split; try assumption. apply F32Compare.raise_not_below.
Qed.

Lemma handle_within_limits (s : Input.state) (e : Input.event) :
  Input.within_limits (Input.camera s) ->
  Input.within_limits (Input.camera (Input.handle s e)).
Proof.
  intros H. destruct e as [button action mods|xpos ypos|xoffset yoffset];
    cbn [Input.handle].
  - unfold Input.mouse_button_callback.
    destruct (button =? Input.GLFW_MOUSE_BUTTON_LEFT)%Z; exact H.
  - unfold Input.cursor_position_callback.
    destruct (negb (Input.mousePressed s)); [exact H|].
    cbn [Input.camera]. apply movement_within_limits, H.
  - unfold Input.scroll_callback. cbn [Input.camera].
    apply scroll_within_limits, H.
Qed.

Lemma run_within_limits (events : list Input.event) (s : Input.state) :
  Input.within_limits (Input.camera s) ->
  Input.within_limits (Input.camera (Input.run s events)).
Proof.
  revert s. induction events as [|e events IH]; intros s H; [exact H|].
  apply (IH (Input.handle s e)), handle_within_limits, H.
Qed.

(** A difference of a finite double with itself, narrowed to [float],
    scaled by the sensitivity and turned into radians, is [+0]. *)
Lemma no_offset (x : double) :
  F64.is_finite x = true ->
  Camera.radians (F64.to_float (F64.sub x x) * Camera.tenth) = zero.
Proof.
  intros Hx.
  assert (E : F64.sub x x = S754_zero false).
  { destruct x as [[]|s| |s m e]; try discriminate; try reflexivity.
    unfold F64.sub, SFsub. rewrite Z.sub_diag. reflexivity. }
  rewrite E. reflexivity.
Qed.

End CameraFacts.

(** [Camera::processMouseScroll]: whatever the camera and the scroll
    offset, the radius afterwards is not below one, and it is at least one
    unless it is NaN; the angles and the sensitivities are untouched. *)
Theorem processMouseScroll_keeps_distance (c : Camera.t) (yoffset : float) :
  (Camera.r (Camera.processMouseScroll c yoffset) <? F32.one)%f32 = false
  /\ (F32.is_nan (Camera.r (Camera.processMouseScroll c yoffset)) = false ->
      (F32.one <=? Camera.r (Camera.processMouseScroll c yoffset))%f32 = true)
  /\ Camera.theta (Camera.processMouseScroll c yoffset) = Camera.theta c
  /\ Camera.phi (Camera.processMouseScroll c yoffset) = Camera.phi c
  /\ Camera.mouseSensitivity (Camera.processMouseScroll c yoffset)
     = Camera.mouseSensitivity c
  /\ Camera.scrollSensitivity (Camera.processMouseScroll c yoffset)
     = Camera.scrollSensitivity c.
Proof.
  assert (H : (Camera.r (Camera.processMouseScroll c yoffset) <? F32.one)%f32
              = false) by apply F32Compare.raise_not_below.
  split; [exact H|]. split; [|repeat split].
  intros Hnan. apply F32Compare.not_ltb_leb; [exact H | exact Hnan | reflexivity].
Qed.

(** [Camera::processMouseMovement] with the pitch constrained: whatever the
    camera and the offsets, the pitch afterwards is neither below [0.1f]
    nor above [pi - 0.1f], and it lies between the two unless it is NaN;
    the radius is untouched. *)
Theorem processMouseMovement_constrains_pitch (c : Camera.t)
  (xoffset yoffset : float) :
  (Camera.phi (Camera.processMouseMovement c xoffset yoffset true)
   <? Camera.minPhi)%f32 = false
  /\ (Camera.maxPhi
      <? Camera.phi (Camera.processMouseMovement c xoffset yoffset true))%f32
     = false
  /\ (F32.is_nan
        (Camera.phi (Camera.processMouseMovement c xoffset yoffset true))
      = false ->
      (Camera.minPhi
       <=? Camera.phi (Camera.processMouseMovement c xoffset yoffset true))%f32
      = true
      /\ (Camera.phi (Camera.processMouseMovement c xoffset yoffset true)
          <=? Camera.maxPhi)%f32 = true)
  /\ Camera.r (Camera.processMouseMovement c xoffset yoffset true)
     = Camera.r c.
Proof.
  assert (Hlo : (Camera.phi (Camera.processMouseMovement c xoffset yoffset true)
                 <? Camera.minPhi)%f32 = false).
  { apply F32Compare.lower_not_below;
      [exact CameraFacts.pitch_limits_ordered | apply F32Compare.raise_not_below]. }
  assert (Hhi : (Camera.maxPhi
                 <? Camera.phi (Camera.processMouseMovement c xoffset yoffset
                                  true))%f32 = false)
    by apply F32Compare.lower_not_above.
  split; [exact Hlo|]. split; [exact Hhi|]. split; [|reflexivity].
  intros Hnan. split; apply F32Compare.not_ltb_leb;
    solve [assumption | reflexivity].
Qed.

(** The input handling of [main.cpp]: after any sequence of mouse button,
    cursor and scroll events, delivered to the callbacks from the initial
    globals, the camera is within its limits: radius not below one, pitch
    not outside [0.1f .. pi - 0.1f], sensitivities [0.1f]. *)
Theorem input_keeps_camera_within_limits (events : list Input.event) :
  Input.within_limits (Input.camera (Input.run Input.initial events)).
Proof.
  apply CameraFacts.run_within_limits.
  exact CameraFacts.default_within_limits.
Qed.

(** The purpose of [firstMouse]: the first cursor event after a press of
    the left button only records the cursor position.  For a camera within
    its limits whose angles are numbers and a finite position, the azimuth
    compares equal to what it was, pitch and radius are the same, and the
    position is remembered for the next event. *)
Theorem first_motion_after_press_does_not_rotate (s : Input.state)
  (mods : Z) (xpos ypos : double) :
  Input.within_limits (Input.camera s) ->
  F32.is_nan (Camera.theta (Input.camera s)) = false ->
  F32.is_nan (Camera.phi (Input.camera s)) = false ->
  F64.is_finite xpos = true ->
  F64.is_finite ypos = true ->
  (Camera.theta
     (Input.camera
        (Input.run s [Input.MouseButton Input.GLFW_MOUSE_BUTTON_LEFT
                        Input.GLFW_PRESS mods;
                      Input.CursorPosition xpos ypos]))
   =? Camera.theta (Input.camera s))%f32 = true
  /\ Camera.phi
       (Input.camera
          (Input.run s [Input.MouseButton Input.GLFW_MOUSE_BUTTON_LEFT
                          Input.GLFW_PRESS mods;
                        Input.CursorPosition xpos ypos]))
     = Camera.phi (Input.camera s)
  /\ Camera.r
       (Input.camera
          (Input.run s [Input.MouseButton Input.GLFW_MOUSE_BUTTON_LEFT
                          Input.GLFW_PRESS mods;
                        Input.CursorPosition xpos ypos]))
     = Camera.r (Input.camera s)
  /\ Input.run s [Input.MouseButton Input.GLFW_MOUSE_BUTTON_LEFT
                    Input.GLFW_PRESS mods;
                  Input.CursorPosition xpos ypos]
     = Input.mk
         (Input.camera
            (Input.run s [Input.MouseButton Input.GLFW_MOUSE_BUTTON_LEFT
                            Input.GLFW_PRESS mods;
                          Input.CursorPosition xpos ypos]))
         true xpos ypos false.
Proof.
  intros (Hr & Hlo & Hhi & Hm & Hs) Htheta Hphi Hx Hy.
  cbn [Input.run fold_left Input.handle].
  unfold Input.mouse_button_callback.
  change (Input.GLFW_MOUSE_BUTTON_LEFT =? Input.GLFW_MOUSE_BUTTON_LEFT)%Z
    with true.
  change (Input.GLFW_PRESS =? Input.GLFW_PRESS)%Z with true.
  cbv iota. unfold Input.cursor_position_callback.
  cbn [Input.mousePressed Input.firstMouse Input.camera Input.lastX
       Input.lastY negb].
  unfold Camera.processMouseMovement. cbn [Camera.theta Camera.phi Camera.r].
  rewrite Hm.
  rewrite (CameraFacts.no_offset xpos Hx).
  rewrite (CameraFacts.no_offset ypos Hy).
  rewrite (F32Compare.add_zero_r_eq (Camera.phi (Input.camera s)) Hphi Hlo).
  rewrite Hlo, Hhi.
  split; [apply F32Compare.add_zero_r, Htheta|].
  repeat split.
Qed.

Lemma first_motion_after_press_does_not_rotate_witness :
  Camera.phi
    (Input.camera
       (Input.run Input.initial
          [Input.MouseButton Input.GLFW_MOUSE_BUTTON_LEFT Input.GLFW_PRESS 0;
           Input.CursorPosition (F64.of_Z 640) (F64.of_Z 360)]))
  = Camera.phi (Input.camera Input.initial).
Proof.
  exact (proj1 (proj2 (first_motion_after_press_does_not_rotate Input.initial
                         0 (F64.of_Z 640) (F64.of_Z 360)
                         CameraFacts.default_within_limits
                         eq_refl eq_refl eq_refl eq_refl))).
Defined.

(* ===================================================================== *)
(** ** The tessellated plane *)
(* ===================================================================== *)

Module Blocks.

(** Lists made of blocks of one length. *)

Lemma flat_map_length_const {A B : Type} (f : A -> list B) (b : nat)
  (l : list A) :
  (forall x, length (f x) = b) -> length (flat_map f l) = (length l * b)%nat.
Proof.
  intros Hb. induction l as [|x l IH]; [reflexivity|].
  cbn [flat_map]. rewrite length_app, IH, Hb. reflexivity.
Qed.

Lemma nth_error_flat_map_const {A B : Type} (f : A -> list B) (b : nat)
  (l : list A) (q r : nat) (x : A) :
  (forall x, length (f x) = b) -> nth_error l q = Some x -> (r < b)%nat ->
  nth_error (flat_map f l) (q * b + r) = nth_error (f x) r.
Proof.
  intros Hb. revert q. induction l as [|y l IH]; intros q Hq Hr.
  - destruct q; discriminate.
  - destruct q as [|q]; cbn [flat_map].
    + injection Hq as ->. cbn [Nat.mul Nat.add].
      apply nth_error_app1. rewrite Hb. exact Hr.
    + cbn [nth_error] in Hq. rewrite nth_error_app2; rewrite Hb; [|lia].
      replace (S q * b + r - b)%nat with (q * b + r)%nat by lia.
      apply IH; assumption.
Qed.

Lemma up_normals_length (count : nat) :
  length (up_normals count) = (3 * count)%nat.
Proof.
  unfold up_normals. induction count as [|count IH]; [reflexivity|].
  cbn [repeat concat]. rewrite length_app, IH. cbn [length]. lia.
Qed.

Lemma up_normals_app (a b : nat) :
  up_normals (a + b) = up_normals a ++ up_normals b.
Proof.
  unfold up_normals. rewrite repeat_app, concat_app. reflexivity.
Qed.

Lemma grid_length (coords : list float) :
  length (grid coords) = (3 * (length coords * length coords))%nat.
Proof.
  unfold grid.
  rewrite (flat_map_length_const _ (length coords * 3)).
  - lia.
  - intros x. apply flat_map_length_const. reflexivity.
Qed.

Lemma quads_length (nCols : Z) :
  length (quads nCols)
  = (4 * (Z.to_nat (nCols - 1) * Z.to_nat (nCols - 1)))%nat.
Proof.
  unfold quads.
  rewrite (flat_map_length_const _ (Z.to_nat (nCols - 1) * 4)).
  - rewrite length_seq. lia.
  - intros i. rewrite (flat_map_length_const _ 4); [|reflexivity].
    rewrite length_seq. reflexivity.
Qed.

(** Row-major addressing of the grid. *)
Lemma grid_vertex (coords : list float) (i j : nat) (x z : float) :
  nth_error coords i = Some x -> nth_error coords j = Some z ->
  vertex_at (grid coords) (i * length coords + j)
  = Some (Glm.mkvec3 x F32.zero z).
Proof.
  intros Hi Hj.
  assert (Hlen : forall x0 : float,
             length (flat_map (fun z0 => [x0; F32.zero; z0]) coords)
             = (length coords * 3)%nat).
  { intros x0. apply flat_map_length_const. reflexivity. }
  assert (Hj' : (j < length coords)%nat).
  { apply nth_error_Some. rewrite Hj. discriminate. }
  assert (H : forall t, (t < 3)%nat ->
             nth_error (grid coords) (3 * (i * length coords + j) + t)
             = nth_error [x; F32.zero; z] t).
  { intros t Ht. unfold grid.
    replace (3 * (i * length coords + j) + t)%nat
      with (i * (length coords * 3) + (j * 3 + t))%nat by lia.
    rewrite (nth_error_flat_map_const _ _ coords i (j * 3 + t) x Hlen Hi)
      by lia.
    apply (nth_error_flat_map_const (fun z0 => [x; F32.zero; z0]) 3 coords
             j t z); [reflexivity | exact Hj | exact Ht]. }
  unfold vertex_at.
  rewrite <- (Nat.add_0_r (3 * (i * length coords + j))) at 1.
  rewrite !H by lia. reflexivity.
Qed.

(** Addressing of the index vector: cell [(i, j)] owns four entries. *)
Lemma quads_cell (nCols : Z) (i j t : nat) :
  (i < Z.to_nat (nCols - 1))%nat -> (j < Z.to_nat (nCols - 1))%nat ->
  (t < 4)%nat ->
  nth_error (quads nCols) (4 * (i * Z.to_nat (nCols - 1) + j) + t)
  = nth_error (quad nCols (Z.of_nat i) (Z.of_nat j)) t.
Proof.
  intros Hi Hj Ht. unfold quads.
  set (b := Z.to_nat (nCols - 1)) in *.
  replace (4 * (i * b + j) + t)%nat with (i * (b * 4) + (j * 4 + t))%nat
    by lia.
  assert (Hseq : forall k, (k < b)%nat -> nth_error (seq 0 b) k = Some k).
  { intros k Hk. rewrite nth_error_nth' with (d := 0%nat)
      by (rewrite length_seq; exact Hk).
    rewrite seq_nth by exact Hk. reflexivity. }
  rewrite (nth_error_flat_map_const _ (b * 4) (seq 0 b) i (j * 4 + t) i).
  - apply (nth_error_flat_map_const
             (fun j0 => quad nCols (Z.of_nat i) (Z.of_nat j0)) 4 (seq 0 b)
             j t j); [reflexivity | apply Hseq, Hj | exact Ht].
  - intros x. rewrite (flat_map_length_const _ 4); [|reflexivity].
    rewrite length_seq. reflexivity.
  - apply Hseq, Hi.
  - lia.
Qed.



End Blocks.

Module PlaneRun.

Import PlaneMesh.

Lemma int_Done (z : Z) : (INT_MIN <= z <= INT_MAX)%Z -> int z = Done z.
Proof.
  intros [Hlo Hhi]. unfold int.
  destruct (Z.leb_spec INT_MIN z); [|lia].
  destruct (Z.leb_spec z INT_MAX); [|lia]. reflexivity.
Qed.

Lemma int_Done_inv (z c : Z) :
  int z = Done c -> c = z /\ (INT_MIN <= c <= INT_MAX)%Z.
Proof.
  unfold int. destruct (Z.leb_spec INT_MIN z); [|discriminate].
  destruct (Z.leb_spec z INT_MAX); [|discriminate].
  cbn [andb]. intros E. injection E as <-. lia.
Qed.

(** A [float] loop of [n] turns with a body that returns. *)
Lemma for_float_le_turns {S : Type} (max stepsize : float)
  (body : float -> S -> result S) (g : float -> S -> S) (start : float)
  (n : nat) :
  (forall v s, body v s = Done (g v s)) ->
  turns start max stepsize n ->
  forall fuel s, (n < fuel)%nat ->
    for_float_le fuel max stepsize body start s
    = Done (fold_left (fun s v => g v s) (visited start stepsize n) s).
Proof.
  intros Hbody [Hrun Hstop].
  assert (H : forall d k, (k + d = n)%nat -> forall fuel s, (d < fuel)%nat ->
             for_float_le fuel max stepsize body (stride start stepsize k) s
             = Done (fold_left (fun s v => g v s)
                       (map (stride start stepsize) (seq k d)) s)).
  { induction d as [|d IH]; intros k Hk fuel s Hfuel;
      (destruct fuel as [|fuel]; [lia|]); cbn [for_float_le].
    - replace k with n by lia. rewrite Hstop. reflexivity.
    - rewrite (Hrun k) by lia. rewrite Hbody. cbn [bind seq map fold_left].
      apply (IH (Datatypes.S k)); lia. }
  intros fuel s Hfuel. exact (H n 0%nat eq_refl fuel s Hfuel).
Qed.

(** The vertex loops push one row per outer turn. *)
Lemma push_row (x : float) (coords : list float) (m : mesh) :
  fold_left (fun m z => push_vertex x (F32.of_Z 0) z m) coords m
  = mkmesh (verts m ++ flat_map (fun z => [x; F32.zero; z]) coords)
           (normals m ++ up_normals (length coords)) (indices m).
Proof.
  revert m. induction coords as [|z coords IH]; intros m.
  - cbn. rewrite !app_nil_r. destruct m; reflexivity.
  - cbn [fold_left flat_map length]. rewrite IH. unfold push_vertex.
    cbn [verts normals indices].
    change (Datatypes.S (length coords)) with (1 + length coords)%nat.
    rewrite Blocks.up_normals_app, <- !app_assoc. reflexivity.
Qed.

Lemma push_rows (rows coords : list float) (m : mesh) :
  fold_left
    (fun m x => fold_left (fun m z => push_vertex x (F32.of_Z 0) z m) coords m)
    rows m
  = mkmesh
      (verts m
       ++ flat_map (fun x => flat_map (fun z => [x; F32.zero; z]) coords) rows)
      (normals m ++ up_normals (length rows * length coords)) (indices m).
Proof.
  revert m. induction rows as [|x rows IH]; intros m.
  - cbn. rewrite !app_nil_r. destruct m; reflexivity.
  - cbn [fold_left flat_map length]. rewrite push_row, IH.
    cbn [verts normals indices].
    replace (Datatypes.S (length rows) * length coords)%nat
      with (length coords + length rows * length coords)%nat by lia.
    rewrite Blocks.up_normals_app, <- !app_assoc. reflexivity.
Qed.

Lemma vertex_loops (min max stepsize : float) (n fuel : nat) (m : mesh) :
  turns min max stepsize n -> (n < fuel)%nat ->
  for_float_le fuel max stepsize
    (fun x m =>
       for_float_le fuel max stepsize
         (fun z m => Done (push_vertex x (F32.of_Z 0) z m)) min m)
    min m
  = Done (mkmesh (verts m ++ grid (visited min stepsize n))
                 (normals m ++ up_normals (n * n)) (indices m)).
Proof.
  intros Hturns Hfuel.
  rewrite (for_float_le_turns max stepsize _
             (fun x m =>
                fold_left (fun m z => push_vertex x (F32.of_Z 0) z m)
                  (visited min stepsize n) m) min n).
  - rewrite push_rows. unfold visited at 3 4.
    rewrite length_map, length_seq. reflexivity.
  - intros x m0.
    apply (for_float_le_turns max stepsize _
             (fun z m => push_vertex x (F32.of_Z 0) z m) min n);
      [reflexivity | exact Hturns | exact Hfuel].
  - exact Hturns.
  - exact Hfuel.
Qed.

(** An [int] loop with a body that returns. *)
Lemma for_int_run {S : Type} (body : Z -> S -> result S) (g : Z -> S -> S)
  (count : nat) :
  forall (first : nat) (s : S),
    (forall k s, (first <= k < first + count)%nat ->
       body (Z.of_nat k) s = Done (g (Z.of_nat k) s)) ->
    for_int count (Z.of_nat first) body s
    = Done (fold_left (fun s k => g (Z.of_nat k) s) (seq first count) s).
Proof.
  induction count as [|count IH]; intros first s Hbody; [reflexivity|].
  cbn [for_int seq fold_left]. rewrite Hbody by lia. cbn [bind].
  replace (Z.of_nat first + 1)%Z with (Z.of_nat (Datatypes.S first)) by lia.
  apply IH. intros k s' Hk. apply Hbody. lia.
Qed.

(** No corner of a grid of at most 46340 columns overflows. *)
Lemma push_quad_Done (nCols i j : Z) (m : mesh) :
  (nCols <= 46340)%Z -> (0 <= i < nCols - 1)%Z -> (0 <= j < nCols - 1)%Z ->
  push_quad nCols i j m
  = Done (mkmesh (verts m) (normals m) (indices m ++ quad nCols i j)).
Proof.
  intros Hc Hi Hj. unfold push_quad, int_add, int_mul, INT_MIN, INT_MAX.
  assert (Hsq : (nCols * nCols <= 2147395600)%Z) by nia.
  assert (H1 : (0 <= i * nCols <= (nCols - 2) * nCols)%Z) by nia.
  assert (H2 : (0 <= (i + 1) * nCols <= (nCols - 1) * nCols)%Z) by nia.
  repeat (rewrite int_Done by (unfold INT_MIN, INT_MAX; nia); cbn [bind]).
  reflexivity.
Qed.

Lemma push_cells {A : Type} (f : A -> list Z) (l : list A) (m : mesh) :
  fold_left
    (fun m k => mkmesh (verts m) (normals m) (indices m ++ f k)) l m
  = mkmesh (verts m) (normals m) (indices m ++ flat_map f l).
Proof.
  revert m. induction l as [|k l IH]; intros m.
  - cbn. rewrite app_nil_r. destruct m; reflexivity.
  - cbn [fold_left flat_map]. rewrite IH. cbn [verts normals indices].
    rewrite <- app_assoc. reflexivity.
Qed.

Lemma index_loops (nCols : Z) (m : mesh) :
  (nCols <= 46340)%Z ->
  for_int (Z.to_nat (nCols - 1)) 0
    (fun i m =>
       for_int (Z.to_nat (nCols - 1)) 0 (fun j m => push_quad nCols i j m) m)
    m
  = Done (mkmesh (verts m) (normals m) (indices m ++ quads nCols)).
Proof.
  intros Hc. set (b := Z.to_nat (nCols - 1)).
  change 0%Z with (Z.of_nat 0).
  rewrite (for_int_run _
             (fun i m =>
                mkmesh (verts m) (normals m)
                  (indices m
                   ++ flat_map (fun j => quad nCols i (Z.of_nat j))
                        (seq 0 b)))).
  - rewrite (push_cells
               (fun i => flat_map
                           (fun j => quad nCols (Z.of_nat i) (Z.of_nat j))
                           (seq 0 b))).
    reflexivity.
  - intros i m0 Hi.
    rewrite (for_int_run _
               (fun j m =>
                  mkmesh (verts m) (normals m)
                    (indices m ++ quad nCols (Z.of_nat i) j))).
    + rewrite (push_cells (fun j => quad nCols (Z.of_nat i) (Z.of_nat j))).
      reflexivity.
    + intros j m1 Hj. apply push_quad_Done; unfold b in *; lia.
Qed.

(** The whole call, when the vertex loops make [n] turns and the float
    expression for [nCols] converts to [c]. *)
Lemma planeMeshQuads_run (min max stepsize : float) (n fuel : nat) (c : Z)
  (m : mesh) :
  turns min max stepsize n ->
  int_of_float ((max - min) / stepsize + F32.of_Z 1)%f32 = Done c ->
  (INT_MIN < c <= 46340)%Z -> (n < fuel)%nat ->
  planeMeshQuads fuel min max stepsize m
  = Done (mkmesh (verts m ++ grid (visited min stepsize n))
                 (normals m ++ up_normals (n * n))
                 (indices m ++ quads c)).
Proof.
  intros Hturns Hc Hrange Hfuel. unfold planeMeshQuads.
  rewrite (vertex_loops min max stepsize n fuel m Hturns Hfuel).
  cbn [bind]. rewrite Hc. cbn [bind]. unfold int_sub.
  rewrite int_Done by (unfold INT_MIN, INT_MAX in *; lia). cbn [bind].
  rewrite index_loops by lia. reflexivity.
Qed.

Lemma visited_length (start stepsize : float) (n : nat) :
  length (visited start stepsize n) = n.
Proof. unfold visited. rewrite length_map, length_seq. reflexivity. Qed.

Lemma visited_nth (start stepsize : float) (n k : nat) :
  (k < n)%nat ->
  nth_error (visited start stepsize n) k = Some (stride start stepsize k).
Proof.
  intros Hk. unfold visited. rewrite nth_error_map.
  rewrite nth_error_nth' with (d := 0%nat) by (rewrite length_seq; exact Hk).
  rewrite seq_nth by exact Hk. reflexivity.
Qed.


(** Three turns from 0 to 1 by [0.5f]. *)
Lemma sample_turns : turns F32.zero F32.one Sample.half 3.
Proof.
  split; [|vm_compute; reflexivity].
  intros k Hk. destruct k as [|[|[|k]]]; [vm_compute; reflexivity ..|lia].
Qed.


End PlaneRun.

(** [planeMeshQuads] returns, and what it appends is known exactly: when
    the float loop [v = min; v <= max; v += stepsize] makes [n] turns and
    the expression [(max - min) / stepsize + 1] converts to an [int] [c] of
    at most 46340, the call appends the [n * n] vertices of the grid over
    the visited coordinates, row after row at height zero, as many normals
    [(0, 1, 0)], and the index quadruples of the [(c - 1) * (c - 1)] cells
    of a grid of [c] columns; no [int] operation overflows. *)
Theorem planeMeshQuads_builds_grid (min max stepsize : float)
  (n fuel : nat) (c : Z) (m : PlaneMesh.mesh) :
  turns min max stepsize n ->
  PlaneMesh.int_of_float ((max - min) / stepsize + F32.of_Z 1)%f32 = Done c ->
  (PlaneMesh.INT_MIN < c <= 46340)%Z ->
  (n < fuel)%nat ->
  PlaneMesh.planeMeshQuads fuel min max stepsize m
  = Done (PlaneMesh.mkmesh
            (PlaneMesh.verts m ++ grid (visited min stepsize n))
            (PlaneMesh.normals m ++ up_normals (n * n))
            (PlaneMesh.indices m ++ quads c))
  /\ length (grid (visited min stepsize n)) = (3 * (n * n))%nat
  /\ length (up_normals (n * n)) = (3 * (n * n))%nat
  /\ length (quads c) = (4 * (Z.to_nat (c - 1) * Z.to_nat (c - 1)))%nat.
Proof.
  intros Hturns Hc Hrange Hfuel.
  split; [exact (PlaneRun.planeMeshQuads_run min max stepsize n fuel c m
                   Hturns Hc Hrange Hfuel)|].
  rewrite Blocks.grid_length, PlaneRun.visited_length.
  rewrite Blocks.up_normals_length, Blocks.quads_length. repeat split.
Qed.

Lemma planeMeshQuads_builds_grid_witness :
  turns F32.zero F32.one Sample.half 3
  /\ PlaneMesh.planeMeshQuads 4 F32.zero F32.one Sample.half PlaneMesh.empty
     = Done (PlaneMesh.mkmesh
               (grid (visited F32.zero Sample.half 3))
               (up_normals 9) (quads 3)).
Proof.
  split; [exact PlaneRun.sample_turns|].
  exact (proj1 (planeMeshQuads_builds_grid F32.zero F32.one Sample.half 3 4 3
                  PlaneMesh.empty PlaneRun.sample_turns eq_refl
                  (conj eq_refl (Zle_bool_imp_le 3 46340 eq_refl))
                  (Nat.lt_succ_diag_r 3))).
Defined.



(** When the computed column count equals the number [n] of turns, the
    mesh [planeMeshQuads] builds from the empty one is the intended one:
    the four indices of cell [(i, j)] address, in this order, the vertices
    [(x_i, 0, z_j)], [(x_i, 0, z_j+1)], [(x_i+1, 0, z_j+1)] and
    [(x_i+1, 0, z_j)], where [x_k = z_k] is the loop variable after [k]
    additions of [stepsize]. *)
Theorem planeMeshQuads_quad_corners (min max stepsize : float)
  (n fuel : nat) (i j : nat) :
  turns min max stepsize n ->
  PlaneMesh.int_of_float ((max - min) / stepsize + F32.of_Z 1)%f32
  = Done (Z.of_nat n) ->
  (Z.of_nat n <= 46340)%Z ->
  (n < fuel)%nat ->
  (i + 1 < n)%nat -> (j + 1 < n)%nat ->
  exists (m : PlaneMesh.mesh) (a b c d : nat),
    PlaneMesh.planeMeshQuads fuel min max stepsize PlaneMesh.empty = Done m
    /\ nth_error (PlaneMesh.indices m) (4 * (i * (n - 1) + j))
       = Some (Z.of_nat a)
    /\ nth_error (PlaneMesh.indices m) (4 * (i * (n - 1) + j) + 1)
       = Some (Z.of_nat b)
    /\ nth_error (PlaneMesh.indices m) (4 * (i * (n - 1) + j) + 2)
       = Some (Z.of_nat c)
    /\ nth_error (PlaneMesh.indices m) (4 * (i * (n - 1) + j) + 3)
       = Some (Z.of_nat d)
    /\ vertex_at (PlaneMesh.verts m) a
       = Some (Glm.mkvec3 (stride min stepsize i) F32.zero
                 (stride min stepsize j))
    /\ vertex_at (PlaneMesh.verts m) b
       = Some (Glm.mkvec3 (stride min stepsize i) F32.zero
                 (stride min stepsize (j + 1)))
    /\ vertex_at (PlaneMesh.verts m) c
       = Some (Glm.mkvec3 (stride min stepsize (i + 1)) F32.zero
                 (stride min stepsize (j + 1)))
    /\ vertex_at (PlaneMesh.verts m) d
       = Some (Glm.mkvec3 (stride min stepsize (i + 1)) F32.zero
                 (stride min stepsize j)).
Proof.
  intros Hturns Hc Hn Hfuel Hi Hj.
  exists (PlaneMesh.mkmesh (grid (visited min stepsize n))
            (up_normals (n * n)) (quads (Z.of_nat n))),
    (i * n + j)%nat, (i * n + (j + 1))%nat,
    ((i + 1) * n + (j + 1))%nat, ((i + 1) * n + j)%nat.
  split.
  { apply (PlaneRun.planeMeshQuads_run min max stepsize n fuel (Z.of_nat n)
             PlaneMesh.empty Hturns Hc); [unfold PlaneMesh.INT_MIN; lia|].
    exact Hfuel. }
  cbn [PlaneMesh.verts PlaneMesh.indices].
  assert (Hb : Z.to_nat (Z.of_nat n - 1) = (n - 1)%nat) by lia.
  assert (Hcell : forall t, (t < 4)%nat ->
             nth_error (quads (Z.of_nat n)) (4 * (i * (n - 1) + j) + t)
             = nth_error (quad (Z.of_nat n) (Z.of_nat i) (Z.of_nat j)) t).
  { intros t Ht. rewrite <- Hb. apply Blocks.quads_cell; lia. }
  assert (Hvertex : forall p q, (p < n)%nat -> (q < n)%nat ->
             vertex_at (grid (visited min stepsize n)) (p * n + q)
             = Some (Glm.mkvec3 (stride min stepsize p) F32.zero
                       (stride min stepsize q))).
  { intros p q Hp Hq.
    rewrite <- (PlaneRun.visited_length min stepsize n) at 2.
    apply Blocks.grid_vertex; apply PlaneRun.visited_nth; assumption. }
  rewrite <- (Nat.add_0_r (4 * (i * (n - 1) + j))) at 1.
  rewrite !Hcell by lia. unfold quad. cbn [nth_error].
  repeat split; try (f_equal; lia); apply Hvertex; lia.
Qed.

Lemma planeMeshQuads_quad_corners_witness :
  turns F32.zero F32.one Sample.half 3
  /\ exists (m : PlaneMesh.mesh) (a b c d : nat),
       PlaneMesh.planeMeshQuads 4 F32.zero F32.one Sample.half
         PlaneMesh.empty = Done m
       /\ nth_error (PlaneMesh.indices m) (4 * (1 * (3 - 1) + 1))
          = Some (Z.of_nat a)
       /\ nth_error (PlaneMesh.indices m) (4 * (1 * (3 - 1) + 1) + 1)
          = Some (Z.of_nat b)
       /\ nth_error (PlaneMesh.indices m) (4 * (1 * (3 - 1) + 1) + 2)
          = Some (Z.of_nat c)
       /\ nth_error (PlaneMesh.indices m) (4 * (1 * (3 - 1) + 1) + 3)
          = Some (Z.of_nat d)
       /\ vertex_at (PlaneMesh.verts m) a
          = Some (Glm.mkvec3 (stride F32.zero Sample.half 1) F32.zero
                    (stride F32.zero Sample.half 1))
       /\ vertex_at (PlaneMesh.verts m) b
          = Some (Glm.mkvec3 (stride F32.zero Sample.half 1) F32.zero
                    (stride F32.zero Sample.half (1 + 1)))
       /\ vertex_at (PlaneMesh.verts m) c
          = Some (Glm.mkvec3 (stride F32.zero Sample.half (1 + 1)) F32.zero
                    (stride F32.zero Sample.half (1 + 1)))
       /\ vertex_at (PlaneMesh.verts m) d
          = Some (Glm.mkvec3 (stride F32.zero Sample.half (1 + 1)) F32.zero
                    (stride F32.zero Sample.half 1)).
Proof.
  split; [exact PlaneRun.sample_turns|].
  exact (planeMeshQuads_quad_corners F32.zero F32.one Sample.half 3 4 1 1
           PlaneRun.sample_turns eq_refl
           (Zle_bool_imp_le 3 46340 eq_refl)
           (Nat.lt_succ_diag_r 3)
           (Nat.lt_succ_diag_r 2) (Nat.lt_succ_diag_r 2)).
Defined.

(* ===================================================================== *)
(** ** The globe camera *)
(* ===================================================================== *)

Module GlobeFacts.

Lemma globe_limits_ordered : (Globe.maxPhi <? Globe.minPhi)%f32 = false.
Proof. vm_compute. reflexivity. Qed.

Lemma clamp_within (v : float) :
  (Globe.clamp v Globe.minPhi Globe.maxPhi <? Globe.minPhi)%f32 = false
  /\ (Globe.maxPhi <? Globe.clamp v Globe.minPhi Globe.maxPhi)%f32 = false.
Proof.
  unfold Globe.clamp. destruct (v <? Globe.minPhi)%f32 eqn:Elo.
  - split; [apply F32Compare.ltb_irrefl | exact globe_limits_ordered].
  - destruct (Globe.maxPhi <? v)%f32 eqn:Ehi.
    + split; [exact globe_limits_ordered | apply F32Compare.ltb_irrefl].
    + split; assumption.
Qed.

Lemma clamp_nan (v : float) :
  F32.is_nan (Globe.clamp v Globe.minPhi Globe.maxPhi) = F32.is_nan v.
Proof.
  unfold Globe.clamp. destruct (v <? Globe.minPhi)%f32 eqn:Elo.
  - destruct v as [s|s| |s m e]; try reflexivity. discriminate.
  - destruct (Globe.maxPhi <? v)%f32 eqn:Ehi; [|reflexivity].
    destruct v as [s|s| |s m e]; try reflexivity. discriminate.
Qed.

End GlobeFacts.

(** [mouse_callback] of the globe camera: a cursor event that rotates
    (the button is held and a previous position is recorded) leaves the
    pitch neither below [0.1f] nor above [glm::radians(179.9f)], whatever
    the pitch was before (the arrow keys move it without a clamp); it is
    between the two bounds unless the unclamped value [phi - dy *
    sensitivity] is NaN, and the cursor position is recorded. *)
Theorem mouse_callback_clamps_pitch (s : Globe.state) (xpos ypos : double) :
  Globe.rotating s = true ->
  F64.ltb (Globe.lastX s) (F64.of_Z 0) = false ->
  F64.ltb (Globe.lastY s) (F64.of_Z 0) = false ->
  (Globe.phi (Globe.mouse_callback s xpos ypos) <? Globe.minPhi)%f32 = false
  /\ (Globe.maxPhi <? Globe.phi (Globe.mouse_callback s xpos ypos))%f32
     = false
  /\ (F32.is_nan
        (Globe.phi s
         - F64.to_float (F64.sub ypos (Globe.lastY s)) * Globe.sensitivity s)%f32
      = false ->
      (Globe.minPhi <=? Globe.phi (Globe.mouse_callback s xpos ypos))%f32
      = true
      /\ (Globe.phi (Globe.mouse_callback s xpos ypos) <=? Globe.maxPhi)%f32
         = true)
  /\ Globe.lastX (Globe.mouse_callback s xpos ypos) = xpos
  /\ Globe.lastY (Globe.mouse_callback s xpos ypos) = ypos.
Proof.
  intros Hrot HX HY. unfold Globe.mouse_callback.
  rewrite Hrot, HX, HY. cbn [negb orb Globe.phi Globe.lastX Globe.lastY].
  destruct (GlobeFacts.clamp_within
              (Globe.phi s
               - F64.to_float (F64.sub ypos (Globe.lastY s))
                 * Globe.sensitivity s)%f32) as [Hlo Hhi].
  split; [exact Hlo|]. split; [exact Hhi|]. split; [|split; reflexivity].
  intros Hnan. rewrite <- GlobeFacts.clamp_nan in Hnan.
  split; apply F32Compare.not_ltb_leb;
    solve [assumption | reflexivity].
Qed.

Lemma mouse_callback_clamps_pitch_witness :
  (Globe.phi
     (Globe.mouse_callback
        (Globe.mouse_button_callback Globe.initial
           Input.GLFW_MOUSE_BUTTON_LEFT Input.GLFW_PRESS 0
           (F64.of_Z 640, F64.of_Z 360))
        (F64.of_Z 640) (F64.of_Z 100000))
   <? Globe.minPhi)%f32 = false.
Proof.
  exact (proj1 (mouse_callback_clamps_pitch
                  (Globe.mouse_button_callback Globe.initial
                     Input.GLFW_MOUSE_BUTTON_LEFT Input.GLFW_PRESS 0
                     (F64.of_Z 640, F64.of_Z 360))
                  (F64.of_Z 640) (F64.of_Z 100000)
                  eq_refl eq_refl eq_refl)).
Defined.
